(** * Karere backend: history reconciliation, live events and command dispatch

    A shallow embedding of the parts of [src/backend.js] and
    [src/database.js] that ingest bulk history and live messages, persist
    them in the SQLite store and answer the consumer, and of the queries and
    maintenance functions around them, followed by the properties of the
    specification that concern them and by further properties of the code.

    Conventions of the embedding.
    - JavaScript numbers are modelled by integers ([Z]) plus [NaN]. The
      source computes in IEEE doubles: every arithmetic operation of the
      model rounds its result to the nearest double ([Js.round]), which is
      the result itself up to 2^53 in magnitude. Numbers with a fraction and
      the infinities (magnitudes of 2^1024 and more) are outside the model;
      the properties that state the value of a number carry its range as a
      hypothesis.
    - Strings are sequences of ASCII characters.
    - [undefined] and [null] are [None]; an absent array is the empty list.
    - The SQLite tables are finite maps from the primary key to a row; the
      columns [created_at]/[updated_at] (statement-time bookkeeping), the
      column [reply_to_id] (declared, never written) and the tables [media]
      and [settings] are read by none of the modelled functions and are left
      out.
    - [Date.now()] reads the clock of the state, a time value of [Date],
      which stands still while one handler runs.
    - A call of the store may fail for a reason of the engine; the state
      carries the list of the failures to come, so that a property stated
      for every state holds for every pattern of failing calls.
    - Logging and the performance timers have no effect on the state. *)

From Stdlib Require Import ZArith Lia Ascii String.
From stdpp Require Import gmap strings list fin_maps pretty sorting.


(** ** JavaScript values *)

Module Js.

(** A JavaScript number, as far as the program uses one. *)
Inductive Number :=
| Num (z : Z)
| NaN.

(** The double nearest to the integer [z]: round to nearest, ties to even,
    on 53 significant bits. *)
Definition round (z : Z) : Z :=
  let a := Z.abs z in
  if (a <? 2 ^ 53)%Z then z
  else
    let e := (Z.log2 a - 52)%Z in
    let q := (a / 2 ^ e)%Z in
    let r := (a mod 2 ^ e)%Z in
    let half := (2 ^ (e - 1))%Z in
    let q' :=
      if (half <? r)%Z || ((r =? half)%Z && Z.odd q) then (q + 1)%Z else q in
    (Z.sgn z * (q' * 2 ^ e))%Z.

(** [a * b], [a + b] and [a - b] on numbers. *)
Definition mul (a b : Number) : Number :=
  match a, b with
  | Num x, Num y => Num (round (x * y))
  | _, _ => NaN
  end.

Definition add (a b : Number) : Number :=
  match a, b with
  | Num x, Num y => Num (round (x + y))
  | _, _ => NaN
  end.

Definition sub (a b : Number) : Number :=
  match a, b with
  | Num x, Num y => Num (round (x - y))
  | _, _ => NaN
  end.

(** [a < b] on numbers: false as soon as one side is NaN. *)
Definition lt (a b : Number) : bool :=
  match a, b with
  | Num x, Num y => (x <? y)%Z
  | _, _ => false
  end.

(** The time values of [Date]: the numbers of at most 8.64e15 in
    magnitude. [new Date(t)] is an invalid date for any other [t]. *)
Definition valid_time (t : Number) : bool :=
  match t with
  | Num z => (Z.abs z <=? 8640000000000000)%Z
  | NaN => false
  end.

(** [a > b] on numbers: false as soon as one side is NaN. *)
Definition gt (a b : Number) : bool :=
  match a, b with
  | Num x, Num y => (y <? x)%Z
  | _, _ => false
  end.

(** [x >>> 0]: ToUint32. *)
Definition to_uint32 (x : Z) : Z := (x mod 2 ^ 32)%Z.

(** Truthiness of a string that may be undefined. *)
Definition truthy_str (s : option string) : bool :=
  match s with
  | Some (String _ _) => true
  | _ => false
  end.

(** Truthiness of a number that may be null: 0 and NaN are falsy. *)
Definition truthy_num (n : option Z) : bool :=
  match n with
  | Some z => negb (z =? 0)%Z
  | None => false
  end.

(** [a || b] where [b] is a string literal. *)
Definition or_str (a : option string) (b : string) : string :=
  match a with
  | Some (String c s) => String c s
  | _ => b
  end.

(** [a || b] where both sides may be undefined; a falsy [a] yields [b]. *)
Definition or_opt (a b : option string) : option string :=
  if truthy_str a then a else b.

(** [a || null]. *)
Definition or_null (a : option string) : option string :=
  if truthy_str a then a else None.

Definition is_whitespace (c : ascii) : bool :=
  let n := nat_of_ascii c in
  (n =? 32)%nat || (n =? 9)%nat || (n =? 10)%nat || (n =? 11)%nat
  || (n =? 12)%nat || (n =? 13)%nat.

Fixpoint trim_start (s : string) : string :=
  match s with
  | String c r => if is_whitespace c then trim_start r else s
  | EmptyString => EmptyString
  end.

(** Value of a character as a digit of the given radix. *)
Definition digit_value (radix : Z) (c : ascii) : option Z :=
  let n := Z.of_nat (nat_of_ascii c) in
  let v :=
    if (48 <=? n)%Z && (n <=? 57)%Z then Some (n - 48)%Z
    else if (97 <=? n)%Z && (n <=? 122)%Z then Some (n - 87)%Z
    else if (65 <=? n)%Z && (n <=? 90)%Z then Some (n - 55)%Z
    else None in
  match v with
  | Some d => if (d <? radix)%Z then Some d else None
  | None => None
  end.

(** Longest prefix of digits, accumulated most significant first; [None]
    when there is no digit at all. *)
Fixpoint digits_prefix (radix : Z) (acc : option Z) (s : string) : option Z :=
  match s with
  | String c r =>
      match digit_value radix c with
      | Some d =>
          digits_prefix radix
            (Some (match acc with Some a => a * radix + d | None => d end)%Z) r
      | None => acc
      end
  | EmptyString => acc
  end.

Definition strip_sign (s : string) : Z * string :=
  match s with
  | String "-" r => ((-1)%Z, r)
  | String "+" r => (1%Z, r)
  | _ => (1%Z, s)
  end.

(** [parseInt(s)] with no radix argument. *)
Definition parseInt (s : string) : Number :=
  let '(sign, body) := strip_sign (trim_start s) in
  let '(radix, body) :=
    match body with
    | String "0" (String "x" r) => (16%Z, r)
    | String "0" (String "X" r) => (16%Z, r)
    | _ => (10%Z, body)
    end in
  match digits_prefix radix None body with
  | Some v => Num (round (sign * v))
  | None => NaN
  end.

Fixpoint all_whitespace (s : string) : bool :=
  match s with
  | String c r => is_whitespace c && all_whitespace r
  | EmptyString => true
  end.

(** A run of digits followed by white space only; [None] when there is no
    digit or something else follows. *)
Fixpoint digits_only (radix : Z) (acc : option Z) (s : string) : option Z :=
  match s with
  | String c r =>
      match digit_value radix c with
      | Some d =>
          digits_only radix
            (Some (match acc with Some a => a * radix + d | None => d end)%Z) r
      | None => if all_whitespace s then acc else None
      end
  | EmptyString => acc
  end.

(** ToNumber of a string, for the literals that denote an integer: white
    space around an optionally signed run of decimal digits, or around a
    [0x], [0o] or [0b] literal; the empty string is [0]. Literals with a
    fraction, an exponent or [Infinity] denote numbers that the integer
    model does not have; they are not told apart from the strings that
    are no number at all. *)
Definition string_to_number (s : string) : Number :=
  let t := trim_start s in
  let unsigned (radix : Z) (r : string) :=
    match digits_only radix None r with
    | Some v => Num (round v)
    | None => NaN
    end in
  match t with
  | EmptyString => Num 0
  | String "0" (String "x" r) | String "0" (String "X" r) => unsigned 16%Z r
  | String "0" (String "o" r) | String "0" (String "O" r) => unsigned 8%Z r
  | String "0" (String "b" r) | String "0" (String "B" r) => unsigned 2%Z r
  | _ =>
      let '(sign, body) := strip_sign t in
      match digits_only 10 None body with
      | Some v => Num (round (sign * v))
      | None => NaN
      end
  end.

End Js.

(** ** Upstream messages *)

(** [messageTimestamp] as the protocol client delivers it. The last
    argument of [TsLong] is what ToNumber makes of the object when it is
    used in arithmetic (its own string conversion decides that: the value
    for a protobuf Long instance, NaN for a bare [{low, high}] object). *)
Inductive Timestamp :=
| TsNumber (n : Z)
| TsString (s : string)
| TsLong (low high : Z) (to_number : Js.Number).

Record MessageKey := {
  key_id : option string;
  key_fromMe : bool;
  key_remoteJid : option string;
}.

(** The object carrying the typed content of a message. For the members
    that are read further ([.text], [.caption], [.title]) the inner option is
    that member; the others only matter by being present. *)
Record MessageObj := {
  conversation : option string;
  extendedTextMessage : option (option string);
  imageMessage : option (option string);
  videoMessage : option (option string);
  audioMessage : bool;
  documentMessage : option (option string);
  stickerMessage : bool;
  locationMessage : bool;
  liveLocationMessage : bool;
  contactMessage : bool;
  contactsArrayMessage : bool;
  groupInviteMessage : bool;
  buttonsMessage : bool;
  templateMessage : bool;
  listMessage : bool;
  reactionMessage : bool;
  pollCreationMessage : bool;
  pollUpdateMessage : bool;
}.

(** [msg.message]: either the content itself (live messages) or a history
    wrapper that nests the content, the timestamp and the key one level
    deeper. *)
Record MessageBody := {
  body_message : option MessageObj;
  body_messageTimestamp : option Timestamp;
  body_key : option MessageKey;
  body_fields : MessageObj;
}.

Record RawMessage := {
  msg_key : option MessageKey;
  msg_messageTimestamp : option Timestamp;
  msg_message : option MessageBody;
  msg_pushName : option string;
  msg_participant : option string;
  msg_notify : option string;
}.

(** [msg.message], unwrapped when it is a history message. *)
Definition messageObj (msg : RawMessage) : option MessageObj :=
  match msg_message msg with
  | Some body =>
      match body_message body with
      | Some inner => Some inner
      | None => Some (body_fields body)
      end
  | None => None
  end.

Definition getDisplayMessage (msg : RawMessage) : option string :=
  match messageObj msg with
  | None => Some ""
  | Some o =>
      if Js.truthy_str (conversation o) then conversation o
      else match extendedTextMessage o with
      | Some text => text
      | None =>
      match imageMessage o with
      | Some caption => Some (Js.or_str caption "[Image]")
      | None =>
      match videoMessage o with
      | Some caption => Some (Js.or_str caption "[Video]")
      | None =>
      if audioMessage o then Some "[Audio]"
      else match documentMessage o with
      | Some title => Some (Js.or_str title "[Document]")
      | None =>
      if stickerMessage o then Some "[Sticker]"
      else if locationMessage o then Some "[Location]"
      else if contactMessage o then Some "[Contact]"
      else Some "[Unsupported Message]"
      end end end end
  end.

Definition getMessageType (msg : RawMessage) : string :=
  match messageObj msg with
  | None => "text"
  | Some o =>
      if Js.truthy_str (conversation o) then "text"
      else if bool_decide (is_Some (extendedTextMessage o)) then "text"
      else if bool_decide (is_Some (imageMessage o)) then "image"
      else if bool_decide (is_Some (videoMessage o)) then "video"
      else if audioMessage o then "audio"
      else if bool_decide (is_Some (documentMessage o)) then "document"
      else if stickerMessage o then "sticker"
      else if locationMessage o then "location"
      else if liveLocationMessage o then "live_location"
      else if contactMessage o then "contact"
      else if contactsArrayMessage o then "contacts"
      else if groupInviteMessage o then "group_invite"
      else if buttonsMessage o then "buttons"
      else if templateMessage o then "template"
      else if listMessage o then "list"
      else if reactionMessage o then "reaction"
      else if pollCreationMessage o then "poll"
      else if pollUpdateMessage o then "poll_update"
      else "unknown"
  end.

(** Truthiness of a timestamp value: [0] and [""] are falsy, an object is
    always truthy. *)
Definition truthy_ts (t : option Timestamp) : bool :=
  match t with
  | None => false
  | Some (TsNumber n) => negb (n =? 0)%Z
  | Some (TsString s) => Js.truthy_str (Some s)
  | Some (TsLong _ _ _) => true
  end.

(** The timestamp the normalisation reads: the nested one of a history
    message when it is there, else the top-level one. *)
Definition rawTimestamp (msg : RawMessage) : option Timestamp :=
  match msg_message msg with
  | Some body =>
      if truthy_ts (body_messageTimestamp body)
      then body_messageTimestamp body
      else msg_messageTimestamp msg
  | None => msg_messageTimestamp msg
  end.

(** [getMessageTimestamp]; [now] is the reading of [Date.now()]. *)
Definition getMessageTimestamp (now : Z) (msg : RawMessage) : Js.Number :=
  let timestamp := rawTimestamp msg in
  if negb (truthy_ts timestamp) then Js.Num now
  else match timestamp with
  | Some (TsLong low high _) =>
      let low := Js.Num (Js.to_uint32 low) in
      let high := Js.Num (Js.to_uint32 high) in
      Js.mul (Js.add (Js.mul high (Js.Num 4294967296)) low) (Js.Num 1000)
  | Some (TsNumber n) => Js.mul (Js.Num n) (Js.Num 1000)
  | Some (TsString s) => Js.mul (Js.parseInt s) (Js.Num 1000)
  | None => Js.Num now
  end.

(** ToNumber of [msg.messageTimestamp], as in [msg.messageTimestamp * 1000]. *)
Definition timestamp_to_number (t : option Timestamp) : Js.Number :=
  match t with
  | None => Js.NaN
  | Some (TsNumber n) => Js.Num n
  | Some (TsString s) => Js.string_to_number s
  | Some (TsLong _ _ n) => n
  end.

Definition getMessageKey (msg : RawMessage) : option MessageKey :=
  match msg_key msg with
  | Some k => Some k
  | None =>
      match msg_message msg with
      | Some body => body_key body
      | None => None
      end
  end.

Definition formatLastMessageContent
    (content : option string) (messageType : string) : option string :=
  if String.eqb messageType "text"
  then Some (Js.or_str content "No messages yet")
  else None.

(** ** The SQLite store ([database.js], [createTables] and [runMigrations]) *)

Module chats.
(** Table [chats], primary key [jid]. *)
Record row := {
  name : option string;
  avatar_base64 : option string;
  last_message_id : option string;
  last_message_timestamp : option Z;
  last_message_type : option string;
  last_message_from : option string;
  unread_count : Z;
  is_archived : bool;
  history_baseline_timestamp : option Z;
  last_sync_timestamp : option Z;
  history_complete : bool;
}.
End chats.

Module messages.
(** Table [messages], primary key [id] alone, [chat_jid] a foreign key
    into [chats] with ON DELETE CASCADE. *)
Record row := {
  chat_jid : string;
  from_me : bool;
  message_type : option string;
  content : option string;
  timestamp : Z;
  status : option string;
  collection_session : option string;
}.
End messages.

Module contacts.
(** Table [contacts], primary key [jid]. *)
Record row := {
  name : option string;
  phone_number : option string;
  avatar_base64 : option string;
  is_blocked : bool;
}.
End contacts.

(** The tables. A TEXT PRIMARY KEY admits NULL, and any number of rows with
    a NULL key: those rows of [messages] are kept aside in
    [tbl_messages_null]. *)
Record Store := {
  tbl_chats : gmap string chats.row;
  tbl_messages : gmap string messages.row;
  tbl_messages_null : list messages.row;
  tbl_contacts : gmap string contacts.row;
}.

Definition empty_store : Store :=
  {| tbl_chats := ∅; tbl_messages := ∅; tbl_messages_null := [];
     tbl_contacts := ∅ |}.

(** What one SQL statement does: the new store and a result, or an error
    that leaves the store as it was. *)
Inductive outcome (A : Type) :=
| Done (a : A) (s : Store)
| Failed (reason : string).
Arguments Done {A} a s.
Arguments Failed {A} reason.

(** A number bound to a statement parameter: NaN is bound as NULL. *)
Definition bind_num (n : Js.Number) : option Z :=
  match n with
  | Js.Num z => Some z
  | Js.NaN => None
  end.

Module Sql.

(** Rows of [messages] that survive the deletion of the chat [jid]
    (PRAGMA foreign_keys = ON, ON DELETE CASCADE). *)
Definition cascade_chat (jid : string) (s : Store) : Store :=
  {| tbl_chats := delete jid (tbl_chats s);
     tbl_messages :=
       filter (λ kv : string * messages.row, messages.chat_jid kv.2 ≠ jid)
              (tbl_messages s);
     tbl_messages_null :=
       filter (λ r : messages.row, messages.chat_jid r ≠ jid)
              (tbl_messages_null s);
     tbl_contacts := tbl_contacts s |}.

(** INSERT OR REPLACE INTO chats (jid, name, avatar_base64,
    last_message_id, last_message_timestamp, last_message_type,
    last_message_from, updated_at): a row with the same [jid] is deleted
    first, which cascades to its messages; the columns that are not listed
    take their defaults. *)
Definition replace_chat (jid : string) (name avatar last_id : option string)
    (ts : option Z) (type : string) (from : option string)
    (s : Store) : outcome unit :=
  let s1 :=
    match tbl_chats s !! jid with
    | Some _ => cascade_chat jid s
    | None => s
    end in
  let r := {| chats.name := name;
              chats.avatar_base64 := avatar;
              chats.last_message_id := last_id;
              chats.last_message_timestamp := ts;
              chats.last_message_type := Some type;
              chats.last_message_from := from;
              chats.unread_count := 0;
              chats.is_archived := false;
              chats.history_baseline_timestamp := None;
              chats.last_sync_timestamp := None;
              chats.history_complete := false |} in
  Done tt {| tbl_chats := <[jid := r]> (tbl_chats s1);
             tbl_messages := tbl_messages s1;
             tbl_messages_null := tbl_messages_null s1;
             tbl_contacts := tbl_contacts s1 |}.

(** UPDATE chats SET ... WHERE jid = ?; the result is [changes > 0]. *)
Definition update_chat (f : chats.row → chats.row) (jid : option string)
    (s : Store) : outcome bool :=
  match jid with
  | Some j =>
      Done (bool_decide (is_Some (tbl_chats s !! j)))
           {| tbl_chats := alter f j (tbl_chats s);
              tbl_messages := tbl_messages s;
              tbl_messages_null := tbl_messages_null s;
              tbl_contacts := tbl_contacts s |}
  | None => Done false s
  end.

(** INSERT OR REPLACE INTO messages (id, chat_jid, from_me, message_type,
    content, timestamp, status, collection_session). [chat_jid] and
    [timestamp] are NOT NULL and [chat_jid] must name a stored chat. *)
Definition replace_message (id chat_jid : option string) (from_me : bool)
    (type : string) (content : string) (ts : option Z) (status : string)
    (session : option string) (s : Store) : outcome unit :=
  match chat_jid, ts with
  | None, _ => Failed "NOT NULL constraint failed: messages.chat_jid"
  | _, None => Failed "NOT NULL constraint failed: messages.timestamp"
  | Some jid, Some t =>
      match tbl_chats s !! jid with
      | None => Failed "FOREIGN KEY constraint failed"
      | Some _ =>
          let r := {| messages.chat_jid := jid;
                      messages.from_me := from_me;
                      messages.message_type := Some type;
                      messages.content := Some content;
                      messages.timestamp := t;
                      messages.status := Some status;
                      messages.collection_session := session |} in
          match id with
          | Some i =>
              Done tt {| tbl_chats := tbl_chats s;
                         tbl_messages := <[i := r]> (tbl_messages s);
                         tbl_messages_null := tbl_messages_null s;
                         tbl_contacts := tbl_contacts s |}
          | None =>
              Done tt {| tbl_chats := tbl_chats s;
                         tbl_messages := tbl_messages s;
                         tbl_messages_null := tbl_messages_null s ++ [r];
                         tbl_contacts := tbl_contacts s |}
          end
      end
  end.

(** UPDATE messages SET status = ? WHERE id = ? *)
Definition update_message_status (id status : string) (s : Store)
    : outcome unit :=
  Done tt {| tbl_chats := tbl_chats s;
             tbl_messages :=
               alter (λ r, {| messages.chat_jid := messages.chat_jid r;
                              messages.from_me := messages.from_me r;
                              messages.message_type := messages.message_type r;
                              messages.content := messages.content r;
                              messages.timestamp := messages.timestamp r;
                              messages.status := Some status;
                              messages.collection_session :=
                                messages.collection_session r |})
                     id (tbl_messages s);
             tbl_messages_null := tbl_messages_null s;
             tbl_contacts := tbl_contacts s |}.

(** DELETE FROM messages WHERE timestamp < ? *)
Definition delete_messages_before (horizon : Z) (s : Store) : outcome unit :=
  Done tt {| tbl_chats := tbl_chats s;
             tbl_messages :=
               filter (λ kv : string * messages.row,
                         ¬ (messages.timestamp kv.2 < horizon)%Z)
                      (tbl_messages s);
             tbl_messages_null :=
               filter (λ r : messages.row,
                         ¬ (messages.timestamp r < horizon)%Z)
                      (tbl_messages_null s);
             tbl_contacts := tbl_contacts s |}.

(** INSERT OR REPLACE INTO contacts (jid, name, phone_number,
    avatar_base64, updated_at) *)
Definition replace_contact (jid : string)
    (name phone avatar : option string) (s : Store) : outcome unit :=
  let r := {| contacts.name := name;
              contacts.phone_number := phone;
              contacts.avatar_base64 := avatar;
              contacts.is_blocked := false |} in
  Done tt {| tbl_chats := tbl_chats s;
             tbl_messages := tbl_messages s;
             tbl_messages_null := tbl_messages_null s;
             tbl_contacts := <[jid := r]> (tbl_contacts s) |}.

(** UPDATE contacts SET ... WHERE jid = ? *)
Definition update_contact (f : contacts.row → contacts.row) (jid : string)
    (s : Store) : outcome bool :=
  Done (bool_decide (is_Some (tbl_contacts s !! jid)))
       {| tbl_chats := tbl_chats s;
          tbl_messages := tbl_messages s;
          tbl_messages_null := tbl_messages_null s;
          tbl_contacts := alter f jid (tbl_contacts s) |}.

(** A SELECT of one row by key. *)
Definition select_chat (jid : string) (s : Store) : outcome (option chats.row) :=
  Done (tbl_chats s !! jid) s.

Definition select_contact (jid : option string) (s : Store)
    : outcome (option contacts.row) :=
  Done (jid ≫= λ j, tbl_contacts s !! j) s.

(** A statement that changes no row (VACUUM). *)
Definition no_change (s : Store) : outcome unit := Done tt s.

End Sql.

(** ** Outward envelopes *)

(** One entry of the conversation list ([chatData]). *)
Record ChatData := {
  cd_jid : string;
  cd_name : string;
  cd_lastMessage : option string;
  cd_timestamp : Js.Number;
  cd_lastMessageType : string;
  cd_lastMessageFrom : option string;
  cd_unreadCount : Z;
  cd_avatarBase64 : option string;
  cd_chatAvatarBase64 : option string;
  cd_phoneNumber : option string;
}.

(** The data of a [newMessage] envelope. *)
Record NewMessageData := {
  nm_id : option string;
  nm_content : option string;
  nm_timestamp : Js.Number;
  nm_type : string;
  nm_from : option string;
  nm_fromMe : bool;
  nm_chatJid : option string;
  nm_contactName : option string;
  nm_avatarBase64 : option string;
  nm_senderName : option string;
}.

Inductive Payload :=
| InitialChats (chats : list ChatData)
| NewMessage (d : NewMessageData)
| ErrorInfo (type message : string).

(** [{ type, data }] as written to the consumer's socket. *)
Record Envelope := {
  env_type : string;
  env_data : Payload;
}.

(** ** Process state and effects *)

Inductive ReadyState := CONNECTING | OPEN | CLOSING | CLOSED.

(** The module-level variables of [backend.js] that the modelled handlers
    touch, the store, the wall clock and the frames written to the consumer
    so far (oldest first). [faults] tells, for the coming database calls in
    turn, whether the engine rejects the call for a reason the tables do not
    determine (I/O error, locked file); past its end no call is rejected
    that way. *)
Record World := {
  db : Store;
  clock : Z;
  faults : list bool;
  clientSocket : option ReadyState;
  initialChatsPayload : option (list ChatData);
  clientIsWaitingForChats : bool;
  sent : list Envelope;
}.

Definition set_db (s : Store) (w : World) : World :=
  {| db := s; clock := clock w; faults := faults w;
     clientSocket := clientSocket w;
     initialChatsPayload := initialChatsPayload w;
     clientIsWaitingForChats := clientIsWaitingForChats w; sent := sent w |}.

Definition set_faults (f : list bool) (w : World) : World :=
  {| db := db w; clock := clock w; faults := f;
     clientSocket := clientSocket w;
     initialChatsPayload := initialChatsPayload w;
     clientIsWaitingForChats := clientIsWaitingForChats w; sent := sent w |}.

Definition set_sent (l : list Envelope) (w : World) : World :=
  {| db := db w; clock := clock w; faults := faults w;
     clientSocket := clientSocket w;
     initialChatsPayload := initialChatsPayload w;
     clientIsWaitingForChats := clientIsWaitingForChats w; sent := l |}.

Definition set_initialChatsPayload (p : option (list ChatData)) (w : World)
    : World :=
  {| db := db w; clock := clock w; faults := faults w;
     clientSocket := clientSocket w;
     initialChatsPayload := p;
     clientIsWaitingForChats := clientIsWaitingForChats w; sent := sent w |}.

Definition set_clientIsWaitingForChats (b : bool) (w : World) : World :=
  {| db := db w; clock := clock w; faults := faults w;
     clientSocket := clientSocket w;
     initialChatsPayload := initialChatsPayload w;
     clientIsWaitingForChats := b; sent := sent w |}.

(** Values that are thrown. [DatabaseError op] stands for what
    [errorHandler.database(error, op)] of [logger.js] returns; a thrown value
    is only ever caught and logged. *)
Inductive Exn :=
| SqliteError (reason : string)
| DatabaseError (operation : string)
| TypeError (what : string)
| RangeError (what : string)
| SyntaxError (what : string).

Inductive Result (A : Type) :=
| Ok (a : A)
| Throw (e : Exn).
Arguments Ok {A} a.
Arguments Throw {A} e.

(** A computation: it ends with a value or a thrown exception, and in both
    cases with the state it has reached (nothing is rolled back). *)
Definition M (A : Type) : Type := World → Result A * World.

Definition ret {A} (a : A) : M A := λ w, (Ok a, w).

Definition bind {A B} (m : M A) (k : A → M B) : M B := λ w,
  match m w with
  | (Ok a, w1) => k a w1
  | (Throw e, w1) => (Throw e, w1)
  end.

Definition throw {A} (e : Exn) : M A := λ w, (Throw e, w).

(** [try { m } catch (error) { h error }] *)
Definition try_catch {A} (m : M A) (h : Exn → M A) : M A := λ w,
  match m w with
  | (Ok a, w1) => (Ok a, w1)
  | (Throw e, w1) => h e w1
  end.

Notation "'let*' x ':=' m 'in' k" := (bind m (λ x, k))
  (at level 10, x name, m at level 100, k at level 200).

#[global] Instance M_bind : MBind M := λ A B k m, bind m k.

(** Reading and writing the module-level variables. *)
Definition gets {A} (f : World → A) : M A := λ w, (Ok (f w), w).

Definition modify (f : World → World) : M unit := λ w, (Ok tt, f w).

(** [Date.now()] *)
Definition Date_now : M Z := λ w, (Ok (clock w), w).

(** [new Date(t).toISOString()], which the source evaluates for its log
    lines: it throws for an invalid date, and its value goes to the log. *)
Definition Date_toISOString (t : Js.Number) : M unit :=
  if Js.valid_time t then ret tt else throw (RangeError "Invalid time value").

(** [this.run], [this.get] and [this.all]: one statement against the
    store, rejected when the engine is at fault or the statement fails. *)
Definition run {A} (stmt : Store → outcome A) : M A := λ w,
  match faults w with
  | true :: rest => (Throw (SqliteError "SQLITE_IOERR"), set_faults rest w)
  | _ =>
      let w1 := set_faults (tail (faults w)) w in
      match stmt (db w1) with
      | Done a s => (Ok a, set_db s w1)
      | Failed reason => (Throw (SqliteError reason), w1)
      end
  end.

(** The [try { ... } catch (error) { throw errorHandler.database(error, op) }]
    around the body of every method of [Database]. *)
Definition db_method {A} (op : string) (body : M A) : M A :=
  try_catch body (λ _, throw (DatabaseError op)).

Module database.

Definition saveChat (jid : string) (name lastMessageId : option string)
    (timestamp : Js.Number) (avatarBase64 : option string)
    (lastMessageType : string) (lastMessageFrom : option string) : M unit :=
  db_method "saveChat"
    (run (Sql.replace_chat jid name avatarBase64 lastMessageId
            (bind_num timestamp) lastMessageType lastMessageFrom)).

Definition updateChatAvatar (jid : string) (avatarBase64 : option string)
    : M bool :=
  db_method "updateChatAvatar"
    (run (Sql.update_chat
            (λ r, {| chats.name := chats.name r;
                     chats.avatar_base64 := avatarBase64;
                     chats.last_message_id := chats.last_message_id r;
                     chats.last_message_timestamp := chats.last_message_timestamp r;
                     chats.last_message_type := chats.last_message_type r;
                     chats.last_message_from := chats.last_message_from r;
                     chats.unread_count := chats.unread_count r;
                     chats.is_archived := chats.is_archived r;
                     chats.history_baseline_timestamp :=
                       chats.history_baseline_timestamp r;
                     chats.last_sync_timestamp := chats.last_sync_timestamp r;
                     chats.history_complete := chats.history_complete r |})
            (Some jid))).

Definition with_baseline (t : option Z) (r : chats.row) : chats.row :=
  {| chats.name := chats.name r;
     chats.avatar_base64 := chats.avatar_base64 r;
     chats.last_message_id := chats.last_message_id r;
     chats.last_message_timestamp := chats.last_message_timestamp r;
     chats.last_message_type := chats.last_message_type r;
     chats.last_message_from := chats.last_message_from r;
     chats.unread_count := chats.unread_count r;
     chats.is_archived := chats.is_archived r;
     chats.history_baseline_timestamp := t;
     chats.last_sync_timestamp := chats.last_sync_timestamp r;
     chats.history_complete := chats.history_complete r |}.

Definition with_last_sync (t : option Z) (r : chats.row) : chats.row :=
  {| chats.name := chats.name r;
     chats.avatar_base64 := chats.avatar_base64 r;
     chats.last_message_id := chats.last_message_id r;
     chats.last_message_timestamp := chats.last_message_timestamp r;
     chats.last_message_type := chats.last_message_type r;
     chats.last_message_from := chats.last_message_from r;
     chats.unread_count := chats.unread_count r;
     chats.is_archived := chats.is_archived r;
     chats.history_baseline_timestamp := chats.history_baseline_timestamp r;
     chats.last_sync_timestamp := t;
     chats.history_complete := chats.history_complete r |}.

(** The SET clause of the UPDATE of [saveMessage]; [name] is
    COALESCE(senderName, name) when a sender name is given. *)
Definition with_last_message (id : option string) (ts : option Z)
    (type : string) (from senderName : option string)
    (r : chats.row) : chats.row :=
  {| chats.name :=
       match senderName with Some n => Some n | None => chats.name r end;
     chats.avatar_base64 := chats.avatar_base64 r;
     chats.last_message_id := id;
     chats.last_message_timestamp := ts;
     chats.last_message_type := Some type;
     chats.last_message_from := from;
     chats.unread_count := chats.unread_count r;
     chats.is_archived := chats.is_archived r;
     chats.history_baseline_timestamp := chats.history_baseline_timestamp r;
     chats.last_sync_timestamp := chats.last_sync_timestamp r;
     chats.history_complete := chats.history_complete r |}.

Definition setChatHistoryBaseline (jid : string) (timestamp : Js.Number)
    : M bool :=
  db_method "setChatHistoryBaseline"
    (run (Sql.update_chat (with_baseline (bind_num timestamp)) (Some jid))).

Definition updateChatSyncTimestamp (jid : string) (timestamp : Js.Number)
    : M bool :=
  db_method "updateChatSyncTimestamp"
    (run (Sql.update_chat (with_last_sync (bind_num timestamp)) (Some jid))).

(** The source selects the columns [jid], [history_baseline_timestamp],
    [last_sync_timestamp] and [history_complete] of the row; the result here
    is the row itself, of which the callers read these columns only. *)
Definition getChatHistoryInfo (jid : string) : M (option chats.row) :=
  db_method "getChatHistoryInfo" (run (Sql.select_chat jid)).

Definition saveContact (jid : string) (name phoneNumber avatarBase64 : option string)
    : M unit :=
  db_method "saveContact"
    (run (Sql.replace_contact jid name phoneNumber avatarBase64)).

Definition getContact (jid : option string) : M (option contacts.row) :=
  db_method "getContact" (run (Sql.select_contact jid)).

Definition updateContactAvatar (jid : string) (avatarBase64 : option string)
    : M bool :=
  db_method "updateContactAvatar"
    (run (Sql.update_contact
            (λ r, {| contacts.name := contacts.name r;
                     contacts.phone_number := contacts.phone_number r;
                     contacts.avatar_base64 := avatarBase64;
                     contacts.is_blocked := contacts.is_blocked r |}) jid)).

Definition updateContactName (jid : string) (name : option string) : M bool :=
  db_method "updateContactName"
    (run (Sql.update_contact
            (λ r, {| contacts.name := name;
                     contacts.phone_number := contacts.phone_number r;
                     contacts.avatar_base64 := contacts.avatar_base64 r;
                     contacts.is_blocked := contacts.is_blocked r |}) jid)).

Definition saveMessage (id chatJid : option string) (fromMe : bool)
    (content : string) (timestamp : Js.Number) (messageType status : string)
    (senderName collectionSession : option string) : M unit :=
  db_method "saveMessage"
    (run (Sql.replace_message id chatJid fromMe messageType content
            (bind_num timestamp) status collectionSession);;
     (if negb fromMe && Js.truthy_str senderName
      then match chatJid with
           | Some jid => saveContact jid senderName None None
           | None => ret tt
           end
      else ret tt);;
     let lastMessageFrom :=
       if fromMe then Some "me" else chatJid in
     run (Sql.update_chat
            (with_last_message id (bind_num timestamp) messageType
               lastMessageFrom
               (if Js.truthy_str senderName && negb fromMe
                then senderName else None))
            chatJid);;
     ret tt).

Definition updateMessageStatus (messageId status : string) : M unit :=
  db_method "updateMessageStatus"
    (run (Sql.update_message_status messageId status)).

(** Six months of thirty days, in milliseconds. *)
Definition retention : Z := 6 * 30 * 24 * 60 * 60 * 1000.

Definition cleanup : M unit :=
  db_method "cleanup"
    (let* now := Date_now in
     let sixMonthsAgo := (now - retention)%Z in
     run (Sql.delete_messages_before sixMonthsAgo);;
     run Sql.no_change).

End database.

(** ** [backend.js] *)

(** One conversation of a bulk-history delivery. *)
Record Chat := {
  chat_id : string;
  chat_name : option string;
  chat_messages : list RawMessage;
  chat_unreadCount : option Z;
}.

(** The argument of the [messaging-history.set] event. *)
Record HistoryItem := {
  item_chats : option (list Chat);
  item_isLatest : bool;
}.

(** The argument of the [messages.upsert] event. *)
Record UpsertEvent := {
  upsert_messages : list RawMessage;
  upsert_type : string;
}.

Definition sendToFrontend (type : string) (data : Payload) : M unit := λ w,
  match clientSocket w with
  | Some OPEN =>
      (Ok tt, set_sent (sent w ++ [{| env_type := type; env_data := data |}]) w)
  | _ => (Ok tt, w)
  end.

(** The body of the loop of [saveMessagesFromHistory], with its
    [try]/[catch]: one message is saved, or skipped when it has no id or
    when the write throws. The counters are [savedMessageCount], which the
    source returns at the end, and [skippedMessageCount], which it logs. *)
Definition saveHistoryMessage (chat : Chat) (collectionSession : string)
    (msg : RawMessage) (saved skipped : nat) : M (nat * nat) :=
  try_catch
    (let* now := Date_now in
     let messageContent := getDisplayMessage msg in
     let messageType := getMessageType msg in
     let messageKey := getMessageKey msg in
     let timestamp := getMessageTimestamp now msg in
     match messageKey with
     | Some key =>
         if Js.truthy_str (key_id key) then
           database.saveMessage
             (key_id key) (Some (chat_id chat)) (key_fromMe key)
             (Js.or_str messageContent "[Message content unavailable]")
             timestamp messageType
             (if key_fromMe key then "sent" else "received")
             (Some (Js.or_str
                      (Js.or_opt (msg_pushName msg)
                         (Js.or_opt (msg_participant msg) (chat_name chat)))
                      "Unknown"))
             (Some collectionSession);;
           ret (S saved, skipped)
         else ret (saved, S skipped)
     | None => ret (saved, S skipped)
     end)
    (λ _, ret (saved, S skipped)).

Fixpoint saveMessagesFromHistory_loop (chat : Chat) (msgs : list RawMessage)
    (collectionSession : string) (saved skipped : nat) : M (nat * nat) :=
  match msgs with
  | [] => ret (saved, skipped)
  | msg :: rest =>
      let* counts := saveHistoryMessage chat collectionSession msg saved skipped in
      saveMessagesFromHistory_loop chat rest collectionSession
        (fst counts) (snd counts)
  end.

Definition saveMessagesFromHistory (chat : Chat) (collectionSession : string)
    : M (nat * nat) :=
  saveMessagesFromHistory_loop chat (chat_messages chat) collectionSession 0 0.

(** What the body of the loop of [handleHistorySet] computes before it
    writes ([lastMessage] and [chatData]); [lastMessage.key.fromMe] throws
    when the first message has no top-level key. *)
Definition historyChatData (now : Z) (chat : Chat) : Result ChatData :=
  let lastMessage := head (chat_messages chat) in
  let lastMessageType :=
    match lastMessage with Some m => getMessageType m | None => "text" end in
  let lastMessageContent :=
    match lastMessage with Some m => getDisplayMessage m | None => None end in
  let lastMessageTimestamp :=
    match lastMessage with
    | Some m => getMessageTimestamp now m
    | None => Js.Num now
    end in
  let finish (lastMessageFrom : option string) :=
    Ok {| cd_jid := chat_id chat;
          cd_name := Js.or_str (chat_name chat) (chat_id chat);
          cd_lastMessage :=
            formatLastMessageContent lastMessageContent lastMessageType;
          cd_timestamp := lastMessageTimestamp;
          cd_lastMessageType := lastMessageType;
          cd_lastMessageFrom := lastMessageFrom;
          cd_unreadCount := default 0%Z (chat_unreadCount chat);
          cd_avatarBase64 := None;
          cd_chatAvatarBase64 := None;
          cd_phoneNumber := None |} in
  match lastMessage with
  | Some m =>
      match msg_key m with
      | Some key => finish (Some (if key_fromMe key then "me" else chat_id chat))
      | None => Throw (TypeError "lastMessage.key is undefined")
      end
  | None => finish None
  end.

(** [isNewChat]: no row, or a baseline that is NULL or 0. *)
Definition isNewChat (historyInfo : option chats.row) : bool :=
  match historyInfo with
  | None => true
  | Some r => negb (Js.truthy_num (chats.history_baseline_timestamp r))
  end.

(** [historyInfo.last_sync_timestamp || historyInfo.history_baseline_timestamp] *)
Definition lastSyncTime (r : chats.row) : option Z :=
  if Js.truthy_num (chats.last_sync_timestamp r)
  then chats.last_sync_timestamp r
  else chats.history_baseline_timestamp r.

Definition null_num (n : option Z) : Js.Number :=
  match n with
  | Some z => Js.Num z
  | None => Js.Num 0
  end.

(** The messages of a known conversation that pass the filter
    [getMessageTimestamp(msg) > lastSyncTime]. *)
Definition newMessages (now : Z) (lastSync : option Z) (msgs : list RawMessage)
    : list RawMessage :=
  List.filter (λ msg, Js.gt (getMessageTimestamp now msg) (null_num lastSync))
              msgs.

Definition with_messages (msgs : list RawMessage) (chat : Chat) : Chat :=
  {| chat_id := chat_id chat; chat_name := chat_name chat;
     chat_messages := msgs; chat_unreadCount := chat_unreadCount chat |}.

(** "Save/update chat in database" and "Save contact information if
    available". *)
Definition saveHistoryChat (chat : Chat) (chatData : ChatData) : M unit :=
  database.saveChat (cd_jid chatData) (Some (cd_name chatData))
    (match head (chat_messages chat) with
     | Some lastMessage =>
         match msg_key lastMessage with
         | Some key => key_id key
         | None => None
         end
     | None => None
     end)
    (cd_timestamp chatData) None (cd_lastMessageType chatData)
    (cd_lastMessageFrom chatData);;
  if Js.truthy_str (chat_name chat)
     && negb (bool_decide (chat_name chat = Some (chat_id chat)))
  then database.saveContact (chat_id chat) (chat_name chat) None None
  else ret tt.

(** "NEW CHAT: Set baseline and save all messages". *)
Definition saveInitialHistory (currentTime : Z) (chat : Chat) : M unit :=
  match last (chat_messages chat) with
  | Some oldestMessage =>
      let* now := Date_now in
      let baselineTimestamp := getMessageTimestamp now oldestMessage in
      database.setChatHistoryBaseline (chat_id chat) baselineTimestamp;;
      Date_toISOString baselineTimestamp;;
      saveMessagesFromHistory chat ("initial-sync-" +:+ pretty currentTime);;
      ret tt
  | None => ret tt
  end.

(** "EXISTING CHAT: Only save messages newer than last sync". *)
Definition saveProgressiveHistory (currentTime : Z) (chat : Chat)
    (historyInfo : option chats.row) : M unit :=
  let* now := Date_now in
  let lastSync := historyInfo ≫= lastSyncTime in
  match newMessages now lastSync (chat_messages chat) with
  | [] => ret tt
  | fresh =>
      Date_toISOString (null_num lastSync);;
      saveMessagesFromHistory (with_messages fresh chat)
        ("progressive-sync-" +:+ pretty currentTime);;
      ret tt
  end.

(** The writes of the body of the loop of [handleHistorySet], from
    [database.saveChat] to [database.updateChatSyncTimestamp]. *)
Definition reconcileChat (currentTime : Z) (chat : Chat)
    (historyInfo : option chats.row) (chatData : ChatData) : M unit :=
  saveHistoryChat chat chatData;;
  (if isNewChat historyInfo
   then saveInitialHistory currentTime chat
   else saveProgressiveHistory currentTime chat historyInfo);;
  database.updateChatSyncTimestamp (chat_id chat) (Js.Num currentTime);;
  ret tt.

(** One turn of the loop of [handleHistorySet], with its [try]/[catch];
    [acc] is the local array [chats]. *)
Definition processHistoryChat (currentTime : Z) (chat : Chat)
    (acc : list ChatData) : M (list ChatData) :=
  try_catch
    (let* historyInfo := database.getChatHistoryInfo (chat_id chat) in
     let* now := Date_now in
     match historyChatData now chat with
     | Throw e => throw e
     | Ok chatData =>
         try_catch
           (reconcileChat currentTime chat historyInfo chatData;;
            ret (acc ++ [chatData]))
           (λ _, ret (acc ++ [chatData]))
     end)
    (λ _, ret acc).

Fixpoint handleHistorySet_loop (currentTime : Z) (chats : list Chat)
    (acc : list ChatData) : M (list ChatData) :=
  match chats with
  | [] => ret acc
  | chat :: rest =>
      let* acc1 := processHistoryChat currentTime chat acc in
      handleHistorySet_loop currentTime rest acc1
  end.

Definition handleHistorySet (item : HistoryItem) : M unit :=
  try_catch
    (let* currentTime := Date_now in
     match item_chats item with
     | None => throw (TypeError "item.chats is not iterable")
     | Some cs =>
         let* chats := handleHistorySet_loop currentTime cs [] in
         modify (set_initialChatsPayload (Some chats));;
         let* waiting := gets clientIsWaitingForChats in
         if waiting then
           sendToFrontend "initial_chats" (InitialChats chats);;
           modify (set_clientIsWaitingForChats false)
         else ret tt
     end)
    (λ _, ret tt).

(** [handleMessagesUpsert]: only the first message of the event is looked
    at, and only when it is inbound, notified and has a display text. *)
Definition handleMessagesUpsert (m : UpsertEvent) : M unit :=
  try_catch
    (match head (upsert_messages m) with
     | None => throw (TypeError "msg is undefined")
     | Some msg =>
         match msg_key msg with
         | None => throw (TypeError "msg.key is undefined")
         | Some key =>
             if negb (key_fromMe key) && String.eqb (upsert_type m) "notify"
             then
               let messageContent := getDisplayMessage msg in
               if Js.truthy_str messageContent then
                 let contactName :=
                   Js.or_null (Js.or_opt (msg_pushName msg) (msg_notify msg)) in
                 let jid := key_remoteJid key in
                 let timestamp :=
                   Js.mul (timestamp_to_number (msg_messageTimestamp msg))
                          (Js.Num 1000) in
                 database.saveMessage (key_id key) jid false
                   (default "" messageContent) timestamp "text" "received"
                   contactName (Some "real-time");;
                 let* contact := database.getContact jid in
                 let messageType := getMessageType msg in
                 sendToFrontend "newMessage"
                   (NewMessage
                      {| nm_id := key_id key;
                         nm_content := messageContent;
                         nm_timestamp := timestamp;
                         nm_type := messageType;
                         nm_from := if key_fromMe key then Some "me" else jid;
                         nm_fromMe := key_fromMe key;
                         nm_chatJid := jid;
                         nm_contactName := contactName;
                         nm_avatarBase64 := contact ≫= contacts.avatar_base64;
                         nm_senderName := contactName |})
               else ret tt
             else ret tt
         end
     end)
    (λ _, ret tt).

(** ** Consumer commands *)

(** The handlers of the recognised commands, which talk to the protocol
    client, and [errorHandler.websocket] of [logger.js] are left open, and
    so is the type of the [data] member of a command. *)
Record Handlers (Data : Type) := {
  handleGetInitialChats : M unit;
  handleSendMessage : Data → M unit;
  handleGetMessageHistory : Data → M unit;
  handleTypingStart : Data → M unit;
  handleTypingStop : Data → M unit;
  handleHealthCheck : M unit;
  handleSyncContacts : M unit;
  handleGetContactInfo : Data → M unit;
  websocketError : Exn → Payload;
}.
Arguments handleGetInitialChats {Data} _.
Arguments handleSendMessage {Data} _ _.
Arguments handleGetMessageHistory {Data} _ _.
Arguments handleTypingStart {Data} _ _.
Arguments handleTypingStop {Data} _ _.
Arguments handleHealthCheck {Data} _.
Arguments handleSyncContacts {Data} _.
Arguments handleGetContactInfo {Data} _ _.
Arguments websocketError {Data} _ _.

(** A parsed command; [cmd_type] is [None] when the member is missing. *)
Record Command (Data : Type) := {
  cmd_type : option string;
  cmd_data : Data;
}.
Arguments cmd_type {Data} _.
Arguments cmd_data {Data} _.

Definition recognized_commands : list string :=
  ["get_initial_chats"; "send_message"; "get_message_history";
   "typing_start"; "typing_stop"; "health_check"; "sync_contacts";
   "get_contact_info"].

Definition recognized (type : option string) : bool :=
  match type with
  | Some t => bool_decide (t ∈ recognized_commands)
  | None => false
  end.

(** [`${type}`] *)
Definition template (type : option string) : string :=
  default "undefined" type.

Definition handleFrontendCommand {Data} (h : Handlers Data)
    (parsedMessage : Command Data) : M unit :=
  let type := cmd_type parsedMessage in
  let data := cmd_data parsedMessage in
  let case (t : string) := bool_decide (type = Some t) in
  if case "get_initial_chats" then handleGetInitialChats h
  else if case "send_message" then handleSendMessage h data
  else if case "get_message_history" then handleGetMessageHistory h data
  else if case "typing_start" then handleTypingStart h data
  else if case "typing_stop" then handleTypingStop h data
  else if case "health_check" then handleHealthCheck h
  else if case "sync_contacts" then handleSyncContacts h
  else if case "get_contact_info" then handleGetContactInfo h data
  else sendToFrontend "error"
         (ErrorInfo "unknown_command"
            ("Unknown command: " +:+ template type)).

(** The [message] listener that [handleWebSocketConnection] installs;
    [None] is a frame that [JSON.parse] rejects. *)
Definition onClientMessage {Data} (h : Handlers Data)
    (message : option (Command Data)) : M unit :=
  try_catch
    (match message with
     | Some parsedMessage => handleFrontendCommand h parsedMessage
     | None => throw (SyntaxError "JSON.parse")
     end)
    (λ error, sendToFrontend "error" (websocketError h error)).

(** ** Reference values of the specification *)

Module Reference.

Definition is_decimal_digit (c : ascii) : bool :=
  let n := nat_of_ascii c in (48 <=? n)%nat && (n <=? 57)%nat.

(** A numeric string: one decimal digit or more, and nothing else. *)
Fixpoint all_decimal (s : string) : bool :=
  match s with
  | String c r => is_decimal_digit c && all_decimal r
  | EmptyString => true
  end.

Definition numeric_string (s : string) : bool :=
  match s with
  | String _ _ => all_decimal s
  | EmptyString => false
  end.

(** The integer a numeric string denotes, digit by digit with its weight. *)
Fixpoint integer_value (s : string) : Z :=
  match s with
  | String c r =>
      (Z.of_nat (nat_of_ascii c) - 48) * 10 ^ Z.of_nat (String.length r)
      + integer_value r
  | EmptyString => 0
  end.

(** Epoch milliseconds of an upstream timestamp, computed by hand: seconds
    times 1000, the two words of a split value read as unsigned 32-bit
    numbers. *)
Definition epoch_ms (t : Timestamp) : Z :=
  match t with
  | TsNumber n => n * 1000
  | TsString s => integer_value s * 1000
  | TsLong low high _ => ((high mod 2 ^ 32) * 2 ^ 32 + low mod 2 ^ 32) * 1000
  end.

(** The values the three formats range over: a number other than 0 (a
    falsy timestamp counts as missing), a numeric string, any pair of
    words. *)
Definition present (t : Timestamp) : Prop :=
  match t with
  | TsNumber n => n ≠ 0%Z
  | TsString s => numeric_string s = true
  | TsLong _ _ _ => True
  end.

(** Minimum of the normalised timestamps of a list of messages. *)
Definition min_timestamp (now : Z) (msgs : list RawMessage) : option Z :=
  foldr (λ msg acc,
           match bind_num (getMessageTimestamp now msg), acc with
           | Some t, Some a => Some (Z.min t a)
           | Some t, None => Some t
           | None, _ => acc
           end) None msgs.

(** No delivered message is older than the last one of the list, as in a
    list that is ordered most recent first. *)
Definition oldest_last (now : Z) (msgs : list RawMessage) : Prop :=
  ∀ oldest, last msgs = Some oldest →
    ∃ t, getMessageTimestamp now oldest = Js.Num t
         ∧ ∀ msg, msg ∈ msgs →
             ∃ t', getMessageTimestamp now msg = Js.Num t' ∧ (t <= t')%Z.

End Reference.

(** ** Sample data *)

Module Sample.

Definition no_content : MessageObj :=
  {| conversation := None; extendedTextMessage := None;
     imageMessage := None; videoMessage := None; audioMessage := false;
     documentMessage := None; stickerMessage := false;
     locationMessage := false; liveLocationMessage := false;
     contactMessage := false; contactsArrayMessage := false;
     groupInviteMessage := false; buttonsMessage := false;
     templateMessage := false; listMessage := false;
     reactionMessage := false; pollCreationMessage := false;
     pollUpdateMessage := false |}.

Definition text_content (text : string) : MessageObj :=
  {| conversation := Some text; extendedTextMessage := None;
     imageMessage := None; videoMessage := None; audioMessage := false;
     documentMessage := None; stickerMessage := false;
     locationMessage := false; liveLocationMessage := false;
     contactMessage := false; contactsArrayMessage := false;
     groupInviteMessage := false; buttonsMessage := false;
     templateMessage := false; listMessage := false;
     reactionMessage := false; pollCreationMessage := false;
     pollUpdateMessage := false |}.

Definition image_content : MessageObj :=
  {| conversation := None; extendedTextMessage := None;
     imageMessage := Some None; videoMessage := None; audioMessage := false;
     documentMessage := None; stickerMessage := false;
     locationMessage := false; liveLocationMessage := false;
     contactMessage := false; contactsArrayMessage := false;
     groupInviteMessage := false; buttonsMessage := false;
     templateMessage := false; listMessage := false;
     reactionMessage := false; pollCreationMessage := false;
     pollUpdateMessage := false |}.

(** A flat message [{ key: { id, fromMe, remoteJid }, messageTimestamp,
    message: content }]. *)
Definition message (jid id : string) (fromMe : bool) (ts : option Timestamp)
    (content : MessageObj) : RawMessage :=
  {| msg_key := Some {| key_id := Some id; key_fromMe := fromMe;
                        key_remoteJid := Some jid |};
     msg_messageTimestamp := ts;
     msg_message := Some {| body_message := None;
                            body_messageTimestamp := None;
                            body_key := None;
                            body_fields := content |};
     msg_pushName := None; msg_participant := None; msg_notify := None |}.

(** An inbound text message with a timestamp in seconds. *)
Definition text (jid id : string) (seconds : Z) (body : string) : RawMessage :=
  message jid id false (Some (TsNumber seconds)) (text_content body).

(** A history message that carries its key one level down only, so that
    [msg.key] is undefined. *)
Definition nested (jid id : string) (seconds : Z) (body : string) : RawMessage :=
  {| msg_key := None;
     msg_messageTimestamp := None;
     msg_message :=
       Some {| body_message := Some (text_content body);
               body_messageTimestamp := Some (TsNumber seconds);
               body_key := Some {| key_id := Some id; key_fromMe := false;
                                   key_remoteJid := Some jid |};
               body_fields := no_content |};
     msg_pushName := None; msg_participant := None; msg_notify := None |}.

(** An inbound text message whose timestamp is a string that is no number. *)
Definition undated (jid id body : string) : RawMessage :=
  message jid id false (Some (TsString "n/a")) (text_content body).

Definition chat (jid : string) (msgs : list RawMessage) : Chat :=
  {| chat_id := jid; chat_name := None; chat_messages := msgs;
     chat_unreadCount := None |}.

Definition delivery (chats : list Chat) : HistoryItem :=
  {| item_chats := Some chats; item_isLatest := true |}.

(** A process on the store [s] at time [now], with a connected consumer
    and no fault to come. *)
Definition world (s : Store) (now : Z) : World :=
  {| db := s; clock := now; faults := [];
     clientSocket := Some OPEN; initialChatsPayload := None;
     clientIsWaitingForChats := false; sent := [] |}.

(** The store after the handler [h] has run on [s] at time [now]. *)
Definition after {A} (h : M A) (s : Store) (now : Z) : Store :=
  db (snd (h (world s now))).

End Sample.

(** ** Observations on the store and relations between states *)

(** The two sync cursors of a conversation. *)
Definition baseline (s : Store) (jid : string) : option Z :=
  tbl_chats s !! jid ≫= chats.history_baseline_timestamp.

Definition last_sync (s : Store) (jid : string) : option Z :=
  tbl_chats s !! jid ≫= chats.last_sync_timestamp.

(** The message [id] is stored for the conversation [jid] with the
    provenance tag [session]. *)
Definition stored (s : Store) (jid session id : string) : Prop :=
  ∃ r, tbl_messages s !! id = Some r
       ∧ messages.chat_jid r = jid
       ∧ messages.collection_session r = Some session.

(** The message [id] is stored for the conversation [jid]. *)
Definition stored_for (s : Store) (jid id : string) : Prop :=
  ∃ r, tbl_messages s !! id = Some r ∧ messages.chat_jid r = jid.

(** [m] takes every state to one related to it by [R], whether it returns
    or throws. *)
Definition keeps (R : relation World) {A} (m : M A) : Prop :=
  ∀ w, R w (snd (m w)).

(** [m] returns from every state. *)
Definition total {A} (m : M A) : Prop :=
  ∀ w, ∃ a, fst (m w) = Ok a.

(** A relation between stores, read on states. *)
Definition on_db (R : relation Store) : relation World :=
  λ w w', R (db w) (db w').

(** The clock reads the same, and no engine fault is pending afterwards if
    none was before. *)
Definition fault_free : relation World :=
  λ w w', clock w' = clock w ∧ (faults w = [] → faults w' = []).

(** The row of the message [id] is the same, or gone. *)
Definition same_or_gone (id : string) : relation Store :=
  λ s s', tbl_messages s' !! id = None
          ∨ tbl_messages s' !! id = tbl_messages s !! id.

(** The message carries the id [i] under which it is saved. *)
Definition has_id (msg : RawMessage) (i : string) : Prop :=
  ∃ key, getMessageKey msg = Some key ∧ key_id key = Some i
         ∧ Js.truthy_str (Some i) = true.

(** The timestamp of the message normalises to a number. *)
Definition has_timestamp (now : Z) (msg : RawMessage) : Prop :=
  ∃ t, getMessageTimestamp now msg = Js.Num t.

(** The id under which a message is saved, if it has one. *)
Definition saved_id (msg : RawMessage) : option string :=
  match getMessageKey msg with
  | Some key => if Js.truthy_str (key_id key) then key_id key else None
  | None => None
  end.

(** The ids under which the messages of a list are saved. *)
Definition message_ids (msgs : list RawMessage) : list string :=
  omap saved_id msgs.

(** [m] returns when no engine fault is pending. *)
Definition succeeds {A} (m : M A) : Prop :=
  ∀ w, faults w = [] → ∃ a, fst (m w) = Ok a.

(** The messages are the same and so is the baseline cursor of [jid]. *)
Definition cursor_moved (jid : string) : relation Store :=
  λ s s', tbl_messages s' = tbl_messages s ∧ baseline s' jid = baseline s jid.

(** What saving history messages of the conversation [jid] under the tag
    [session] may do: it leaves the other conversations and both cursors
    alone, removes nothing, and writes only rows for [jid] with that tag,
    under the ids [ids]. *)
Definition saves_messages (jid session : string) (ids : list string)
    : relation Store :=
  λ s s',
    (∀ j, j ≠ jid → tbl_chats s' !! j = tbl_chats s !! j)
    ∧ (∀ j, is_Some (tbl_chats s !! j) → is_Some (tbl_chats s' !! j))
    ∧ baseline s' jid = baseline s jid
    ∧ last_sync s' jid = last_sync s jid
    ∧ (∀ i, i ∉ ids → tbl_messages s' !! i = tbl_messages s !! i)
    ∧ (∀ i, stored s jid session i → stored s' jid session i).

(** What one turn of the reconciler for the conversation [jid], whose
    delivered messages have the ids [ids], may do to the rest of the store:
    the other conversations are left alone, and so are the messages of other
    conversations stored under other ids. *)
Definition turn_effects (jid : string) (ids : list string) : relation Store :=
  λ s s',
    (∀ j, j ≠ jid → tbl_chats s' !! j = tbl_chats s !! j)
    ∧ (∀ j, is_Some (tbl_chats s !! j) → is_Some (tbl_chats s' !! j))
    ∧ (∀ i r, tbl_messages s !! i = Some r → messages.chat_jid r ≠ jid →
              i ∉ ids → tbl_messages s' !! i = Some r)
    ∧ (∀ i, i ∉ ids → same_or_gone i s s').

(** The conversation [jid] keeps its row, and the messages stored for it
    under ids other than [ids] keep theirs. *)
Definition others_kept (jid : string) (ids : list string) : relation Store :=
  λ s s',
    tbl_chats s' !! jid = tbl_chats s !! jid
    ∧ (∀ i r, tbl_messages s !! i = Some r → messages.chat_jid r = jid →
              i ∉ ids → tbl_messages s' !! i = Some r).

(** The message rows under ids other than [ids] are as before, or gone. *)
Definition rest_kept (ids : list string) : relation Store :=
  λ s s', ∀ i, i ∉ ids → same_or_gone i s s'.

(** The ids under which the messages of a list of conversations are saved. *)
Definition delivery_ids (chats : list Chat) : list string :=
  chats ≫= λ chat, message_ids (chat_messages chat).

(** The turn of the conversation [chat] runs from [w] to its end, in [w'],
    without throwing. *)
Definition completes (currentTime : Z) (chat : Chat) (w w' : World) : Prop :=
  ∃ historyInfo w1 chatData,
    database.getChatHistoryInfo (chat_id chat) w = (Ok historyInfo, w1)
    ∧ historyChatData (clock w1) chat = Ok chatData
    ∧ reconcileChat currentTime chat historyInfo chatData w1 = (Ok tt, w').

(** The consumer's socket and the frames written to it are the same. *)
Definition quiet : relation World :=
  λ w w', clientSocket w' = clientSocket w ∧ sent w' = sent w.

(** The methods of [Database] that write to the tables of the model, with
    their arguments ([saveMedia] and [setSetting] write to the other two
    tables). *)
Inductive Write :=
| SaveChat (jid : string) (name lastMessageId : option string)
    (timestamp : Js.Number) (avatarBase64 : option string)
    (lastMessageType : string) (lastMessageFrom : option string)
| UpdateChatAvatar (jid : string) (avatarBase64 : option string)
| SetChatHistoryBaseline (jid : string) (timestamp : Js.Number)
| UpdateChatSyncTimestamp (jid : string) (timestamp : Js.Number)
| SaveMessage (id chatJid : option string) (fromMe : bool) (content : string)
    (timestamp : Js.Number) (messageType status : string)
    (senderName collectionSession : option string)
| UpdateMessageStatus (messageId status : string)
| SaveContact (jid : string) (name phoneNumber avatarBase64 : option string)
| UpdateContactAvatar (jid : string) (avatarBase64 : option string)
| UpdateContactName (jid : string) (name : option string)
| Cleanup.

Definition perform (c : Write) : M unit :=
  match c with
  | SaveChat jid name lastMessageId timestamp avatarBase64 lastMessageType
      lastMessageFrom =>
      database.saveChat jid name lastMessageId timestamp avatarBase64
        lastMessageType lastMessageFrom
  | UpdateChatAvatar jid avatarBase64 =>
      database.updateChatAvatar jid avatarBase64;; ret tt
  | SetChatHistoryBaseline jid timestamp =>
      database.setChatHistoryBaseline jid timestamp;; ret tt
  | UpdateChatSyncTimestamp jid timestamp =>
      database.updateChatSyncTimestamp jid timestamp;; ret tt
  | SaveMessage id chatJid fromMe content timestamp messageType status
      senderName collectionSession =>
      database.saveMessage id chatJid fromMe content timestamp messageType
        status senderName collectionSession
  | UpdateMessageStatus messageId status =>
      database.updateMessageStatus messageId status
  | SaveContact jid name phoneNumber avatarBase64 =>
      database.saveContact jid name phoneNumber avatarBase64
  | UpdateContactAvatar jid avatarBase64 =>
      database.updateContactAvatar jid avatarBase64;; ret tt
  | UpdateContactName jid name =>
      database.updateContactName jid name;; ret tt
  | Cleanup => database.cleanup
  end.

(** The two methods after which a message row may be missing. *)
Definition may_remove_messages (c : Write) : bool :=
  match c with
  | SaveChat _ _ _ _ _ _ _ | Cleanup => true
  | _ => false
  end.

(** Every stored conversation and contact stays stored, and every stored
    message too when [messages_too] is set. *)
Definition rows_kept (messages_too : bool) : relation Store :=
  λ s s',
    (∀ j, is_Some (tbl_chats s !! j) → is_Some (tbl_chats s' !! j))
    ∧ (∀ j, is_Some (tbl_contacts s !! j) → is_Some (tbl_contacts s' !! j))
    ∧ (messages_too = true →
       ∀ i, is_Some (tbl_messages s !! i) → is_Some (tbl_messages s' !! i)).

(** ** Queries ([database.js], the SELECT statements) *)

(** A row of [getChats] and [getChatWithContact]: the columns of the chat
    ([c.*]) and the columns joined from its last message and from its
    contact, under their aliases. *)
Module chat_list.
Record row := {
  jid : string;
  chat : chats.row;
  last_message_content : option string;
  last_message_type_from_message : option string;
  last_message_from_me : option bool;
  contact_name : option string;
  contact_avatar_base64 : option string;
  contact_phone_number : option string;
}.
End chat_list.

(** A row of [getMessages]: the columns of the message ([m.*]) and the
    columns joined from the contact of its conversation. *)
Module message_list.
Record row := {
  id : option string;
  message : messages.row;
  sender_name : option string;
  sender_avatar_base64 : option string;
}.
End message_list.

Module Query.

(** The order of the engine on a nullable INTEGER column: NULL comes before
    every number. *)
Definition null_le (a b : option Z) : Prop :=
  match a, b with
  | None, _ => True
  | Some _, None => False
  | Some x, Some y => (x <= y)%Z
  end.

#[global] Instance null_le_dec a b : Decision (null_le a b).
Proof. destruct a, b; simpl; apply _. Defined.

(** ORDER BY key DESC: no row is followed by one with a greater key. *)
Definition newest_first {A} (key : A → option Z) : relation A :=
  λ x y, null_le (key y) (key x).

#[global] Instance newest_first_dec {A} (key : A → option Z) x y :
  Decision (newest_first key x y).
Proof. unfold newest_first. apply _. Defined.

(** The rows in the order of ORDER BY key DESC. Which of two rows with the
    same key comes first is the choice of the engine; here it is the one
    that the enumeration of the table yields first. *)
Definition order_by_desc {A} (key : A → option Z) (rows : list A) : list A :=
  merge_sort (newest_first key) rows.

(** LIMIT ? OFFSET ?: a negative limit is no limit, a negative offset is 0. *)
Definition limit_offset {A} (limit offset : Z) (rows : list A) : list A :=
  let rest := drop (Z.to_nat offset) rows in
  if (limit <? 0)%Z then rest else take (Z.to_nat limit) rest.

(** FROM chats c LEFT JOIN messages m ON c.last_message_id = m.id
    LEFT JOIN contacts cont ON c.jid = cont.jid, for one row of [chats]. *)
Definition join_chat (s : Store) (jid : string) (c : chats.row)
    : chat_list.row :=
  let m := chats.last_message_id c ≫= λ i, tbl_messages s !! i in
  let cont := tbl_contacts s !! jid in
  {| chat_list.jid := jid;
     chat_list.chat := c;
     chat_list.last_message_content := m ≫= messages.content;
     chat_list.last_message_type_from_message := m ≫= messages.message_type;
     chat_list.last_message_from_me := messages.from_me <$> m;
     chat_list.contact_name := cont ≫= contacts.name;
     chat_list.contact_avatar_base64 := cont ≫= contacts.avatar_base64;
     chat_list.contact_phone_number := cont ≫= contacts.phone_number |}.

(** The rows of [chats] that are not archived, joined. *)
Definition open_chats (s : Store) : list chat_list.row :=
  (λ kv : string * chats.row, join_chat s kv.1 kv.2)
  <$> filter (λ kv : string * chats.row, chats.is_archived kv.2 = false)
             (map_to_list (tbl_chats s)).

(** SELECT ... WHERE c.is_archived = FALSE
    ORDER BY c.last_message_timestamp DESC LIMIT ? *)
Definition select_chats (limit : Z) (s : Store)
    : outcome (list chat_list.row) :=
  Done (limit_offset limit 0
          (order_by_desc (chats.last_message_timestamp ∘ chat_list.chat)
             (open_chats s)))
       s.

(** SELECT ... WHERE c.jid = ? *)
Definition select_chat_with_contact (jid : string) (s : Store)
    : outcome (option chat_list.row) :=
  Done (join_chat s jid <$> tbl_chats s !! jid) s.

(** The rows of [messages] with their keys, those with a NULL key last. *)
Definition all_messages (s : Store) : list (option string * messages.row) :=
  ((λ kv : string * messages.row, (Some kv.1, kv.2))
   <$> map_to_list (tbl_messages s))
  ++ ((λ r, (None, r)) <$> tbl_messages_null s).

(** The rows of [messages] of one conversation. *)
Definition messages_of (chatJid : string) (s : Store)
    : list (option string * messages.row) :=
  filter (λ kv : option string * messages.row, messages.chat_jid kv.2 = chatJid)
         (all_messages s).

(** FROM messages m LEFT JOIN contacts cont ON m.chat_jid = cont.jid *)
Definition join_message (s : Store) (kv : option string * messages.row)
    : message_list.row :=
  let cont := tbl_contacts s !! messages.chat_jid kv.2 in
  {| message_list.id := kv.1;
     message_list.message := kv.2;
     message_list.sender_name := cont ≫= contacts.name;
     message_list.sender_avatar_base64 := cont ≫= contacts.avatar_base64 |}.

Definition message_timestamp (r : message_list.row) : option Z :=
  Some (messages.timestamp (message_list.message r)).

(** SELECT ... WHERE m.chat_jid = ? ORDER BY m.timestamp DESC
    LIMIT ? OFFSET ? *)
Definition select_messages (chatJid : string) (limit offset : Z) (s : Store)
    : outcome (list message_list.row) :=
  Done (limit_offset limit offset
          (order_by_desc message_timestamp
             (join_message s <$> messages_of chatJid s)))
       s.

(** SELECT * FROM messages WHERE id = ?; no row has an id equal to NULL. *)
Definition select_message (id : option string) (s : Store)
    : outcome (option messages.row) :=
  Done (id ≫= λ i, tbl_messages s !! i) s.

(** SELECT COUNT( * ) as count FROM messages WHERE chat_jid = ? *)
Definition count_messages (chatJid : string) (s : Store) : outcome Z :=
  Done (Z.of_nat (length (messages_of chatJid s))) s.

(** MIN over a column: NULL when there is no row. *)
Definition minimum (l : list Z) : option Z :=
  foldr (λ t acc, Some (match acc with Some a => Z.min t a | None => t end))
        None l.

(** SELECT MIN(timestamp) as oldest_timestamp FROM messages
    WHERE chat_jid = ? *)
Definition oldest_timestamp (chatJid : string) (s : Store)
    : outcome (option Z) :=
  Done (minimum ((λ kv : option string * messages.row, messages.timestamp kv.2)
                 <$> messages_of chatJid s))
       s.

(** SELECT c.jid, c.avatar_base64 FROM contacts c
    JOIN chats ch ON c.jid = ch.jid
    WHERE c.avatar_base64 IS NOT NULL AND ch.avatar_base64 IS NULL *)
Definition contacts_with_avatars (s : Store)
    : outcome (list (string * string)) :=
  Done (omap (λ kv : string * contacts.row,
                match contacts.avatar_base64 kv.2, tbl_chats s !! kv.1 with
                | Some avatar, Some ch =>
                    match chats.avatar_base64 ch with
                    | None => Some (kv.1, avatar)
                    | Some _ => None
                    end
                | _, _ => None
                end)
             (map_to_list (tbl_contacts s)))
       s.

End Query.

(** The reading methods of the class [Database]. *)
Module Database.

Definition getChats (limit : Z) : M (list chat_list.row) :=
  db_method "getChats" (run (Query.select_chats limit)).

Definition getChatWithContact (jid : string) : M (option chat_list.row) :=
  db_method "getChatWithContact" (run (Query.select_chat_with_contact jid)).

(** The rows come newest first and are returned in chronological order. *)
Definition getMessages (chatJid : string) (limit offset : Z)
    : M (list message_list.row) :=
  db_method "getMessages"
    (let* messages := run (Query.select_messages chatJid limit offset) in
     ret (reverse messages)).

(** [result?.oldest_timestamp || null] *)
Definition getOldestMessageTimestamp (chatJid : string) : M (option Z) :=
  db_method "getOldestMessageTimestamp"
    (let* result := run (Query.oldest_timestamp chatJid) in
     ret (if Js.truthy_num result then result else None)).

(** [result?.count || 0] *)
Definition getMessageCount (chatJid : string) : M Z :=
  db_method "getMessageCount" (run (Query.count_messages chatJid)).

Definition getMessage (messageId : option string) : M (option messages.row) :=
  db_method "getMessage" (run (Query.select_message messageId)).

(** [database.all(sql)], called from [backend.js] without the wrapper of a
    method. *)
Definition all {A} (stmt : Store → outcome A) : M A := run stmt.

End Database.

(** ** [backend.js]: the conversation list and the maintenance functions *)

(** A nullable INTEGER column as a member of an envelope. NULL is read as
    [null], which [JSON.stringify] writes the way it writes NaN; the envelope
    holds NaN for it. *)
Definition column_number (n : option Z) : Js.Number :=
  match n with
  | Some z => Js.Num z
  | None => Js.NaN
  end.

Module backend.

(** The function that [handleGetInitialChats], [loadInitialChats] and
    [refreshChatList] map over the rows of [getChats]. *)
Definition chatListEntry (chat : chat_list.row) : ChatData :=
  let c := chat_list.chat chat in
  let type := Js.or_str (chats.last_message_type c) "text" in
  {| cd_jid := chat_list.jid chat;
     cd_name :=
       Js.or_str (Js.or_opt (chat_list.contact_name chat) (chats.name c))
                 (chat_list.jid chat);
     cd_lastMessage :=
       formatLastMessageContent (chat_list.last_message_content chat) type;
     cd_timestamp := column_number (chats.last_message_timestamp c);
     cd_lastMessageType := type;
     cd_lastMessageFrom := chats.last_message_from c;
     cd_unreadCount := chats.unread_count c;
     cd_avatarBase64 := chat_list.contact_avatar_base64 chat;
     cd_chatAvatarBase64 := chats.avatar_base64 c;
     cd_phoneNumber := chat_list.contact_phone_number chat |}.

(** [errorResponse] stands for [errorHandler.database] of [logger.js]. *)
Definition handleGetInitialChats (errorResponse : Exn → string → Payload)
    : M unit :=
  try_catch
    (let* cached := gets initialChatsPayload in
     match cached with
     | Some chats => sendToFrontend "initial_chats" (InitialChats chats)
     | None =>
         let* dbChats := Database.getChats 50 in
         match dbChats with
         | _ :: _ =>
             let chats := chatListEntry <$> dbChats in
             sendToFrontend "initial_chats" (InitialChats chats)
         | [] => modify (set_clientIsWaitingForChats true)
         end
     end)
    (λ error,
       sendToFrontend "error" (errorResponse error "get initial chats")).

Definition refreshChatList : M unit :=
  try_catch
    (let* dbChats := Database.getChats 50 in
     let chats := chatListEntry <$> dbChats in
     modify (set_initialChatsPayload (Some chats));;
     sendToFrontend "chats_updated" (InitialChats chats))
    (λ _, ret tt).

Definition isFirstTimeLogin : M bool :=
  try_catch
    (let* chats := Database.getChats 1 in
     ret (match chats with [] => true | _ :: _ => false end))
    (λ _, ret false).

(** [connected] is [sock && baileysConnectionStatus === 'open']. *)
Definition syncChatMessages (connected : bool) (jid : string)
    (lastSyncTime : Js.Number) : M Z :=
  try_catch
    (if negb connected then ret 0%Z
     else
       let* recentMessages := Database.getMessages jid 1 0 in
       let lastMessageTime :=
         match recentMessages with
         | first :: _ =>
             Js.Num (messages.timestamp (message_list.message first))
         | [] => lastSyncTime
         end in
       let* now := Date_now in
       let timeSinceLastCheck := Js.sub (Js.Num now) lastMessageTime in
       if Js.lt timeSinceLastCheck (Js.Num 300000)
          && match recentMessages with [] => false | _ :: _ => true end
       then ret 0%Z
       else
         Date_toISOString lastMessageTime;;
         let* allMessages := Database.getMessages jid 50 0 in
         let newMessages :=
           List.filter
             (λ msg, Js.gt (Js.Num (messages.timestamp
                                      (message_list.message msg)))
                           lastMessageTime)
             allMessages in
         ret (Z.of_nat (length newMessages)))
    (λ _, ret 0%Z).

(** The body of the loop of [syncContactAvatarsToChats], with its
    [try]/[catch]. *)
Definition syncContactAvatar (contact : string * string) (syncedCount : nat)
    : M nat :=
  try_catch
    (database.updateChatAvatar contact.1 (Some contact.2);;
     ret (S syncedCount))
    (λ _, ret syncedCount).

Fixpoint syncContactAvatars_loop (contacts : list (string * string))
    (syncedCount : nat) : M nat :=
  match contacts with
  | [] => ret syncedCount
  | contact :: rest =>
      let* count := syncContactAvatar contact syncedCount in
      syncContactAvatars_loop rest count
  end.

Definition syncContactAvatarsToChats : M nat :=
  try_catch
    (let* contactsWithAvatars := Database.all Query.contacts_with_avatars in
     syncContactAvatars_loop contactsWithAvatars 0)
    (λ _, ret 0%nat).

(** [picture] is what [sock.profilePictureUrl], [fetch] and the conversion
    to base64 yield for the conversation: the picture, nothing when there is
    no address or the response is not ok, or the exception that one of them
    throws. The timestamp passed to [saveChat] is [null], which is bound as
    NULL, as NaN is. *)
Definition downloadChatAvatar (connected : bool)
    (picture : Result (option string)) (jid : string) : M bool :=
  try_catch
    (if negb connected then ret false
     else
       let* existingChat := Database.getChatWithContact jid in
       if Js.truthy_str
            (existingChat ≫= λ c, chats.avatar_base64 (chat_list.chat c))
       then ret false
       else
         try_catch
           (match picture with
            | Throw e => throw e
            | Ok (Some base64Avatar) =>
                if Js.truthy_str (Some base64Avatar)
                   && (100 <? String.length base64Avatar)%nat
                then
                  database.saveChat jid
                    (Js.or_null
                       (existingChat ≫= λ c, chats.name (chat_list.chat c)))
                    None Js.NaN (Some base64Avatar) "text" None;;
                  ret true
                else ret false
            | Ok None => ret false
            end)
           (λ _, ret false))
    (λ _, ret false).

End backend.

(** ** Further observations on the store and on the state *)

(** The row that [saveMessage] writes. *)
Definition message_row (jid : string) (fromMe : bool) (content : string)
    (t : Z) (type status : string) (session : option string) : messages.row :=
  {| messages.chat_jid := jid;
     messages.from_me := fromMe;
     messages.message_type := Some type;
     messages.content := Some content;
     messages.timestamp := t;
     messages.status := Some status;
     messages.collection_session := session |}.

(** The row [r] is a message of the conversation [jid], stored under some
    id or without one. *)
Definition message_of (s : Store) (jid : string) (r : messages.row) : Prop :=
  ((∃ i, tbl_messages s !! i = Some r) ∨ r ∈ tbl_messages_null s)
  ∧ messages.chat_jid r = jid.

(** The conversation [jid] is stored and not archived. *)
Definition listed (s : Store) (jid : string) : Prop :=
  ∃ c, tbl_chats s !! jid = Some c ∧ chats.is_archived c = false.

(** The consumer's side of the state is the same: the socket, the frames
    written to it, the cached conversation list and the flag that the
    consumer waits for one. *)
Definition unheard : relation World :=
  λ w w', clientSocket w' = clientSocket w ∧ sent w' = sent w
          ∧ initialChatsPayload w' = initialChatsPayload w
          ∧ clientIsWaitingForChats w' = clientIsWaitingForChats w.

(** The tables are the same. *)
Definition same_tables : relation World := λ w w', db w' = db w.

(** The SET clause of [updateChatAvatar]. *)
Definition with_avatar (avatar : option string) (r : chats.row) : chats.row :=
  {| chats.name := chats.name r;
     chats.avatar_base64 := avatar;
     chats.last_message_id := chats.last_message_id r;
     chats.last_message_timestamp := chats.last_message_timestamp r;
     chats.last_message_type := chats.last_message_type r;
     chats.last_message_from := chats.last_message_from r;
     chats.unread_count := chats.unread_count r;
     chats.is_archived := chats.is_archived r;
     chats.history_baseline_timestamp := chats.history_baseline_timestamp r;
     chats.last_sync_timestamp := chats.last_sync_timestamp r;
     chats.history_complete := chats.history_complete r |}.

(** The avatar that [syncContactAvatarsToChats] copies to the conversation
    [jid]: the one of its contact, when the conversation is stored without
    one. *)
Definition avatar_to_copy (s : Store) (jid : string) : option string :=
  match tbl_contacts s !! jid ≫= contacts.avatar_base64, tbl_chats s !! jid with
  | Some avatar, Some ch =>
      match chats.avatar_base64 ch with
      | None => Some avatar
      | Some _ => None
      end
  | _, _ => None
  end.

(** The row of the conversation [jid] with the avatar that is copied to it,
    if one is. *)
Definition with_copied_avatar (s : Store) (jid : string) (r : chats.row)
    : chats.row :=
  match avatar_to_copy s jid with
  | Some avatar => with_avatar (Some avatar) r
  | None => r
  end.

(** The avatar of the conversation, when it is stored with one. *)
Definition chat_avatar (s : Store) (jid : string) : option string :=
  tbl_chats s !! jid ≫= chats.avatar_base64.

(** The download has yielded a picture that [downloadChatAvatar] saves: a
    string of more than a hundred characters. *)
Definition usable (picture : Result (option string)) : bool :=
  match picture with
  | Ok (Some base64Avatar) => (100 <? String.length base64Avatar)%nat
  | _ => false
  end.

(** * Properties *)

(** ** Timestamp normalisation *)

Lemma decimal_digit_value c :
  Reference.is_decimal_digit c = true →
  Js.digit_value 10 c = Some (Z.of_nat (nat_of_ascii c) - 48)%Z.
Proof.
  unfold Reference.is_decimal_digit, Js.digit_value. intros H.
  apply andb_true_iff in H as [H1 H2].
  apply Nat.leb_le in H1. apply Nat.leb_le in H2.
  assert ((48 <=? Z.of_nat (nat_of_ascii c))%Z = true) as -> by (apply Z.leb_le; lia).
  assert ((Z.of_nat (nat_of_ascii c) <=? 57)%Z = true) as -> by (apply Z.leb_le; lia).
  simpl.
  assert ((Z.of_nat (nat_of_ascii c) - 48 <? 10)%Z = true) as -> by (apply Z.ltb_lt; lia).
  reflexivity.
Qed.

Lemma decimal_digit_not_whitespace c :
  Reference.is_decimal_digit c = true → Js.is_whitespace c = false.
Proof.
  unfold Reference.is_decimal_digit, Js.is_whitespace. intros H.
  apply andb_true_iff in H as [H1 H2].
  apply Nat.leb_le in H1.
  repeat (apply orb_false_iff; split); apply Nat.eqb_neq; lia.
Qed.

Lemma digits_prefix_decimal s acc :
  Reference.all_decimal s = true →
  Js.digits_prefix 10 (Some acc) s
  = Some (acc * 10 ^ Z.of_nat (String.length s) + Reference.integer_value s)%Z.
Proof.
  revert acc. induction s as [|c r IH]; intros acc H; simpl in *.
  - f_equal. lia.
  - apply andb_true_iff in H as [Hc Hr].
    rewrite (decimal_digit_value c Hc), (IH _ Hr). f_equal.
    rewrite Nat2Z.inj_succ, Z.pow_succ_r by lia. lia.
Qed.

(** Up to 2^53 every integer is a double. *)
Lemma round_exact z : (Z.abs z <= 2 ^ 53)%Z → Js.round z = z.
Proof.
  intros H. unfold Js.round.
  destruct (Z.ltb_spec (Z.abs z) (2 ^ 53)) as [|Hge]; [reflexivity|].
  assert (E : z = (2 ^ 53)%Z ∨ z = (- 2 ^ 53)%Z) by lia.
  destruct E as [-> | ->]; reflexivity.
Qed.

(** Below 2^56 every multiple of 8 is a double. *)
Lemma round_multiple_of_8 n :
  (Z.abs (n * 8) < 2 ^ 56)%Z → Js.round (n * 8) = (n * 8)%Z.
Proof.
  intros H. unfold Js.round.
  destruct (Z.ltb_spec (Z.abs (n * 8)) (2 ^ 53)) as [|Hge]; [reflexivity|].
  set (a := Z.abs (n * 8)) in *.
  assert (Hlog : (53 <= Z.log2 a < 56)%Z).
  { split; [apply Z.log2_le_pow2; lia | apply Z.log2_lt_pow2; lia]. }
  assert (He : (Z.log2 a - 52 = 1 ∨ Z.log2 a - 52 = 2 ∨ Z.log2 a - 52 = 3)%Z)
    by lia.
  assert (Hz : (n * 8 = Z.sgn (n * 8) * a)%Z) by lia.
  assert (Hr : ∀ d, (d = 2 ∨ d = 4 ∨ d = 8)%Z →
                    (a mod d = 0 ∧ a / d * d = a)%Z).
  { intros d Hd. subst a. destruct Hd as [-> | [-> | ->]];
      Z.to_euclidean_division_equations; lia. }
  destruct He as [-> | [-> | ->]].
  - change (2 ^ 1)%Z with 2%Z. change (2 ^ (1 - 1))%Z with 1%Z.
    destruct (Hr 2%Z ltac:(auto)) as [-> Hq]. simpl. lia.
  - change (2 ^ 2)%Z with 4%Z. change (2 ^ (2 - 1))%Z with 2%Z.
    destruct (Hr 4%Z ltac:(auto)) as [-> Hq]. simpl. lia.
  - change (2 ^ 3)%Z with 8%Z. change (2 ^ (3 - 1))%Z with 4%Z.
    destruct (Hr 8%Z ltac:(auto)) as [-> Hq]. simpl. lia.
Qed.

(** Seconds to milliseconds: exact as long as the product stays below
    2^56. *)
Lemma mul_1000_exact n :
  (Z.abs (n * 1000) < 2 ^ 56)%Z →
  Js.mul (Js.Num n) (Js.Num 1000) = Js.Num (n * 1000).
Proof.
  intros H. simpl. f_equal.
  replace (n * 1000)%Z with (n * 125 * 8)%Z in * by lia.
  apply round_multiple_of_8, H.
Qed.

Lemma parseInt_numeric s :
  Reference.numeric_string s = true →
  Js.parseInt s = Js.Num (Js.round (Reference.integer_value s)).
Proof.
  destruct s as [|c r]; [discriminate|]. simpl. intros H.
  apply andb_true_iff in H as [Hc Hr].
  unfold Js.parseInt. simpl.
  rewrite (decimal_digit_not_whitespace c Hc).
  assert (Hsign : Js.strip_sign (String c r) = (1%Z, String c r)).
  { unfold Js.strip_sign.
    destruct c as [[] [] [] [] [] [] [] []]; try reflexivity; discriminate. }
  rewrite Hsign.
  assert (Hradix :
    match String c r with
    | String "0" (String "x" r0) | String "0" (String "X" r0) => (16%Z, r0)
    | _ => (10%Z, String c r)
    end = (10%Z, String c r)).
  { destruct r as [|d r']; [ destruct c as [[] [] [] [] [] [] [] []]; reflexivity |].
    simpl in Hr. apply andb_true_iff in Hr as [Hd _].
    destruct c as [[] [] [] [] [] [] [] []]; try reflexivity;
      destruct d as [[] [] [] [] [] [] [] []]; try reflexivity; discriminate. }
  rewrite Hradix. simpl.
  rewrite (decimal_digit_value c Hc).
  rewrite (digits_prefix_decimal r _ Hr). do 2 f_equal. lia.
Qed.

(** C8, counterexample: the epoch-seconds number 0 is not mapped to
    0 * 1000; it is taken for a missing timestamp and the wall clock is
    returned. And the normalisation is not lossless: 72057594037929 seconds,
    the first number of seconds whose milliseconds are no double, are mapped
    to 72057594037928992 milliseconds, and the split value of high word
    2097152 and low word 1 and the string of the same value, 2^53 + 1
    seconds, to 2^53 times 1000 milliseconds. *)
Lemma normalisation_departs_from_reference :
  let message t :=
    Sample.message "A" "m1" false (Some t) (Sample.text_content "hi") in
  getMessageTimestamp 1700000000000 (message (TsNumber 0))
  ≠ Js.Num (Reference.epoch_ms (TsNumber 0))
  ∧ (Reference.epoch_ms (TsNumber 72057594037929) = 72057594037929000%Z
     ∧ getMessageTimestamp 1700000000000 (message (TsNumber 72057594037929))
       = Js.Num 72057594037928992)
  ∧ (Reference.epoch_ms (TsLong 1 2097152 Js.NaN) = 9007199254740993000%Z
     ∧ getMessageTimestamp 1700000000000 (message (TsLong 1 2097152 Js.NaN))
       = Js.Num 9007199254740992000)
  ∧ (Reference.epoch_ms (TsString "9007199254740993") = 9007199254740993000%Z
     ∧ getMessageTimestamp 1700000000000
         (message (TsString "9007199254740993"))
       = Js.Num 9007199254740992000).
Proof. vm_compute. repeat split. discriminate. Qed.

(** C8, amended: normalisation maps a non-zero epoch-seconds number [n] to
    [n * 1000], a numeric string to its integer value times 1000, and a
    split-word object to [(high * 2^32 + low) * 1000] with both words read as
    unsigned 32-bit values, as long as that value is below 2^56 in
    magnitude. *)
Theorem timestamp_normalisation now msg t :
  rawTimestamp msg = Some t →
  Reference.present t →
  (Z.abs (Reference.epoch_ms t) < 2 ^ 56)%Z →
  getMessageTimestamp now msg = Js.Num (Reference.epoch_ms t).
Proof.
  intros Hraw Hp Hrange. unfold getMessageTimestamp. rewrite Hraw.
  destruct t as [n|s|low high tn]; cbn [Reference.present Reference.epoch_ms]
    in Hp, Hrange |- *.
  - cbn [truthy_ts negb]. destruct (Z.eqb_spec n 0); [contradiction|].
    cbn [negb]. apply mul_1000_exact, Hrange.
  - destruct s as [|c r]; [discriminate|]. cbn [truthy_ts Js.truthy_str negb].
    rewrite (parseInt_numeric (String c r) Hp).
    rewrite round_exact by lia. apply mul_1000_exact, Hrange.
  - cbn [truthy_ts negb]. unfold Js.to_uint32.
    change (2 ^ 32)%Z with 4294967296%Z in *.
    pose proof (Z.mod_pos_bound high 4294967296 eq_refl) as Hh.
    pose proof (Z.mod_pos_bound low 4294967296 eq_refl) as Hl.
    cbn [Js.mul Js.add]. rewrite (round_exact (_ * 4294967296)) by lia.
    rewrite (round_exact (_ + _)) by lia.
    apply mul_1000_exact, Hrange.
Qed.

(** The three formats on the second 1 700 000 000, a split value with a
    negative low word, and the last second whose milliseconds are below
    2^56. *)
Lemma timestamp_normalisation_witness :
  getMessageTimestamp 5 (Sample.text "A" "m1" 1700000000 "hi")
  = Js.Num 1700000000000
  ∧ getMessageTimestamp 5
      (Sample.message "A" "m1" false (Some (TsString "1700000000"))
         (Sample.text_content "hi"))
    = Js.Num 1700000000000
  ∧ getMessageTimestamp 5
      (Sample.message "A" "m1" false (Some (TsLong (-1) 1 Js.NaN))
         (Sample.text_content "hi"))
    = Js.Num 8589934591000
  ∧ getMessageTimestamp 5
      (Sample.message "A" "m1" false (Some (TsNumber 72057594037927))
         (Sample.text_content "hi"))
    = Js.Num 72057594037927000.
Proof.
  split; [|split; [|split]].
  - apply (timestamp_normalisation 5 _ (TsNumber 1700000000));
      [reflexivity | simpl; lia | simpl; lia].
  - apply (timestamp_normalisation 5 _ (TsString "1700000000"));
      [reflexivity | reflexivity | vm_compute; reflexivity].
  - apply (timestamp_normalisation 5 _ (TsLong (-1) 1 Js.NaN));
      [reflexivity | exact I | vm_compute; reflexivity].
  - apply (timestamp_normalisation 5 _ (TsNumber 72057594037927));
      [reflexivity | simpl; lia | simpl; lia].
Defined.

(** ** Effects: basic equations *)

Lemma seq_ok {A B} (m : M A) (k : M B) w a w1 :
  m w = (Ok a, w1) → (m;; k) w = k w1.
Proof. unfold mbind, M_bind, bind. intros ->. reflexivity. Qed.

Lemma try_catch_ok {A} (m : M A) h w a w1 :
  m w = (Ok a, w1) → try_catch m h w = (Ok a, w1).
Proof. unfold try_catch. intros ->. reflexivity. Qed.

Lemma run_ok {A} (stmt : Store → outcome A) w a s :
  faults w = [] → stmt (db w) = Done a s → run stmt w = (Ok a, set_db s w).
Proof.
  destruct w as [d c f cs p wt st]. simpl. intros -> H.
  unfold run. simpl. rewrite H. reflexivity.
Qed.

Lemma sendToFrontend_open type data w :
  clientSocket w = Some OPEN →
  sendToFrontend type data w
  = (Ok tt, set_sent (sent w ++ [{| env_type := type; env_data := data |}]) w).
Proof. unfold sendToFrontend. intros ->. reflexivity. Qed.

(** ** Unknown commands *)

Lemma unrecognized_default {Data} (h : Handlers Data) (cmd : Command Data) :
  recognized (cmd_type cmd) = false →
  handleFrontendCommand h cmd
  = sendToFrontend "error"
      (ErrorInfo "unknown_command"
         ("Unknown command: " +:+ template (cmd_type cmd))).
Proof.
  unfold handleFrontendCommand, recognized. cbv zeta.
  destruct (cmd_type cmd) as [t|]; [|reflexivity].
  intros H. apply bool_decide_eq_false in H.
  unfold recognized_commands in H.
  repeat match goal with
         | |- context [bool_decide (Some t = Some ?x)] =>
             destruct (bool_decide_reflect (Some t = Some x)) as [E|_];
             [exfalso; apply H; injection E as ->; set_solver |]
         end.
  reflexivity.
Qed.

(** C10: a command whose type is none of the recognised ones is answered
    on the open consumer socket with one [error] envelope of the error type
    'unknown_command' whose message is 'Unknown command: ' followed by the
    type of the command; nothing is thrown,
    neither by the dispatcher nor by the listener around it, and the process
    state is otherwise as before, the socket still open, so that the next
    command is dispatched as usual. *)
Theorem unknown_command_answered {Data} (h : Handlers Data)
    (cmd : Command Data) (w : World) :
  recognized (cmd_type cmd) = false →
  clientSocket w = Some OPEN →
  let answer :=
    {| env_type := "error";
       env_data :=
         ErrorInfo "unknown_command"
           match cmd_type cmd with
           | Some type => "Unknown command: " +:+ type
           | None => "Unknown command: undefined"
           end |} in
  let answered (r : Result unit * World) :=
    fst r = Ok tt
    ∧ sent (snd r) = sent w ++ [answer]
    ∧ clientSocket (snd r) = Some OPEN
    ∧ db (snd r) = db w
    ∧ faults (snd r) = faults w
    ∧ initialChatsPayload (snd r) = initialChatsPayload w
    ∧ clientIsWaitingForChats (snd r) = clientIsWaitingForChats w in
  answered (handleFrontendCommand h cmd w)
  ∧ answered (onClientMessage h (Some cmd) w).
Proof.
  intros Hun Hopen answer answered.
  assert (Hd : answered (handleFrontendCommand h cmd w)).
  { unfold answered. rewrite (unrecognized_default h cmd Hun).
    unfold sendToFrontend. rewrite Hopen. cbn [fst snd sent set_sent
      clientSocket db faults initialChatsPayload clientIsWaitingForChats].
    repeat split; try assumption.
    unfold answer, template. destruct (cmd_type cmd); reflexivity. }
  split; [exact Hd|].
  assert (Hl : onClientMessage h (Some cmd) w = handleFrontendCommand h cmd w).
  { unfold onClientMessage, try_catch.
    destruct Hd as [Hok _].
    destruct (handleFrontendCommand h cmd w) as [[[]|e] w1];
      [reflexivity | discriminate]. }
  rewrite Hl. exact Hd.
Qed.

(** The scenario of the specification: the consumer sends [bogus], and
    then asks for the conversation list. *)
Lemma unknown_command_answered_witness :
  let h := {| handleGetInitialChats :=
                backend.handleGetInitialChats
                  (λ _ _, ErrorInfo "database_error" "get initial chats");
              handleSendMessage := λ _ : unit, ret tt;
              handleGetMessageHistory := λ _, ret tt;
              handleTypingStart := λ _, ret tt;
              handleTypingStop := λ _, ret tt;
              handleHealthCheck := ret tt;
              handleSyncContacts := ret tt;
              handleGetContactInfo := λ _, ret tt;
              websocketError := λ _, ErrorInfo "websocket" "message processing" |} in
  let w := Sample.world empty_store 1700000000000 in
  let bogus := {| cmd_type := Some "bogus"; cmd_data := tt |} in
  let next := {| cmd_type := Some "get_initial_chats"; cmd_data := tt |} in
  let w1 := snd (onClientMessage h (Some bogus) w) in
  let w2 := snd (onClientMessage h (Some next) w1) in
  fst (onClientMessage h (Some bogus) w) = Ok tt
  ∧ sent w1 = [{| env_type := "error";
                  env_data := ErrorInfo "unknown_command"
                                "Unknown command: bogus" |}]
  ∧ clientSocket w1 = Some OPEN
  ∧ (clientIsWaitingForChats w1 = false ∧ clientIsWaitingForChats w2 = true).
Proof.
  intros h w bogus next w1 w2.
  destruct (unknown_command_answered h bogus w)
    as (_ & Hok & Hsent & Hopen & _ & _ & _ & Hflag);
    [reflexivity | reflexivity |].
  fold w1 in Hsent, Hopen, Hflag.
  split; [exact Hok|]. split; [exact Hsent|]. split; [exact Hopen|].
  split; [exact Hflag | vm_compute; reflexivity].
Defined.

(** ** Effects: what a computation keeps *)

Section Keeps.

Context (R : relation World) `{!PreOrder R}.

Lemma keeps_ret {A} (a : A) : keeps R (ret a).
Proof. intros w. simpl. reflexivity. Qed.

Lemma keeps_throw {A} e : keeps R (@throw A e).
Proof. intros w. simpl. reflexivity. Qed.

Lemma keeps_gets {A} (f : World → A) : keeps R (gets f).
Proof. intros w. simpl. reflexivity. Qed.

Lemma keeps_Date_now : keeps R Date_now.
Proof. intros w. simpl. reflexivity. Qed.

Lemma keeps_Date_toISOString t : keeps R (Date_toISOString t).
Proof.
  intros w. unfold Date_toISOString.
  destruct (Js.valid_time t); simpl; reflexivity.
Qed.

Lemma keeps_bind {A B} (m : M A) (k : A → M B) :
  keeps R m → (∀ a, keeps R (k a)) → keeps R (bind m k).
Proof.
  intros Hm Hk w. unfold bind. specialize (Hm w).
  destruct (m w) as [[a|e] w1]; simpl in *; [|exact Hm].
  etransitivity; [exact Hm | apply Hk].
Qed.

Lemma keeps_seq {A B} (m : M A) (k : M B) :
  keeps R m → keeps R k → keeps R (m;; k).
Proof. intros Hm Hk. apply keeps_bind; [exact Hm | intros _; exact Hk]. Qed.

Lemma keeps_try_catch {A} (m : M A) (h : Exn → M A) :
  keeps R m → (∀ e, keeps R (h e)) → keeps R (try_catch m h).
Proof.
  intros Hm Hh w. unfold try_catch. specialize (Hm w).
  destruct (m w) as [[a|e] w1]; simpl in *; [exact Hm|].
  etransitivity; [exact Hm | apply Hh].
Qed.

Lemma keeps_db_method {A} op (m : M A) : keeps R m → keeps R (db_method op m).
Proof.
  intros Hm. apply keeps_try_catch; [exact Hm | intros e; apply keeps_throw].
Qed.

Lemma keeps_if {A} (b : bool) (m1 m2 : M A) :
  keeps R m1 → keeps R m2 → keeps R (if b then m1 else m2).
Proof. destruct b; auto. Qed.

End Keeps.

Lemma on_db_preorder (R : relation Store) : PreOrder R → PreOrder (on_db R).
Proof.
  intros [Hr Ht]. split.
  - intros w. apply Hr.
  - intros a b c. unfold on_db. apply Ht.
Qed.

(** A statement that respects a relation between stores is kept by [run],
    also when the engine is at fault. *)
Lemma keeps_run (R : relation Store) `{!PreOrder R} {A}
    (stmt : Store → outcome A) :
  (∀ s a s', stmt s = Done a s' → R s s') → keeps (on_db R) (run stmt).
Proof.
  intros Hs w. unfold run, on_db.
  destruct (faults w) as [|[] rest]; simpl;
    try reflexivity;
    destruct (stmt (db w)) as [a s'|reason] eqn:E; simpl;
    try reflexivity; eapply Hs; exact E.
Qed.

#[global] Instance fault_free_preorder : PreOrder fault_free.
Proof.
  split.
  - intros w. split; [reflexivity | auto].
  - intros a b c [H1 H2] [H3 H4]. split; [congruence | auto].
Qed.

Lemma fault_free_run {A} (stmt : Store → outcome A) : keeps fault_free (run stmt).
Proof.
  intros w. unfold run. split.
  - destruct (faults w) as [|[] rest]; simpl; try reflexivity;
      destruct (stmt (db w)); reflexivity.
  - intros H. rewrite H. simpl. destruct (stmt (db w)); reflexivity.
Qed.

Lemma fault_free_sendToFrontend type data :
  keeps fault_free (sendToFrontend type data).
Proof.
  intros w. unfold sendToFrontend.
  destruct (clientSocket w) as [[]|]; simpl; split; auto.
Qed.

#[global] Instance on_db_po (R : relation Store) `{!PreOrder R} : PreOrder (on_db R).
Proof. apply on_db_preorder; assumption. Qed.

#[global] Instance same_or_gone_po id : PreOrder (same_or_gone id).
Proof.
  split.
  - intros s. right. reflexivity.
  - intros a b c. unfold same_or_gone. intros [H1|H1] [H2|H2]; auto.
    + left. congruence.
    + right. congruence.
Qed.

(** ** What each statement does to the tables *)

Lemma select_chat_same jid s a s' : Sql.select_chat jid s = Done a s' → s' = s.
Proof. unfold Sql.select_chat. intros H. injection H as _ <-. reflexivity. Qed.

Lemma no_change_same s a s' : Sql.no_change s = Done a s' → s' = s.
Proof. unfold Sql.no_change. intros H. injection H as _ <-. reflexivity. Qed.

Lemma replace_chat_done jid name avatar last_id ts type from s a s' :
  Sql.replace_chat jid name avatar last_id ts type from s = Done a s' →
  (∃ r, tbl_chats s' !! jid = Some r
        ∧ chats.history_baseline_timestamp r = None
        ∧ chats.last_sync_timestamp r = None
        ∧ chats.last_message_id r = last_id
        ∧ chats.last_message_timestamp r = ts)
  ∧ (∀ j, j ≠ jid → tbl_chats s' !! j = tbl_chats s !! j)
  ∧ tbl_contacts s' = tbl_contacts s
  ∧ (∀ i, tbl_messages s' !! i = None
          ∨ tbl_messages s' !! i = tbl_messages s !! i)
  ∧ (∀ i r, tbl_messages s !! i = Some r → messages.chat_jid r ≠ jid →
            tbl_messages s' !! i = Some r)
  ∧ (∀ i r, tbl_messages s' !! i = Some r → is_Some (tbl_chats s !! jid) →
            messages.chat_jid r ≠ jid).
Proof.
  unfold Sql.replace_chat. intros H. injection H as _ <-. unfold Sql.cascade_chat.
  destruct (tbl_chats s !! jid) as [c|] eqn:Ec; simpl;
    (split; [|split; [|split; [|split; [|split]]]]).
  - eexists. rewrite lookup_insert_eq. repeat split.
  - intros j Hj. rewrite lookup_insert_ne by congruence.
    rewrite lookup_delete_ne by congruence. reflexivity.
  - reflexivity.
  - intros i.
    destruct (filter _ (tbl_messages s) !! i) as [r|] eqn:E; [|left; reflexivity].
    right. apply map_lookup_filter_Some in E as [E _]. rewrite E. reflexivity.
  - intros i r Hi Hr.
    apply map_lookup_filter_Some. split; [exact Hi | exact Hr].
  - intros i r Hi _.
    apply map_lookup_filter_Some in Hi as [_ Hi]. exact Hi.
  - eexists. rewrite lookup_insert_eq. repeat split.
  - intros j Hj. rewrite lookup_insert_ne by congruence. reflexivity.
  - reflexivity.
  - intros i. right. reflexivity.
  - intros i r Hi _. exact Hi.
  - intros i r _ [c Hc]. discriminate.
Qed.

Lemma update_chat_done f jid s a s' :
  Sql.update_chat f jid s = Done a s' →
  tbl_messages s' = tbl_messages s
  ∧ tbl_contacts s' = tbl_contacts s
  ∧ (∀ j, tbl_chats s' !! j
          = if bool_decide (jid = Some j) then f <$> tbl_chats s !! j
            else tbl_chats s !! j).
Proof.
  unfold Sql.update_chat. intros H. destruct jid as [j0|].
  - injection H as _ <-. simpl. repeat split. intros j.
    case_bool_decide as E.
    + injection E as ->. apply lookup_alter_eq.
    + apply lookup_alter_ne. congruence.
  - injection H as _ <-. repeat split.
Qed.

Lemma replace_message_done id jid from_me type content ts status session s a s' :
  Sql.replace_message id jid from_me type content ts status session s = Done a s' →
  tbl_chats s' = tbl_chats s
  ∧ tbl_contacts s' = tbl_contacts s
  ∧ (∃ j t, jid = Some j ∧ ts = Some t ∧ is_Some (tbl_chats s !! j)
      ∧ ∀ i, tbl_messages s' !! i
             = if bool_decide (id = Some i)
               then Some {| messages.chat_jid := j;
                            messages.from_me := from_me;
                            messages.message_type := Some type;
                            messages.content := Some content;
                            messages.timestamp := t;
                            messages.status := Some status;
                            messages.collection_session := session |}
               else tbl_messages s !! i).
Proof.
  unfold Sql.replace_message. intros H.
  destruct jid as [j|]; [|discriminate].
  destruct ts as [t|]; [|discriminate].
  destruct (tbl_chats s !! j) as [c|] eqn:Ec; [|discriminate].
  destruct id as [i0|]; injection H as _ <-; simpl; repeat split;
    exists j, t; repeat split; eauto; intros i; case_bool_decide as E;
    try discriminate; try reflexivity.
  - injection E as ->. apply lookup_insert_eq.
  - apply lookup_insert_ne. congruence.
Qed.

Lemma replace_contact_done jid name phone avatar s a s' :
  Sql.replace_contact jid name phone avatar s = Done a s' →
  tbl_chats s' = tbl_chats s
  ∧ tbl_messages s' = tbl_messages s
  ∧ (∀ j, is_Some (tbl_contacts s !! j) → is_Some (tbl_contacts s' !! j)).
Proof.
  unfold Sql.replace_contact. intros H. injection H as _ <-. simpl.
  repeat split. intros j Hj.
  destruct (decide (jid = j)) as [->|Hne].
  - rewrite lookup_insert_eq. eauto.
  - rewrite lookup_insert_ne by exact Hne. exact Hj.
Qed.

#[global] Instance saves_messages_po jid session ids :
  PreOrder (saves_messages jid session ids).
Proof.
  split.
  - intros s. unfold saves_messages. repeat split; auto.
  - intros a b c (A1 & A2 & A3 & A4 & A5 & A6) (B1 & B2 & B3 & B4 & B5 & B6).
    unfold saves_messages. repeat split.
    + intros j Hj. rewrite B1, A1 by exact Hj. reflexivity.
    + intros j Hj. apply B2, A2, Hj.
    + congruence.
    + congruence.
    + intros i Hi. rewrite B5, A5 by exact Hi. reflexivity.
    + intros i Hi. apply B6, A6, Hi.
Qed.

#[global] Instance turn_effects_po jid ids : PreOrder (turn_effects jid ids).
Proof.
  split.
  - intros s. unfold turn_effects. repeat split; auto.
    intros i _. right. reflexivity.
  - intros a b c (A1 & A2 & A3 & A4) (B1 & B2 & B3 & B4).
    unfold turn_effects. repeat split.
    + intros j Hj. rewrite B1, A1 by exact Hj. reflexivity.
    + intros j Hj. apply B2, A2, Hj.
    + intros i r Hi Hr Hn. apply B3; auto.
    + intros i Hi. exact (transitivity (A4 i Hi) (B4 i Hi)).
Qed.

(** Saving messages is one of the things a turn does. *)
Lemma saves_messages_turn jid session ids s s' :
  saves_messages jid session ids s s' → turn_effects jid ids s s'.
Proof.
  intros (A1 & A2 & _ & _ & A5 & _). unfold turn_effects. repeat split; auto.
  - intros i r Hi _ Hn. rewrite A5 by exact Hn. exact Hi.
  - intros i Hn. right. apply A5, Hn.
Qed.

Lemma keeps_weaken (R1 R2 : relation World) {A} (m : M A) :
  (∀ w w', R1 w w' → R2 w w') → keeps R1 m → keeps R2 m.
Proof. intros H Hm w. apply H, Hm. Qed.

Lemma baseline_fmap s jid f :
  (∀ r, chats.history_baseline_timestamp (f r) = chats.history_baseline_timestamp r) →
  (f <$> tbl_chats s !! jid) ≫= chats.history_baseline_timestamp
  = tbl_chats s !! jid ≫= chats.history_baseline_timestamp.
Proof. intros H. destruct (tbl_chats s !! jid); simpl; [apply H | reflexivity]. Qed.

Lemma last_sync_fmap s jid f :
  (∀ r, chats.last_sync_timestamp (f r) = chats.last_sync_timestamp r) →
  (f <$> tbl_chats s !! jid) ≫= chats.last_sync_timestamp
  = tbl_chats s !! jid ≫= chats.last_sync_timestamp.
Proof. intros H. destruct (tbl_chats s !! jid); simpl; [apply H | reflexivity]. Qed.

(** *** [database.saveContact] *)

Lemma saveContact_saves jid0 session ids jid name phone avatar :
  keeps (on_db (saves_messages jid0 session ids))
        (database.saveContact jid name phone avatar).
Proof.
  apply keeps_db_method; [typeclasses eauto|].
  apply keeps_run; [typeclasses eauto|].
  intros s a s' H. apply replace_contact_done in H as (Hc & Hm & _).
  unfold saves_messages, baseline, last_sync, stored.
  rewrite Hc, Hm. repeat split; auto.
Qed.

(** *** [database.saveMessage] *)

Lemma saveMessage_saves jid session ids id fromMe content ts type status sender :
  (∀ i, id = Some i → i ∈ ids) →
  keeps (on_db (saves_messages jid session ids))
        (database.saveMessage id (Some jid) fromMe content ts type status sender
           (Some session)).
Proof.
  intros Hid. unfold database.saveMessage.
  apply keeps_db_method; [typeclasses eauto|].
  apply keeps_seq; [typeclasses eauto| |apply keeps_seq; [typeclasses eauto| |
    apply keeps_seq; [typeclasses eauto| |apply keeps_ret; typeclasses eauto]]].
  - apply keeps_run; [typeclasses eauto|].
    intros s a s' H.
    apply replace_message_done in H as (Hc & _ & j & t & Hj & _ & _ & Hm).
    injection Hj as <-.
    unfold saves_messages, baseline, last_sync, stored. rewrite Hc.
    repeat split; auto.
    + intros i Hi. rewrite Hm. case_bool_decide as E; [|reflexivity].
      exfalso. apply Hi, Hid, E.
    + intros i (r & Hr & Hrj & Hrs). rewrite Hm.
      case_bool_decide as E; [|eauto].
      eexists. split; [reflexivity|]. simpl. auto.
  - apply keeps_if; [apply saveContact_saves | apply keeps_ret; typeclasses eauto].
  - apply keeps_run; [typeclasses eauto|].
    intros s a s' H. apply update_chat_done in H as (Hm & _ & Hc).
    unfold saves_messages, baseline, last_sync, stored. rewrite Hm.
    repeat split; auto.
    + intros j Hj. rewrite Hc. case_bool_decide as E; [|reflexivity].
      congruence.
    + intros j Hj. rewrite Hc. case_bool_decide; [|exact Hj].
      apply fmap_is_Some, Hj.
    + rewrite Hc. rewrite bool_decide_eq_true_2 by reflexivity.
      apply baseline_fmap. reflexivity.
    + rewrite Hc. rewrite bool_decide_eq_true_2 by reflexivity.
      apply last_sync_fmap. reflexivity.
Qed.

(** *** Pending faults *)

Ltac keep_going :=
  repeat first
    [ apply keeps_ret | apply keeps_throw | apply keeps_Date_now
    | apply keeps_Date_toISOString
    | apply keeps_gets | apply fault_free_run | apply fault_free_sendToFrontend
    | apply keeps_db_method | apply keeps_try_catch | apply keeps_seq
    | apply keeps_bind | apply keeps_if
    | match goal with |- ∀ _, keeps _ _ => intro end ];
  try typeclasses eauto.

Lemma fault_free_saveChat jid name last_id ts avatar type from :
  keeps fault_free (database.saveChat jid name last_id ts avatar type from).
Proof. unfold database.saveChat. keep_going. Qed.

Lemma fault_free_saveContact jid name phone avatar :
  keeps fault_free (database.saveContact jid name phone avatar).
Proof. unfold database.saveContact. keep_going. Qed.

Lemma fault_free_saveMessage id jid fromMe content ts type status sender session :
  keeps fault_free
        (database.saveMessage id jid fromMe content ts type status sender session).
Proof.
  unfold database.saveMessage. cbv zeta. keep_going.
  destruct jid; [apply fault_free_saveContact | keep_going].
Qed.

Lemma fault_free_setChatHistoryBaseline jid ts :
  keeps fault_free (database.setChatHistoryBaseline jid ts).
Proof. unfold database.setChatHistoryBaseline. keep_going. Qed.

Lemma fault_free_saveHistoryMessage chat session msg saved skipped :
  keeps fault_free (saveHistoryMessage chat session msg saved skipped).
Proof.
  unfold saveHistoryMessage.
  apply keeps_try_catch; [typeclasses eauto| |keep_going].
  apply keeps_bind; [typeclasses eauto|keep_going|]. intros now.
  destruct (getMessageKey msg) as [key|]; [|keep_going].
  destruct (Js.truthy_str (key_id key)); [|keep_going].
  apply keeps_seq; [typeclasses eauto|apply fault_free_saveMessage|keep_going].
Qed.

Lemma fault_free_loop chat msgs session saved skipped :
  keeps fault_free (saveMessagesFromHistory_loop chat msgs session saved skipped).
Proof.
  revert saved skipped. induction msgs as [|msg rest IH]; intros saved skipped.
  - simpl. keep_going.
  - simpl. apply keeps_bind; [typeclasses eauto| |intros counts; apply IH].
    apply fault_free_saveHistoryMessage.
Qed.

(** *** [saveMessagesFromHistory] *)

(** One message: the attempt returns whatever the write does, and counts
    the message as saved or as skipped. *)
Lemma saveHistoryMessage_counts chat session msg saved skipped w :
  ∃ a b, fst (saveHistoryMessage chat session msg saved skipped w) = Ok (a, b)
         ∧ (a + b = S (saved + skipped))%nat.
Proof.
  unfold saveHistoryMessage, try_catch, bind, Date_now, mbind, M_bind, bind, ret.
  destruct (getMessageKey msg) as [key|];
    [destruct (Js.truthy_str (key_id key))|].
  - destruct (database.saveMessage _ _ _ _ _ _ _ _ _ w) as [[[]|e] w1];
      do 2 eexists; (split; [reflexivity | lia]).
  - do 2 eexists; (split; [reflexivity | lia]).
  - do 2 eexists; (split; [reflexivity | lia]).
Qed.

(** The loop returns whatever happens to the single writes, and every
    message is either counted as saved or counted as skipped. *)
Lemma loop_counts chat msgs session saved skipped w :
  ∃ saved' skipped',
    fst (saveMessagesFromHistory_loop chat msgs session saved skipped w)
    = Ok (saved', skipped')
    ∧ (saved' + skipped' = saved + skipped + length msgs)%nat.
Proof.
  revert saved skipped w. induction msgs as [|msg rest IH]; intros saved skipped w.
  - exists saved, skipped. simpl. split; [reflexivity | lia].
  - simpl. unfold bind at 1.
    destruct (saveHistoryMessage_counts chat session msg saved skipped w)
      as (a & b & Hab & Hsum).
    destruct (saveHistoryMessage chat session msg saved skipped w) as [r w1].
    simpl in Hab. subst r. simpl.
    destruct (IH a b w1) as (saved' & skipped' & H1 & H2).
    exists saved', skipped'. split; [exact H1 | lia].
Qed.

Lemma elem_of_message_ids msg key i msgs :
  msg ∈ msgs → getMessageKey msg = Some key → key_id key = Some i →
  Js.truthy_str (key_id key) = true →
  i ∈ message_ids msgs.
Proof.
  intros Hin Hk Hi Ht. unfold message_ids. apply list_elem_of_omap.
  exists msg. split; [exact Hin|]. unfold saved_id. rewrite Hk, Ht. exact Hi.
Qed.

Lemma saveHistoryMessage_saves chat session msg saved skipped ids :
  message_ids [msg] ⊆ ids →
  keeps (on_db (saves_messages (chat_id chat) session ids))
        (saveHistoryMessage chat session msg saved skipped).
Proof.
  intros Hids. unfold saveHistoryMessage.
  apply keeps_try_catch; [typeclasses eauto| |intros; apply keeps_ret;
                                               typeclasses eauto].
  apply keeps_bind; [typeclasses eauto|apply keeps_Date_now; typeclasses eauto|].
  intros now.
  destruct (getMessageKey msg) as [key|] eqn:Ek;
    [|apply keeps_ret; typeclasses eauto].
  destruct (Js.truthy_str (key_id key)) eqn:Et;
    [|apply keeps_ret; typeclasses eauto].
  apply keeps_seq; [typeclasses eauto| |apply keeps_ret; typeclasses eauto].
  apply saveMessage_saves. intros i Hi. apply Hids.
  eapply elem_of_message_ids;
    [apply list_elem_of_here | exact Ek | exact Hi | exact Et].
Qed.

Lemma message_ids_cons msg rest :
  message_ids (msg :: rest) = message_ids [msg] ++ message_ids rest.
Proof.
  unfold message_ids. simpl. destruct (saved_id msg); reflexivity.
Qed.

Lemma loop_saves chat msgs session saved skipped ids :
  message_ids msgs ⊆ ids →
  keeps (on_db (saves_messages (chat_id chat) session ids))
        (saveMessagesFromHistory_loop chat msgs session saved skipped).
Proof.
  revert saved skipped. induction msgs as [|msg rest IH]; intros saved skipped Hids.
  - simpl. apply keeps_ret; typeclasses eauto.
  - rewrite message_ids_cons in Hids. simpl.
    apply keeps_bind; [typeclasses eauto| |intros counts; apply IH].
    + apply saveHistoryMessage_saves. set_solver.
    + set_solver.
Qed.

(** *** Writes that succeed *)

(** With no fault pending, saving a message with a numeric timestamp for a
    stored conversation succeeds and leaves its row under its id. *)
Lemma saveMessage_succeeds i jid fromMe content t type status sender session w :
  faults w = [] → is_Some (tbl_chats (db w) !! jid) →
  ∃ w', database.saveMessage (Some i) (Some jid) fromMe content (Js.Num t)
          type status sender (Some session) w = (Ok tt, w')
        ∧ tbl_messages (db w') !! i
          = Some {| messages.chat_jid := jid;
                    messages.from_me := fromMe;
                    messages.message_type := Some type;
                    messages.content := Some content;
                    messages.timestamp := t;
                    messages.status := Some status;
                    messages.collection_session := Some session |}
        ∧ tbl_chats (db w') !! jid
          = database.with_last_message (Some i) (Some t) type
              (if fromMe then Some "me" else Some jid)
              (if Js.truthy_str sender && negb fromMe then sender else None)
            <$> tbl_chats (db w) !! jid.
Proof.
  intros Hf [c Hc]. destruct w as [d ck f cs p wt st]. simpl in *. subst f.
  unfold database.saveMessage, database.saveContact, db_method, try_catch,
    mbind, M_bind, bind, run, ret.
  simpl. unfold Sql.replace_message. rewrite Hc. simpl.
  destruct (negb fromMe && Js.truthy_str sender); simpl;
    (eexists; split; [reflexivity|]; simpl;
     split; [apply lookup_insert_eq | rewrite lookup_alter_eq, Hc; reflexivity]).
Qed.

Lemma set_db_same w : set_db (db w) w = w.
Proof. destruct w. reflexivity. Qed.

Lemma db_method_run_ok {A} op (stmt : Store → outcome A) w a s :
  faults w = [] → stmt (db w) = Done a s →
  db_method op (run stmt) w = (Ok a, set_db s w).
Proof.
  intros Hf Hs. unfold db_method. apply try_catch_ok, run_ok; assumption.
Qed.

Lemma getChatHistoryInfo_ok jid w :
  faults w = [] →
  database.getChatHistoryInfo jid w = (Ok (tbl_chats (db w) !! jid), w).
Proof.
  intros Hf. unfold database.getChatHistoryInfo.
  rewrite (db_method_run_ok "getChatHistoryInfo" (Sql.select_chat jid) w
             (tbl_chats (db w) !! jid) (db w) Hf eq_refl).
  rewrite set_db_same. reflexivity.
Qed.

Lemma saveHistoryMessage_succeeds chat session msg saved skipped w i :
  faults w = [] → is_Some (tbl_chats (db w) !! chat_id chat) →
  has_id msg i → has_timestamp (clock w) msg →
  stored (db (snd (saveHistoryMessage chat session msg saved skipped w)))
         (chat_id chat) session i.
Proof.
  intros Hf Hc (key & Hk & Hi & Ht) (t & Hts).
  unfold saveHistoryMessage, try_catch, bind, Date_now. simpl.
  rewrite Hk, Hi, Ht, Hts.
  destruct (saveMessage_succeeds i (chat_id chat) (key_fromMe key)
              (Js.or_str (getDisplayMessage msg) "[Message content unavailable]")
              t (getMessageType msg)
              (if key_fromMe key then "sent" else "received")
              (Some (Js.or_str
                       (Js.or_opt (msg_pushName msg)
                          (Js.or_opt (msg_participant msg) (chat_name chat)))
                       "Unknown"))
              session w Hf Hc) as (w' & Heq & Hrow & _).
  unfold mbind, M_bind, bind. rewrite Heq. simpl.
  eexists. split; [exact Hrow|]. split; reflexivity.
Qed.

(** With no fault pending, every message of the list that carries an id and
    a numeric timestamp is stored when the loop ends. *)
Lemma loop_persists chat msgs session saved skipped w msg i :
  faults w = [] → is_Some (tbl_chats (db w) !! chat_id chat) →
  msg ∈ msgs → has_id msg i → has_timestamp (clock w) msg →
  stored (db (snd (saveMessagesFromHistory_loop chat msgs session saved skipped w)))
         (chat_id chat) session i.
Proof.
  revert saved skipped w.
  induction msgs as [|m rest IH]; intros saved skipped w Hf Hc Hin Hid Hts.
  - inversion Hin.
  - simpl. unfold bind.
    destruct (fault_free_saveHistoryMessage chat session m saved skipped w)
      as [Hclock Hff].
    pose proof (saveHistoryMessage_saves chat session m saved skipped
                  (message_ids [m]) (reflexivity _) w) as Hsv.
    destruct (saveHistoryMessage_counts chat session m saved skipped w)
      as (x & y & Hxy & _).
    pose proof (saveHistoryMessage_succeeds chat session m saved skipped w i Hf Hc)
      as Hst.
    destruct (saveHistoryMessage chat session m saved skipped w) as [r w1].
    simpl in *. subst r. simpl.
    apply elem_of_cons in Hin as [->|Hin].
    + specialize (Hst Hid Hts).
      pose proof (loop_saves chat rest session x y (message_ids rest)
                    (reflexivity _) w1) as (_ & _ & _ & _ & _ & Hkeep).
      apply Hkeep, Hst.
    + apply IH; auto.
      * destruct Hsv as (_ & Hstay & _). apply Hstay, Hc.
      * rewrite Hclock. exact Hts.
Qed.

(** ** One turn of the reconciler, whatever fails *)

#[global] Instance others_kept_po jid ids : PreOrder (others_kept jid ids).
Proof.
  split.
  - intros s. split; auto.
  - intros a b c [A1 A2] [B1 B2]. split; [congruence|].
    intros i r Hi Hr Hn. apply B2; auto.
Qed.

Lemma turn_effects_others jid ids j ids' s s' :
  jid ≠ j → ids ⊆ ids' → turn_effects jid ids s s' → others_kept j ids' s s'.
Proof.
  intros Hne Hsub (A1 & _ & A3 & _). split.
  - apply A1. congruence.
  - intros i r Hi Hr Hn. apply A3; [exact Hi | congruence | set_solver].
Qed.

Lemma update_chat_turn op f jid ids :
  keeps (on_db (turn_effects jid ids))
        (db_method op (run (Sql.update_chat f (Some jid)))).
Proof.
  apply keeps_db_method; [typeclasses eauto|].
  apply keeps_run; [typeclasses eauto|].
  intros s a s' H. apply update_chat_done in H as (Hm & _ & Hc).
  unfold turn_effects, same_or_gone. rewrite Hm. repeat split; auto.
  - intros j Hj. rewrite Hc. case_bool_decide as E; [congruence | reflexivity].
  - intros j Hj. rewrite Hc. case_bool_decide; [apply fmap_is_Some|]; exact Hj.
Qed.

Lemma getChatHistoryInfo_turn jid0 ids jid :
  keeps (on_db (turn_effects jid0 ids)) (database.getChatHistoryInfo jid).
Proof.
  apply keeps_db_method; [typeclasses eauto|].
  apply keeps_run; [typeclasses eauto|].
  intros s a s' H. apply select_chat_same in H as ->. reflexivity.
Qed.

Lemma saveContact_turn jid0 ids jid name phone avatar :
  keeps (on_db (turn_effects jid0 ids))
        (database.saveContact jid name phone avatar).
Proof.
  eapply keeps_weaken; [|apply (saveContact_saves jid0 "" ids)].
  intros w w'. apply saves_messages_turn.
Qed.

Lemma saveHistoryChat_turn chat data ids :
  cd_jid data = chat_id chat →
  keeps (on_db (turn_effects (chat_id chat) ids)) (saveHistoryChat chat data).
Proof.
  intros Hjid. unfold saveHistoryChat. rewrite Hjid.
  apply keeps_seq; [typeclasses eauto| |].
  - apply keeps_db_method; [typeclasses eauto|].
    apply keeps_run; [typeclasses eauto|].
    intros s a s' H.
    apply replace_chat_done in H as ((r & Hr & _) & H2 & _ & H4 & H5 & _).
    unfold turn_effects. split; [exact H2|]. split; [|split].
    + intros j Hj. destruct (decide (j = chat_id chat)) as [->|Hne].
      * rewrite Hr. eauto.
      * rewrite H2 by exact Hne. exact Hj.
    + intros i r0 Hi Hne _. apply H5; assumption.
    + intros i _. apply H4.
  - apply keeps_if; [apply saveContact_turn | apply keeps_ret; typeclasses eauto].
Qed.

Lemma saveMessagesFromHistory_turn chat session ids :
  message_ids (chat_messages chat) ⊆ ids →
  keeps (on_db (turn_effects (chat_id chat) ids))
        (saveMessagesFromHistory chat session).
Proof.
  intros Hids. eapply keeps_weaken;
    [|apply (loop_saves chat (chat_messages chat) session 0 0 ids Hids)].
  intros w w'. apply saves_messages_turn.
Qed.

Lemma message_ids_filter (P : RawMessage → bool) msgs :
  message_ids (List.filter P msgs) ⊆ message_ids msgs.
Proof.
  intros i Hi. unfold message_ids in *.
  apply list_elem_of_omap in Hi as (m & Hm & Hi).
  apply list_elem_of_omap. exists m. split; [|exact Hi].
  apply list_elem_of_In in Hm. apply filter_In in Hm as [Hm _].
  apply list_elem_of_In, Hm.
Qed.

Lemma saveInitialHistory_turn T chat ids :
  message_ids (chat_messages chat) ⊆ ids →
  keeps (on_db (turn_effects (chat_id chat) ids)) (saveInitialHistory T chat).
Proof.
  intros Hids. unfold saveInitialHistory.
  destruct (last (chat_messages chat)); [|apply keeps_ret; typeclasses eauto].
  apply keeps_bind; [typeclasses eauto|apply keeps_Date_now; typeclasses eauto|].
  intros now.
  apply keeps_seq; [typeclasses eauto|apply update_chat_turn|].
  apply keeps_seq;
    [typeclasses eauto|apply keeps_Date_toISOString; typeclasses eauto|].
  apply keeps_seq; [typeclasses eauto| |apply keeps_ret; typeclasses eauto].
  apply saveMessagesFromHistory_turn, Hids.
Qed.

Lemma saveProgressiveHistory_turn T chat info ids :
  message_ids (chat_messages chat) ⊆ ids →
  keeps (on_db (turn_effects (chat_id chat) ids))
        (saveProgressiveHistory T chat info).
Proof.
  intros Hids. unfold saveProgressiveHistory.
  apply keeps_bind; [typeclasses eauto|apply keeps_Date_now; typeclasses eauto|].
  intros now.
  pose proof (message_ids_filter
                (λ msg, Js.gt (getMessageTimestamp now msg)
                              (null_num (info ≫= lastSyncTime)))
                (chat_messages chat)) as Hsub.
  unfold newMessages.
  destruct (List.filter _ (chat_messages chat)) as [|m fresh];
    [apply keeps_ret; typeclasses eauto|].
  apply keeps_seq;
    [typeclasses eauto|apply keeps_Date_toISOString; typeclasses eauto|].
  apply keeps_seq; [typeclasses eauto| |apply keeps_ret; typeclasses eauto].
  apply (saveMessagesFromHistory_turn (with_messages (m :: fresh) chat)).
  simpl. set_solver.
Qed.

Lemma reconcileChat_turn T chat info data ids :
  cd_jid data = chat_id chat →
  message_ids (chat_messages chat) ⊆ ids →
  keeps (on_db (turn_effects (chat_id chat) ids)) (reconcileChat T chat info data).
Proof.
  intros Hjid Hids. unfold reconcileChat.
  apply keeps_seq; [typeclasses eauto|apply saveHistoryChat_turn, Hjid|].
  apply keeps_seq; [typeclasses eauto| |].
  - apply keeps_if;
      [apply saveInitialHistory_turn | apply saveProgressiveHistory_turn];
      exact Hids.
  - apply keeps_seq; [typeclasses eauto|apply update_chat_turn|].
    apply keeps_ret; typeclasses eauto.
Qed.

Lemma historyChatData_jid now chat data :
  historyChatData now chat = Ok data → cd_jid data = chat_id chat.
Proof.
  unfold historyChatData. intros H.
  destruct (head (chat_messages chat)) as [m|];
    [destruct (msg_key m)|]; try discriminate; injection H as <-; reflexivity.
Qed.

(** A turn leaves the other conversations alone, and the messages of other
    conversations under other ids, whether it completes or throws on the
    way. *)
Lemma processHistoryChat_turn T chat acc ids :
  message_ids (chat_messages chat) ⊆ ids →
  keeps (on_db (turn_effects (chat_id chat) ids)) (processHistoryChat T chat acc).
Proof.
  intros Hids. unfold processHistoryChat.
  apply keeps_try_catch; [typeclasses eauto| |intros; apply keeps_ret;
                                               typeclasses eauto].
  apply keeps_bind; [typeclasses eauto|apply getChatHistoryInfo_turn|].
  intros info.
  apply keeps_bind; [typeclasses eauto|apply keeps_Date_now; typeclasses eauto|].
  intros now.
  destruct (historyChatData now chat) as [data|e] eqn:E;
    [|apply keeps_throw; typeclasses eauto].
  apply keeps_try_catch; [typeclasses eauto| |intros; apply keeps_ret;
                                               typeclasses eauto].
  apply keeps_seq; [typeclasses eauto| |apply keeps_ret; typeclasses eauto].
  apply reconcileChat_turn; [eapply historyChatData_jid, E | exact Hids].
Qed.

(** A turn returns, whatever happens inside. *)
Lemma processHistoryChat_total T chat acc : total (processHistoryChat T chat acc).
Proof.
  intros w. unfold processHistoryChat, try_catch.
  destruct (bind _ _ w) as [[a|e] w1]; simpl; eauto.
Qed.

Lemma handleHistorySet_loop_total T chats acc :
  total (handleHistorySet_loop T chats acc).
Proof.
  revert acc. induction chats as [|c rest IH]; intros acc w.
  - simpl. eauto.
  - simpl. unfold bind.
    destruct (processHistoryChat_total T c acc w) as [a Ha].
    destruct (processHistoryChat T c acc w) as [r w1]. simpl in Ha. subst r.
    apply IH.
Qed.

Lemma delivery_ids_cons c rest :
  delivery_ids (c :: rest) = message_ids (chat_messages c) ++ delivery_ids rest.
Proof. reflexivity. Qed.

(** The turns of the conversations of a list leave a conversation that is
    not in the list alone, and its messages under ids that the list does not
    use. *)
Lemma handleHistorySet_loop_others T chats acc j ids :
  Forall (λ c, chat_id c ≠ j) chats → delivery_ids chats ⊆ ids →
  keeps (on_db (others_kept j ids)) (handleHistorySet_loop T chats acc).
Proof.
  revert acc. induction chats as [|c rest IH]; intros acc Hne Hids.
  - simpl. apply keeps_ret; typeclasses eauto.
  - simpl. rewrite delivery_ids_cons in Hids.
    apply Forall_cons in Hne as [Hc Hrest].
    apply keeps_bind; [typeclasses eauto| |intros acc1; apply IH].
    2: exact Hrest.
    2: { intros i Hi. apply Hids, elem_of_app. right. exact Hi. }
    eapply keeps_weaken;
      [|apply (processHistoryChat_turn T c acc (message_ids (chat_messages c)));
        reflexivity].
    intros w w'. apply turn_effects_others; [exact Hc | set_solver].
Qed.

(** *** A turn that completes *)

Lemma bind_ok_inv {A B} (m : M A) (k : A → M B) w b w' :
  bind m k w = (Ok b, w') → ∃ a w1, m w = (Ok a, w1) ∧ k a w1 = (Ok b, w').
Proof.
  unfold bind. destruct (m w) as [[a|e] w1]; [eauto | discriminate].
Qed.

Lemma seq_ok_inv {A B} (m : M A) (k : M B) w b w' :
  (m;; k) w = (Ok b, w') → ∃ a w1, m w = (Ok a, w1) ∧ k w1 = (Ok b, w').
Proof. apply bind_ok_inv. Qed.

Lemma db_method_ok_inv {A} op (m : M A) w a w' :
  db_method op m w = (Ok a, w') → m w = (Ok a, w').
Proof.
  unfold db_method, try_catch, throw.
  destruct (m w) as [[a0|e] w1]; [auto | discriminate].
Qed.

Lemma run_ok_inv {A} (stmt : Store → outcome A) w a w' :
  run stmt w = (Ok a, w') → stmt (db w) = Done a (db w').
Proof.
  unfold run. destruct (faults w) as [|[] rest]; try discriminate;
    simpl; destruct (stmt (db w)) as [a0 s|]; try discriminate;
    intros H; injection H as <- <-; reflexivity.
Qed.

Lemma saveHistoryChat_ok_stored chat data w w' :
  cd_jid data = chat_id chat →
  saveHistoryChat chat data w = (Ok tt, w') →
  is_Some (tbl_chats (db w') !! chat_id chat).
Proof.
  intros Hjid H. unfold saveHistoryChat in H. rewrite Hjid in H.
  apply seq_ok_inv in H as ([] & w1 & H1 & H2).
  apply db_method_ok_inv, run_ok_inv, replace_chat_done in H1
    as ((r & Hr & _) & _).
  assert (Hs : is_Some (tbl_chats (db w1) !! chat_id chat)) by (rewrite Hr; eauto).
  destruct (Js.truthy_str (chat_name chat) && _).
  - pose proof (saveContact_turn (chat_id chat) [] (chat_id chat)
                  (chat_name chat) None None w1) as (_ & Hstay & _).
    rewrite H2 in Hstay. apply Hstay, Hs.
  - injection H2 as <-. exact Hs.
Qed.


Lemma completes_turn T chat acc w w' :
  completes T chat w w' → snd (processHistoryChat T chat acc w) = w'.
Proof.
  intros (info & w1 & data & Hi & Hd & Hr).
  unfold processHistoryChat, try_catch, bind. rewrite Hi.
  unfold Date_now. rewrite Hd.
  unfold mbind, M_bind, bind. rewrite Hr. reflexivity.
Qed.


Lemma handleHistorySet_loop_app T pre post acc w :
  handleHistorySet_loop T (pre ++ post) acc w
  = match handleHistorySet_loop T pre acc w with
    | (Ok acc1, w1) => handleHistorySet_loop T post acc1 w1
    | (Throw e, w1) => (Throw e, w1)
    end.
Proof.
  revert acc w. induction pre as [|c pre IH]; intros acc w.
  - reflexivity.
  - simpl. unfold bind.
    destruct (processHistoryChat T c acc w) as [[acc1|e] w1];
      [apply IH | reflexivity].
Qed.



(** ** One turn of the reconciler when nothing fails *)

Lemma succeeds_ret {A} (a : A) : succeeds (ret a).
Proof. intros w _. exists a. reflexivity. Qed.

Lemma succeeds_total {A} (m : M A) : total m → succeeds m.
Proof. intros H w _. apply H. Qed.

Lemma succeeds_bind {A B} (m : M A) (k : A → M B) :
  succeeds m → keeps fault_free m → (∀ a, succeeds (k a)) → succeeds (bind m k).
Proof.
  intros Hm Hk Hs w Hf. unfold bind.
  destruct (Hm w Hf) as [a Ha]. destruct (Hk w) as [_ Hf1].
  destruct (m w) as [r w1]. simpl in *. subst r. apply Hs, Hf1, Hf.
Qed.

Lemma succeeds_seq {A B} (m : M A) (k : M B) :
  succeeds m → keeps fault_free m → succeeds k → succeeds (m;; k).
Proof. intros Hm Hk Hs. apply succeeds_bind; auto. Qed.

Lemma succeeds_db_method_run {A} op (stmt : Store → outcome A) :
  (∀ s, ∃ a s', stmt s = Done a s') → succeeds (db_method op (run stmt)).
Proof.
  intros Hs w Hf. destruct (Hs (db w)) as (a & s' & E).
  exists a. rewrite (db_method_run_ok op stmt w a s' Hf E). reflexivity.
Qed.

Lemma succeeds_saveContact jid name phone avatar :
  succeeds (database.saveContact jid name phone avatar).
Proof. apply succeeds_db_method_run. intros s. eexists _, _. reflexivity. Qed.

Lemma succeeds_update_chat op f jid :
  succeeds (db_method op (run (Sql.update_chat f (Some jid)))).
Proof. apply succeeds_db_method_run. intros s. eexists _, _. reflexivity. Qed.

Lemma succeeds_saveHistoryChat chat data : succeeds (saveHistoryChat chat data).
Proof.
  unfold saveHistoryChat. apply succeeds_seq.
  - apply succeeds_db_method_run. intros s. eexists _, _. reflexivity.
  - apply fault_free_saveChat.
  - destruct (_ && _); [apply succeeds_saveContact | apply succeeds_ret].
Qed.

Lemma fault_free_saveHistoryChat chat data :
  keeps fault_free (saveHistoryChat chat data).
Proof.
  unfold saveHistoryChat. apply keeps_seq; [typeclasses eauto| |].
  - apply fault_free_saveChat.
  - apply keeps_if; [apply fault_free_saveContact | apply keeps_ret; typeclasses eauto].
Qed.

Lemma loop_total chat msgs session saved skipped :
  total (saveMessagesFromHistory_loop chat msgs session saved skipped).
Proof.
  intros w. destruct (loop_counts chat msgs session saved skipped w)
    as (a & b & H & _). eauto.
Qed.

Lemma Date_toISOString_ok t w :
  Js.valid_time t = true → Date_toISOString t w = (Ok tt, w).
Proof. unfold Date_toISOString. intros ->. reflexivity. Qed.

Lemma Date_toISOString_throws t w :
  Js.valid_time t = false → ∃ e, Date_toISOString t w = (Throw e, w).
Proof. unfold Date_toISOString. intros ->. eexists. reflexivity. Qed.

Lemma snd_seq_ret {A B} (m : M A) (b : B) w : snd ((m;; ret b) w) = snd (m w).
Proof.
  unfold mbind, M_bind, bind. destruct (m w) as [[a|e] w1]; reflexivity.
Qed.

Lemma fst_seq_ret {A B} (m : M A) (b : B) w a :
  fst (m w) = Ok a → fst ((m;; ret b) w) = Ok b.
Proof.
  unfold mbind, M_bind, bind. destruct (m w) as [r w1]. simpl. intros ->.
  reflexivity.
Qed.

Lemma snd_seq_ok {A B} (m : M A) (k : M B) w a :
  fst (m w) = Ok a → snd ((m;; k) w) = snd (k (snd (m w))).
Proof.
  unfold mbind, M_bind, bind. destruct (m w) as [r w1]. simpl. intros ->.
  reflexivity.
Qed.

Lemma pair_eta {A B} (p : A * B) a : fst p = a → p = (a, snd p).
Proof. destruct p. simpl. intros ->. reflexivity. Qed.

(** With no fault pending, the state after a turn is the state after its
    stages, run one after the other: the conversation is saved, then its
    messages, and when that returns the last-sync cursor is set. *)
Lemma turn_stages T chat acc data w :
  faults w = [] → historyChatData (clock w) chat = Ok data →
  let info := tbl_chats (db w) !! chat_id chat in
  let w1 := snd (saveHistoryChat chat data w) in
  let stage := if isNewChat info then saveInitialHistory T chat
               else saveProgressiveHistory T chat info in
  snd (processHistoryChat T chat acc w)
  = match fst (stage w1) with
    | Ok _ =>
        snd (database.updateChatSyncTimestamp (chat_id chat) (Js.Num T)
               (snd (stage w1)))
    | Throw _ => snd (stage w1)
    end.
Proof.
  intros Hf Hd info w1 stage.
  unfold processHistoryChat, try_catch at 1, bind at 1.
  rewrite (getChatHistoryInfo_ok _ w Hf). unfold bind at 1, Date_now.
  rewrite Hd. fold info.
  assert (E : ∀ (X Y : list ChatData) (m : M unit),
            snd (try_catch (m;; ret X) (λ _, ret Y) w) = snd (m w)).
  { intros X Y m. unfold try_catch, mbind, M_bind, bind.
    destruct (m w) as [[[]|e] w0]; reflexivity. }
  transitivity (snd (reconcileChat T chat info data w)).
  { destruct (try_catch _ _ w) as [[a|e] w0] eqn:E1;
      rewrite <- (E (acc ++ [data]) (acc ++ [data])), E1; reflexivity. }
  unfold reconcileChat.
  destruct (succeeds_saveHistoryChat chat data w Hf) as [[] H1].
  rewrite (snd_seq_ok _ _ w tt H1). fold w1. fold stage.
  unfold mbind at 1, M_bind at 1, bind at 1.
  destruct (stage w1) as [[[]|e] w2]; [|reflexivity].
  cbn [fst snd]. apply snd_seq_ret.
Qed.

#[global] Instance cursor_moved_po jid : PreOrder (cursor_moved jid).
Proof.
  split.
  - intros s. split; reflexivity.
  - intros a b c [A1 A2] [B1 B2]. split; congruence.
Qed.

Lemma updateChatSyncTimestamp_moves jid ts :
  keeps (on_db (cursor_moved jid)) (database.updateChatSyncTimestamp jid ts).
Proof.
  apply keeps_db_method; [typeclasses eauto|].
  apply keeps_run; [typeclasses eauto|].
  intros s a s' H. apply update_chat_done in H as (Hm & _ & Hc).
  split; [exact Hm|]. unfold baseline. rewrite Hc.
  rewrite bool_decide_eq_true_2 by reflexivity. apply baseline_fmap. reflexivity.
Qed.

(** Whether the stage of the messages returns or throws, the turn leaves
    the messages and the baseline cursor as that stage has left them. *)
Lemma turn_after_stages T chat acc data w :
  faults w = [] → historyChatData (clock w) chat = Ok data →
  let info := tbl_chats (db w) !! chat_id chat in
  let w1 := snd (saveHistoryChat chat data w) in
  let stage := if isNewChat info then saveInitialHistory T chat
               else saveProgressiveHistory T chat info in
  cursor_moved (chat_id chat) (db (snd (stage w1)))
               (db (snd (processHistoryChat T chat acc w))).
Proof.
  intros Hf Hd info w1 stage.
  rewrite (turn_stages T chat acc data w Hf Hd). fold info w1 stage.
  destruct (fst (stage w1)); [|reflexivity].
  apply (updateChatSyncTimestamp_moves (chat_id chat) (Js.Num T)).
Qed.

Lemma stored_same_messages s s' jid session i :
  tbl_messages s' = tbl_messages s → stored s jid session i →
  stored s' jid session i.
Proof. unfold stored. intros ->. auto. Qed.

(** After the first stage the conversation is stored, no fault is pending,
    and every message row is as before or gone. *)
Lemma saveHistoryChat_stage chat data w :
  faults w = [] → cd_jid data = chat_id chat →
  let w1 := snd (saveHistoryChat chat data w) in
  faults w1 = [] ∧ clock w1 = clock w
  ∧ is_Some (tbl_chats (db w1) !! chat_id chat)
  ∧ ∀ i, same_or_gone i (db w) (db w1).
Proof.
  intros Hf Hjid w1.
  destruct (fault_free_saveHistoryChat chat data w) as [Hc Hff].
  destruct (succeeds_saveHistoryChat chat data w Hf) as [[] H1].
  apply pair_eta in H1. fold w1 in H1.
  split; [apply Hff, Hf|]. split; [exact Hc|]. split.
  - eapply saveHistoryChat_ok_stored; [exact Hjid | exact H1].
  - intros i.
    destruct (saveHistoryChat_turn chat data [] Hjid w) as (_ & _ & _ & H4).
    apply H4, not_elem_of_nil.
Qed.

(** The second stage for a conversation without baseline: the baseline is
    set to the timestamp of the last message of the list; when that is a
    valid date, the stage returns and the messages are saved. *)
Lemma saveInitialHistory_stage T chat oldest w :
  faults w = [] → is_Some (tbl_chats (db w) !! chat_id chat) →
  last (chat_messages chat) = Some oldest →
  let ts := getMessageTimestamp (clock w) oldest in
  let r := saveInitialHistory T chat w in
  baseline (db (snd r)) (chat_id chat) = bind_num ts
  ∧ (Js.valid_time ts = true →
     fst r = Ok tt
     ∧ ∀ msg i, msg ∈ chat_messages chat → has_id msg i →
                has_timestamp (clock w) msg →
                stored (db (snd r)) (chat_id chat)
                       ("initial-sync-" +:+ pretty T) i)
  ∧ (Js.valid_time ts = false →
     tbl_messages (db (snd r)) = tbl_messages (db w)).
Proof.
  intros Hf Hs Hlast ts r.
  set (w1 := snd (database.setChatHistoryBaseline (chat_id chat) ts w)).
  destruct (succeeds_update_chat "setChatHistoryBaseline"
              (database.with_baseline (bind_num ts)) (chat_id chat) w Hf)
    as [b Hb].
  fold (database.setChatHistoryBaseline (chat_id chat) ts) in Hb.
  apply pair_eta in Hb. fold w1 in Hb.
  assert (E : r = (Date_toISOString ts;;
                   saveMessagesFromHistory chat ("initial-sync-" +:+ pretty T);;
                   ret tt) w1).
  { subst r. unfold saveInitialHistory. rewrite Hlast.
    unfold bind at 1, Date_now. fold ts. apply (seq_ok _ _ w b w1 Hb). }
  destruct (fault_free_setChatHistoryBaseline (chat_id chat) ts w) as [Hc Hff].
  fold w1 in Hc, Hff. specialize (Hff Hf).
  apply db_method_ok_inv, run_ok_inv, update_chat_done in Hb as (Hm & _ & Hrow).
  assert (Hs1 : is_Some (tbl_chats (db w1) !! chat_id chat)).
  { rewrite Hrow, bool_decide_eq_true_2 by reflexivity.
    apply fmap_is_Some, Hs. }
  assert (Hb1 : baseline (db w1) (chat_id chat) = bind_num ts).
  { unfold baseline. rewrite Hrow, bool_decide_eq_true_2 by reflexivity.
    destruct Hs as [c ->]. reflexivity. }
  destruct (Js.valid_time ts) eqn:Ev.
  - rewrite (seq_ok _ _ w1 tt w1 (Date_toISOString_ok ts w1 Ev)) in E.
    unfold saveMessagesFromHistory in E.
    destruct (loop_total chat (chat_messages chat)
                ("initial-sync-" +:+ pretty T) 0 0 w1) as [counts Hcounts].
    assert (E2 : snd r = snd (saveMessagesFromHistory_loop chat
                                (chat_messages chat)
                                ("initial-sync-" +:+ pretty T) 0 0 w1))
      by (rewrite E; apply snd_seq_ret).
    assert (E1 : fst r = Ok tt)
      by (rewrite E; apply (fst_seq_ret _ tt w1 counts Hcounts)).
    rewrite E2.
    pose proof (loop_saves chat (chat_messages chat)
                  ("initial-sync-" +:+ pretty T) 0 0
                  (message_ids (chat_messages chat)) (reflexivity _) w1)
      as (_ & _ & Hbase & _).
    split; [rewrite Hbase; exact Hb1|]. split; [|discriminate].
    intros _. split; [exact E1|].
    intros msg i Hin Hid Hts.
    apply (loop_persists chat (chat_messages chat) _ 0 0 w1 msg i Hff Hs1 Hin Hid).
    rewrite Hc. exact Hts.
  - destruct (Date_toISOString_throws ts w1 Ev) as [e He].
    assert (E2 : r = (Throw e, w1)).
    { rewrite E. unfold mbind at 1, M_bind at 1, bind at 1. rewrite He.
      reflexivity. }
    rewrite E2. cbn [fst snd].
    split; [exact Hb1|]. split; [discriminate|]. intros _. exact Hm.
Qed.

Lemma elem_of_newMessages now lastSync msgs msg :
  msg ∈ newMessages now lastSync msgs
  ↔ msg ∈ msgs ∧ Js.gt (getMessageTimestamp now msg) (null_num lastSync) = true.
Proof.
  unfold newMessages. rewrite !list_elem_of_In, filter_In. reflexivity.
Qed.

Lemma message_ids_has_id i msgs :
  i ∈ message_ids msgs → ∃ msg, msg ∈ msgs ∧ has_id msg i.
Proof.
  unfold message_ids. intros H.
  apply list_elem_of_omap in H as (msg & Hin & Hid).
  exists msg. split; [exact Hin|]. unfold saved_id in Hid.
  destruct (getMessageKey msg) as [key|] eqn:Ek; [|discriminate].
  destruct (Js.truthy_str (key_id key)) eqn:Et; [|discriminate].
  exists key. split; [exact Ek|]. split; [exact Hid|].
  rewrite <- Hid. exact Et.
Qed.

(** What the second stage does for a conversation with a baseline. *)
Lemma saveProgressiveHistory_unfold T chat info w :
  let lastSync := info ≫= lastSyncTime in
  let new := newMessages (clock w) lastSync (chat_messages chat) in
  saveProgressiveHistory T chat info w
  = match new with
    | [] => (Ok tt, w)
    | _ :: _ =>
        (Date_toISOString (null_num lastSync);;
         saveMessagesFromHistory_loop (with_messages new chat) new
           ("progressive-sync-" +:+ pretty T) 0 0;;
         ret tt) w
    end.
Proof.
  intros lastSync new. unfold saveProgressiveHistory, bind at 1, Date_now.
  fold lastSync. fold new. destruct new; reflexivity.
Qed.

(** The second stage for a conversation with a baseline: when the cursor
    that the delivered messages are compared with is a valid date, the
    stage returns and the newer messages are saved; no row is written under
    the id of a message that is not newer. *)
Lemma saveProgressiveHistory_stage T chat info w :
  faults w = [] → is_Some (tbl_chats (db w) !! chat_id chat) →
  let lastSync := null_num (info ≫= lastSyncTime) in
  let fresh msg := Js.gt (getMessageTimestamp (clock w) msg) lastSync in
  let r := saveProgressiveHistory T chat info w in
  (Js.valid_time lastSync = true →
     fst r = Ok tt
     ∧ ∀ msg i, msg ∈ chat_messages chat → has_id msg i → fresh msg = true →
                stored (db (snd r)) (chat_id chat)
                       ("progressive-sync-" +:+ pretty T) i)
  ∧ (∀ i, (∀ msg, msg ∈ chat_messages chat → has_id msg i → fresh msg = false) →
          tbl_messages (db (snd r)) !! i = tbl_messages (db w) !! i)
  ∧ baseline (db (snd r)) (chat_id chat) = baseline (db w) (chat_id chat).
Proof.
  intros Hf Hs lastSync fresh r.
  set (new := newMessages (clock w) (info ≫= lastSyncTime) (chat_messages chat)).
  assert (Hnew : ∀ msg, msg ∈ new ↔ msg ∈ chat_messages chat ∧ fresh msg = true).
  { intros msg. apply elem_of_newMessages. }
  set (w2 := snd (saveMessagesFromHistory_loop (with_messages new chat) new
                    ("progressive-sync-" +:+ pretty T) 0 0 w)).
  pose proof (loop_saves (with_messages new chat) new
                ("progressive-sync-" +:+ pretty T) 0 0 (message_ids new)
                (reflexivity _) w) as (_ & _ & Hbase & _ & Hsame & _).
  fold w2 in Hbase, Hsame. simpl in Hbase.
  assert (Hstored : ∀ msg i, msg ∈ chat_messages chat → has_id msg i →
            fresh msg = true →
            stored (db w2) (chat_id chat) ("progressive-sync-" +:+ pretty T) i).
  { intros msg i Hin Hid Hfresh.
    apply (loop_persists (with_messages new chat) new _ 0 0 w msg i Hf Hs).
    - apply Hnew. auto.
    - exact Hid.
    - unfold fresh, Js.gt in Hfresh. unfold has_timestamp.
      destruct (getMessageTimestamp (clock w) msg) as [t|]; [eauto | discriminate]. }
  assert (Hrest : ∀ i, (∀ msg, msg ∈ chat_messages chat → has_id msg i →
                               fresh msg = false) →
            tbl_messages (db w2) !! i = tbl_messages (db w) !! i).
  { intros i Hi. apply Hsame. intros Hin.
    apply message_ids_has_id in Hin as (msg & Hm & Hid).
    apply Hnew in Hm as [Hm Hfresh]. rewrite (Hi msg Hm Hid) in Hfresh.
    discriminate. }
  assert (E : r = match new with
                  | [] => (Ok tt, w)
                  | _ :: _ =>
                      if Js.valid_time lastSync then (Ok tt, w2)
                      else (fst (Date_toISOString lastSync w), w)
                  end).
  { subst r. rewrite saveProgressiveHistory_unfold. fold new. fold lastSync.
    destruct new as [|m rest] eqn:En; [reflexivity|].
    destruct (Js.valid_time lastSync) eqn:Ev.
    - rewrite (seq_ok _ _ w tt w (Date_toISOString_ok lastSync w Ev)).
      destruct (loop_total (with_messages (m :: rest) chat) (m :: rest)
                  ("progressive-sync-" +:+ pretty T) 0 0 w) as [counts Hcounts].
      rewrite (pair_eta _ _ (fst_seq_ret _ tt w counts Hcounts)), snd_seq_ret.
      reflexivity.
    - destruct (Date_toISOString_throws lastSync w Ev) as [e He].
      unfold mbind at 1, M_bind at 1, bind at 1. rewrite He. reflexivity. }
  assert (Hnil : new = [] → w2 = w).
  { intros En. subst w2. rewrite En. reflexivity. }
  rewrite E. destruct new as [|m rest] eqn:En.
  - rewrite <- (Hnil eq_refl). cbn [fst snd].
    split; [intros _; split; [reflexivity | exact Hstored]|].
    split; [exact Hrest | exact Hbase].
  - destruct (Js.valid_time lastSync); cbn [fst snd].
    + split; [intros _; split; [reflexivity | exact Hstored]|].
      split; [exact Hrest | exact Hbase].
    + split; [discriminate|]. split; [reflexivity | reflexivity].
Qed.

Lemma historyChatData_ok now chat :
  (∀ m, head (chat_messages chat) = Some m → is_Some (msg_key m)) →
  ∃ data, historyChatData now chat = Ok data.
Proof.
  intros H. unfold historyChatData.
  destruct (head (chat_messages chat)) as [m|]; [|eauto].
  destruct (H m eq_refl) as [key ->]. eauto.
Qed.

(** One turn with no failing store call, for a conversation without and
    with a baseline cursor. *)
Lemma turn_new_and_known T chat acc w :
  faults w = [] →
  (∀ m, head (chat_messages chat) = Some m → is_Some (msg_key m)) →
  let jid := chat_id chat in
  let now := clock w in
  let msgs := chat_messages chat in
  let info := tbl_chats (db w) !! jid in
  let w' := snd (processHistoryChat T chat acc w) in
  let lastSync := null_num (info ≫= lastSyncTime) in
  let fresh msg := Js.gt (getMessageTimestamp now msg) lastSync in
  (isNewChat info = true →
     ∀ oldest, last msgs = Some oldest →
       baseline (db w') jid = bind_num (getMessageTimestamp now oldest)
       ∧ (Js.valid_time (getMessageTimestamp now oldest) = true →
          ∀ msg i, msg ∈ msgs → has_id msg i → has_timestamp now msg →
                   stored (db w') jid ("initial-sync-" +:+ pretty T) i))
  ∧ (isNewChat info = false →
     (Js.valid_time lastSync = true →
        ∀ msg i, msg ∈ msgs → has_id msg i → fresh msg = true →
                 stored (db w') jid ("progressive-sync-" +:+ pretty T) i)
     ∧ (∀ i, (∀ msg, msg ∈ msgs → has_id msg i → fresh msg = false) →
             same_or_gone i (db w) (db w'))).
Proof.
  intros Hf Hkey jid now msgs info w' lastSync fresh. subst jid now msgs.
  destruct (historyChatData_ok (clock w) chat Hkey) as [data Hd].
  pose proof (turn_after_stages T chat acc data w Hf Hd) as Hst.
  cbv zeta in Hst. fold info in Hst. fold w' in Hst.
  set (w1 := snd (saveHistoryChat chat data w)) in *.
  destruct (saveHistoryChat_stage chat data w Hf (historyChatData_jid _ _ _ Hd))
    as (Hf1 & Hc1 & Hs1 & Hg1). fold w1 in Hf1, Hc1, Hs1, Hg1.
  split; intros Hnew; rewrite Hnew in Hst; destruct Hst as [Hm3 Hb3].
  - intros oldest Hlast.
    destruct (saveInitialHistory_stage T chat oldest w1 Hf1 Hs1 Hlast)
      as (Hb & Hsaved & _).
    rewrite Hc1 in Hb, Hsaved. split; [rewrite Hb3; exact Hb|].
    intros Hv msg i Hin Hid Hts.
    apply (stored_same_messages _ _ _ _ _ Hm3).
    apply (proj2 (Hsaved Hv) msg i Hin Hid Hts).
  - destruct (saveProgressiveHistory_stage T chat info w1 Hf1 Hs1)
      as (Hsaved & Hsame & _).
    rewrite Hc1 in Hsaved, Hsame. split.
    + intros Hv msg i Hin Hid Hfresh.
      apply (stored_same_messages _ _ _ _ _ Hm3).
      exact (proj2 (Hsaved Hv) msg i Hin Hid Hfresh).
    + intros i Hi. unfold same_or_gone. rewrite Hm3, (Hsame i Hi).
      apply Hg1.
Qed.

(** ** The turns of a delivery *)

Lemma fault_free_reconcileChat T chat info data :
  keeps fault_free (reconcileChat T chat info data).
Proof.
  unfold reconcileChat.
  apply keeps_seq; [typeclasses eauto|apply fault_free_saveHistoryChat|].
  apply keeps_seq; [typeclasses eauto| |].
  - apply keeps_if.
    + unfold saveInitialHistory.
      destruct (last (chat_messages chat)); [|keep_going].
      apply keeps_bind; [typeclasses eauto|keep_going|]. intros now.
      apply keeps_seq;
        [typeclasses eauto|apply fault_free_setChatHistoryBaseline|].
      apply keeps_seq; [typeclasses eauto|keep_going|].
      apply keeps_seq; [typeclasses eauto|apply fault_free_loop|keep_going].
    + unfold saveProgressiveHistory.
      apply keeps_bind; [typeclasses eauto|keep_going|]. intros now.
      destruct (newMessages _ _ _); [keep_going|].
      apply keeps_seq; [typeclasses eauto|keep_going|].
      apply keeps_seq; [typeclasses eauto|apply fault_free_loop|keep_going].
  - unfold database.updateChatSyncTimestamp. keep_going.
Qed.

Lemma fault_free_processHistoryChat T chat acc :
  keeps fault_free (processHistoryChat T chat acc).
Proof.
  unfold processHistoryChat.
  apply keeps_try_catch; [typeclasses eauto| |keep_going].
  apply keeps_bind;
    [typeclasses eauto|unfold database.getChatHistoryInfo; keep_going|].
  intros info.
  apply keeps_bind; [typeclasses eauto|keep_going|]. intros now.
  destruct (historyChatData now chat); [|keep_going].
  apply keeps_try_catch; [typeclasses eauto| |keep_going].
  apply keeps_seq; [typeclasses eauto|apply fault_free_reconcileChat|keep_going].
Qed.

Lemma fault_free_handleHistorySet_loop T chats acc :
  keeps fault_free (handleHistorySet_loop T chats acc).
Proof.
  revert acc. induction chats as [|c rest IH]; intros acc; simpl.
  - keep_going.
  - apply keeps_bind; [typeclasses eauto| |intros acc1; apply IH].
    apply fault_free_processHistoryChat.
Qed.

(** The state that a turn leaves does not depend on the list collected so
    far. *)
Lemma processHistoryChat_state T chat acc acc' w :
  snd (processHistoryChat T chat acc w) = snd (processHistoryChat T chat acc' w).
Proof.
  unfold processHistoryChat, try_catch, bind.
  destruct (database.getChatHistoryInfo (chat_id chat) w) as [[info|e] w1];
    [|reflexivity].
  unfold Date_now. destruct (historyChatData (clock w1) chat) as [data|e];
    [|reflexivity].
  unfold mbind, M_bind, bind.
  destruct (reconcileChat T chat info data w1) as [[[]|e] w2]; reflexivity.
Qed.

(** The handler returns, and its tables are those at the end of the loop
    over the conversations. *)
Lemma handleHistorySet_db item cs w :
  item_chats item = Some cs →
  fst (handleHistorySet item w) = Ok tt
  ∧ db (snd (handleHistorySet item w))
    = db (snd (handleHistorySet_loop (clock w) cs [] w)).
Proof.
  intros Ei.
  destruct (handleHistorySet_loop_total (clock w) cs [] w) as [chats Hc].
  apply pair_eta in Hc.
  set (w1 := snd (handleHistorySet_loop (clock w) cs [] w)) in *.
  assert (E : ∃ w', handleHistorySet item w = (Ok tt, w') ∧ db w' = db w1).
  { unfold handleHistorySet, try_catch, bind at 1, Date_now.
    rewrite Ei. unfold bind at 1. rewrite Hc. simpl.
    unfold mbind, M_bind, bind, modify, gets. simpl.
    destruct (clientIsWaitingForChats w1); [|eexists; split; reflexivity].
    unfold sendToFrontend. simpl.
    destruct (clientSocket w1) as [[]|]; eexists; split; reflexivity. }
  destruct E as (w' & -> & E). split; [reflexivity | exact E].
Qed.

#[global] Instance rest_kept_po ids : PreOrder (rest_kept ids).
Proof.
  split.
  - intros s i _. reflexivity.
  - intros a b c H1 H2 i Hi. exact (transitivity (H1 i Hi) (H2 i Hi)).
Qed.

(** The turns of the conversations of a list write under the ids of their
    messages only. *)
Lemma handleHistorySet_loop_rest T chats acc ids :
  delivery_ids chats ⊆ ids →
  keeps (on_db (rest_kept ids)) (handleHistorySet_loop T chats acc).
Proof.
  revert acc. induction chats as [|c rest IH]; intros acc Hids.
  - simpl. apply keeps_ret; typeclasses eauto.
  - simpl. rewrite delivery_ids_cons in Hids.
    apply keeps_bind; [typeclasses eauto| |intros acc1; apply IH].
    2: { intros i Hi. apply Hids, elem_of_app. right. exact Hi. }
    eapply keeps_weaken;
      [|apply (processHistoryChat_turn T c acc (message_ids (chat_messages c)));
        reflexivity].
    intros w w' (_ & _ & _ & H4) i Hi. apply H4.
    intros Hin. apply Hi, Hids, elem_of_app. left. exact Hin.
Qed.

(** A delivery seen from one of its conversations: the turns of the
    conversations before it lead to the state in which its own turn begins,
    and the turns of the conversations after it, when they have other ids,
    keep its row and its messages under the ids that they do not use. *)
Lemma handleHistorySet_turns item pre chat post w :
  item_chats item = Some (pre ++ chat :: post) →
  let T := clock w in
  let w1 := snd (handleHistorySet_loop T pre [] w) in
  let w2 := snd (processHistoryChat T chat [] w1) in
  let w' := snd (handleHistorySet item w) in
  clock w1 = clock w
  ∧ rest_kept (delivery_ids post) (db w2) (db w')
  ∧ (Forall (λ c, chat_id c ≠ chat_id chat) post →
     others_kept (chat_id chat) (delivery_ids post) (db w2) (db w')).
Proof.
  intros Ei T w1 w2 w'.
  destruct (handleHistorySet_db item _ w Ei) as [_ Hdb].
  fold w' in Hdb. fold T in Hdb. rewrite Hdb.
  rewrite handleHistorySet_loop_app.
  destruct (fault_free_handleHistorySet_loop T pre [] w) as [Hclock _].
  fold w1 in Hclock.
  destruct (handleHistorySet_loop_total T pre [] w) as [acc1 Hacc1].
  destruct (handleHistorySet_loop T pre [] w) as [r1 w1'] eqn:E1.
  simpl in Hacc1. subst r1. subst w1. cbn [snd] in *.
  simpl. unfold bind.
  pose proof (processHistoryChat_state T chat acc1 [] w1') as Hstate.
  fold w2 in Hstate.
  destruct (processHistoryChat_total T chat acc1 w1') as [acc2 Hacc2].
  destruct (processHistoryChat T chat acc1 w1') as [r2 w2'].
  simpl in Hacc2, Hstate. subst r2 w2'.
  split; [exact Hclock|]. split.
  - apply (handleHistorySet_loop_rest T post acc2 (delivery_ids post)
             (reflexivity _) w2).
  - intros Hne.
    apply (handleHistorySet_loop_others T post acc2 (chat_id chat)
             (delivery_ids post) Hne (reflexivity _) w2).
Qed.

(** ** Failures while a delivery is handled *)



(** ** New and known conversations *)

Lemma min_timestamp_bound now msgs t a :
  (∀ msg, msg ∈ msgs →
     ∃ t', getMessageTimestamp now msg = Js.Num t' ∧ (t <= t')%Z) →
  Reference.min_timestamp now msgs = Some a → (t <= a)%Z.
Proof.
  revert a. induction msgs as [|m rest IH]; intros a Hall; simpl.
  - discriminate.
  - destruct (Hall m (list_elem_of_here _ _)) as (tm & -> & Hle). simpl.
    assert (Hrest : ∀ msg, msg ∈ rest →
              ∃ t', getMessageTimestamp now msg = Js.Num t' ∧ (t <= t')%Z).
    { intros msg Hin. apply Hall. right. exact Hin. }
    destruct (Reference.min_timestamp now rest) as [b|].
    + intros H. injection H as <-. specialize (IH b Hrest eq_refl). lia.
    + intros H. injection H as <-. exact Hle.
Qed.

Lemma min_timestamp_attained now msgs t :
  (∀ msg, msg ∈ msgs →
     ∃ t', getMessageTimestamp now msg = Js.Num t' ∧ (t <= t')%Z) →
  (∃ msg, msg ∈ msgs ∧ getMessageTimestamp now msg = Js.Num t) →
  Reference.min_timestamp now msgs = Some t.
Proof.
  induction msgs as [|m rest IH]; intros Hall (x & Hin & Hx).
  - inversion Hin.
  - simpl. destruct (Hall m (list_elem_of_here _ _)) as (tm & Em & Hle).
    rewrite Em. simpl.
    assert (Hrest : ∀ msg, msg ∈ rest →
              ∃ t', getMessageTimestamp now msg = Js.Num t' ∧ (t <= t')%Z).
    { intros msg Hm. apply Hall. right. exact Hm. }
    apply elem_of_cons in Hin as [->|Hin].
    + rewrite Hx in Em. injection Em as <-.
      destruct (Reference.min_timestamp now rest) as [b|] eqn:Eb; [|reflexivity].
      pose proof (min_timestamp_bound now rest t b Hrest Eb). f_equal. lia.
    + rewrite (IH Hrest (ex_intro _ x (conj Hin Hx))). f_equal. lia.
Qed.

(** The timestamp of the last message is the minimum when no message is
    older than the last one. *)
Lemma min_timestamp_last now msgs oldest :
  Reference.oldest_last now msgs → last msgs = Some oldest →
  Reference.min_timestamp now msgs = bind_num (getMessageTimestamp now oldest).
Proof.
  intros Hord Hlast. destruct (Hord oldest Hlast) as (t & Et & Hall).
  rewrite Et. simpl. apply min_timestamp_attained; [exact Hall|].
  exists oldest. split; [|exact Et].
  apply last_Some in Hlast as [l' ->]. apply elem_of_app. right.
  apply list_elem_of_here.
Qed.

(** The scenario of the specification: conversation A, first seen, delivers
    m1 (100 s) and m2 (200 s), in that order. *)
Example first_sync_scenario :
  let msgs := [Sample.text "A" "m1" 100 "hi"; Sample.text "A" "m2" 200 "yo"] in
  let s := Sample.after (handleHistorySet (Sample.delivery [Sample.chat "A" msgs]))
             empty_store 1700000000000 in
  dom (tbl_messages s) = {["m1"; "m2"]}
  ∧ (tbl_chats s !! "A" ≫= chats.last_sync_timestamp) = Some 1700000000000%Z
  ∧ (tbl_chats s !! "A" ≫= chats.history_baseline_timestamp) = Some 200000%Z.
Proof. vm_compute. repeat split. Qed.

(** C1, counterexample: for a conversation without a baseline the cursor is
    set to the timestamp of the last delivered message, here 200 s, and not
    to the minimum over the delivered messages, 100 s. Nor are all delivered
    messages persisted:
    - not a message that carries no id (conversation B), nor one whose
      timestamp is no number (f1 of conversation F);
    - none when the first message carries its key one level down only
      (conversation C, which is not stored either);
    - none when the last message has no numeric timestamp (conversation D,
      which is left without last-sync cursor), and none when it is dated
      past the last day of [Date] (conversation E); the baseline that E is
      left with then stops the messages of its next delivery, although they
      are newer;
    - none of a conversation that comes a second time in the same delivery
      (conversation G);
    - none when the write of the conversation fails (conversation H);
    - not a message whose id a later conversation of the delivery uses for
      a message of its own (x1 of conversation I, which ends as a message of
      conversation J). *)
Lemma baseline_is_not_the_minimum :
  let now := 1700000000000%Z in
  let after item w := db (snd (handleHistorySet (Sample.delivery item) w)) in
  let once item := after item (Sample.world empty_store now) in
  let msgs := [Sample.text "A" "m1" 100 "hi"; Sample.text "A" "m2" 200 "yo"] in
  let anonymous :=
    {| msg_key := Some {| key_id := None; key_fromMe := false;
                          key_remoteJid := Some "B" |};
       msg_messageTimestamp := Some (TsNumber 300);
       msg_message := None;
       msg_pushName := None; msg_participant := None; msg_notify := None |} in
  let sA := once [Sample.chat "A" msgs] in
  let sB := once [Sample.chat "B" [anonymous]] in
  let sC := once [Sample.chat "C" [Sample.nested "C" "c1" 300 "hidden key"]] in
  let sD := once [Sample.chat "D" [Sample.text "D" "d1" 400 "dated";
                                   Sample.undated "D" "d0" "undated"]] in
  let sE := once [Sample.chat "E" [Sample.text "E" "e1" 8640000000001 "far"]] in
  let sE' :=
    after [Sample.chat "E" [Sample.text "E" "e2" 8640000000002 "farther"]]
      (Sample.world sE (now + 1)) in
  let sF := once [Sample.chat "F" [Sample.undated "F" "f1" "undated";
                                   Sample.text "F" "f2" 100 "dated"]] in
  let sG := once [Sample.chat "G" [Sample.text "G" "g1" 100 "one"];
                  Sample.chat "G" [Sample.text "G" "g2" 200 "two"]] in
  let sH := after [Sample.chat "H" [Sample.text "H" "h1" 100 "one"]]
              (set_faults [false; true] (Sample.world empty_store now)) in
  let sI := once [Sample.chat "I" [Sample.text "I" "x1" 100 "mine"];
                  Sample.chat "J" [Sample.text "J" "x1" 200 "theirs"]] in
  (Reference.min_timestamp now msgs = Some 100000%Z
   ∧ baseline sA "A" ≠ Reference.min_timestamp now msgs)
  ∧ (baseline sB "B" = Some 300000%Z
     ∧ tbl_messages sB = ∅ ∧ tbl_messages_null sB = [])
  ∧ (tbl_chats sC = ∅ ∧ tbl_messages sC = ∅)
  ∧ (is_Some (tbl_chats sD !! "D") ∧ tbl_messages sD = ∅
     ∧ last_sync sD "D" = None)
  ∧ (baseline sE "E" = Some 8640000000001000%Z ∧ tbl_messages sE = ∅
     ∧ last_sync sE "E" = None
     ∧ isNewChat (tbl_chats sE !! "E") = false ∧ tbl_messages sE' = ∅)
  ∧ (tbl_messages sF !! "f1" = None ∧ is_Some (tbl_messages sF !! "f2"))
  ∧ (is_Some (tbl_chats sG !! "G") ∧ tbl_messages sG = ∅)
  ∧ (tbl_chats sH = ∅ ∧ tbl_messages sH = ∅)
  ∧ (is_Some (tbl_chats sI !! "I")
     ∧ (messages.chat_jid <$> tbl_messages sI !! "x1") = Some "J"
     ∧ size (tbl_messages sI) = 1%nat).
Proof.
  vm_compute. repeat split; try discriminate; eexists; reflexivity.
Qed.

(** C1, amended: take a conversation of a bulk-history delivery whose turn
    begins with no failing store call to come and whose most recent message
    carries its key at the top level, and let the conversations after it in
    the delivery be other conversations. At the end of the delivery,
    - if the conversation had no baseline cursor and the last message of its
      list bears a valid date, its baseline is the timestamp of that
      message, which is the minimum over the delivered messages when none of
      them is older than the last one, and every delivered message that
      carries an id and a numeric timestamp is stored, tagged as initial
      sync;
    - if the conversation had a baseline cursor, the delivered messages that
      carry an id and whose timestamp is strictly greater than the last-sync
      cursor (the baseline, when there is no last-sync cursor) are stored,
      tagged as progressive sync, provided that cursor is a valid date, and
      no row is written under any other id: such a row is as before, or
      gone.
    The messages in question are those under ids that the conversations
    after this one do not use. *)
Theorem new_and_known_conversations item pre chat post w :
  item_chats item = Some (pre ++ chat :: post) →
  let T := clock w in
  let jid := chat_id chat in
  let msgs := chat_messages chat in
  let w1 := snd (handleHistorySet_loop T pre [] w) in
  let w' := snd (handleHistorySet item w) in
  let info := tbl_chats (db w1) !! jid in
  let lastSync := null_num (info ≫= lastSyncTime) in
  let fresh msg := Js.gt (getMessageTimestamp T msg) lastSync in
  faults w1 = [] →
  (∀ m, head msgs = Some m → is_Some (msg_key m)) →
  Forall (λ c, chat_id c ≠ jid) post →
  (isNewChat info = true →
     ∀ oldest, last msgs = Some oldest →
       Js.valid_time (getMessageTimestamp T oldest) = true →
       baseline (db w') jid = bind_num (getMessageTimestamp T oldest)
       ∧ (Reference.oldest_last T msgs →
          baseline (db w') jid = Reference.min_timestamp T msgs)
       ∧ (∀ msg i, msg ∈ msgs → has_id msg i → has_timestamp T msg →
                   i ∉ delivery_ids post →
                   stored (db w') jid ("initial-sync-" +:+ pretty T) i))
  ∧ (isNewChat info = false →
     (Js.valid_time lastSync = true →
        ∀ msg i, msg ∈ msgs → has_id msg i → fresh msg = true →
                 i ∉ delivery_ids post →
                 stored (db w') jid ("progressive-sync-" +:+ pretty T) i)
     ∧ (∀ i, (∀ msg, msg ∈ msgs → has_id msg i → fresh msg = false) →
             i ∉ delivery_ids post →
             same_or_gone i (db w1) (db w'))).
Proof.
  intros Ei T jid msgs w1 w' info lastSync fresh Hf Hkey Hne.
  subst jid msgs.
  destruct (handleHistorySet_turns item pre chat post w Ei)
    as (Hclock & Hrest & Hothers).
  fold T in Hclock, Hrest, Hothers. fold w1 in Hclock, Hrest, Hothers.
  fold w' in Hrest, Hothers.
  destruct (Hothers Hne) as [Hrow Hkept]. clear Hothers.
  pose proof (turn_new_and_known T chat [] w1 Hf Hkey) as Hturn.
  cbv zeta in Hturn. rewrite Hclock in Hturn. fold T in Hturn.
  set (w2 := snd (processHistoryChat T chat [] w1)) in *.
  destruct Hturn as [Hnew Hknown].
  assert (Hbase : baseline (db w') (chat_id chat)
                  = baseline (db w2) (chat_id chat)).
  { unfold baseline. rewrite Hrow. reflexivity. }
  assert (Hstored : ∀ session i, stored (db w2) (chat_id chat) session i →
                                 i ∉ delivery_ids post →
                                 stored (db w') (chat_id chat) session i).
  { intros session i (r & Hr & Hj & Hs) Hi. exists r.
    split; [|split; assumption]. apply Hkept; assumption. }
  split.
  - intros Hn oldest Hlast Hv.
    destruct (Hnew Hn oldest Hlast) as [Hb Hsaved].
    split; [rewrite Hbase; exact Hb|]. split.
    + intros Hord. rewrite Hbase, Hb. symmetry.
      apply min_timestamp_last; assumption.
    + intros msg i Hin Hid Hts Hi.
      apply Hstored; [|exact Hi]. exact (Hsaved Hv msg i Hin Hid Hts).
  - intros Hn. destruct (Hknown Hn) as [Hsaved Hsame]. split.
    + intros Hv msg i Hin Hid Hfresh Hi.
      apply Hstored; [|exact Hi]. exact (Hsaved Hv msg i Hin Hid Hfresh).
    + intros i Hi Hout. exact (transitivity (Hsame i Hi) (Hrest i Hout)).
Qed.

(** A first delivery at 150 000, in which the conversation A comes with m2
    and m1 between two other conversations, then a delivery at 400 000, in
    which it comes with m3, m2 and m1. *)
Lemma new_and_known_conversations_witness :
  let m1 := Sample.text "A" "m1" 100 "one" in
  let m2 := Sample.text "A" "m2" 200 "two" in
  let m3 := Sample.text "A" "m3" 300 "three" in
  let B := Sample.chat "B" [Sample.text "B" "b1" 50 "before"] in
  let C := Sample.chat "C" [Sample.text "C" "c1" 60 "after"] in
  let first := Sample.delivery [B; Sample.chat "A" [m2; m1]; C] in
  let second := Sample.delivery [B; Sample.chat "A" [m3; m2; m1]; C] in
  let w := Sample.world empty_store 150000 in
  let w' := snd (handleHistorySet first w) in
  let v := Sample.world (db w') 400000 in
  let v1 := snd (handleHistorySet_loop 400000 [B] [] v) in
  let v' := snd (handleHistorySet second v) in
  (baseline (db w') "A" = Some 100000%Z
   ∧ baseline (db w') "A" = Reference.min_timestamp 150000 [m2; m1]
   ∧ stored (db w') "A" ("initial-sync-" +:+ pretty 150000%Z) "m2"
   ∧ stored (db w') "A" ("initial-sync-" +:+ pretty 150000%Z) "m1")
  ∧ (stored (db v') "A" ("progressive-sync-" +:+ pretty 400000%Z) "m3"
     ∧ stored (db v') "A" ("progressive-sync-" +:+ pretty 400000%Z) "m2"
     ∧ same_or_gone "m1" (db v1) (db v')).
Proof.
  intros m1 m2 m3 B C first second w w' v v1 v'.
  assert (Hout : ∀ i : string, i ≠ "c1" → i ∉ delivery_ids [C]).
  { intros i Hi Hin. vm_compute in Hin.
    apply elem_of_cons in Hin as [Hin|Hin]; [contradiction | inversion Hin]. }
  assert (Hpost : ∀ jid, jid ≠ "C" → Forall (λ c, chat_id c ≠ jid) [C]).
  { intros jid Hj. repeat constructor. simpl. congruence. }
  split.
  - destruct (new_and_known_conversations first [B] (Sample.chat "A" [m2; m1])
                [C] w eq_refl) as [Hnew _].
    { vm_compute. reflexivity. }
    { intros m H. injection H as <-. eexists. reflexivity. }
    { apply Hpost. discriminate. }
    destruct (Hnew ltac:(vm_compute; reflexivity) m1 eq_refl
                ltac:(vm_compute; reflexivity)) as (H1 & H2 & H3).
    fold w' in H1, H2, H3.
    split; [exact H1|]. split; [|split].
    + apply H2.
      intros oldest Hlast. injection Hlast as <-. exists 100000%Z.
      split; [reflexivity|]. intros msg Hin.
      apply elem_of_cons in Hin as [->|Hin];
        [|apply elem_of_cons in Hin as [->|Hin]; [|inversion Hin]].
      * exists 200000%Z. split; [reflexivity | lia].
      * exists 100000%Z. split; [reflexivity | lia].
    + apply (H3 m2); [left | | eexists; reflexivity | apply Hout; discriminate].
      eexists. repeat split.
    + apply (H3 m1);
        [right; left | | eexists; reflexivity | apply Hout; discriminate].
      eexists. repeat split.
  - destruct (new_and_known_conversations second [B]
                (Sample.chat "A" [m3; m2; m1]) [C] v eq_refl) as [_ Hknown].
    { vm_compute. reflexivity. }
    { intros m H. injection H as <-. eexists. reflexivity. }
    { apply Hpost. discriminate. }
    destruct (Hknown ltac:(vm_compute; reflexivity)) as (H1 & H2).
    fold v1 in H2. fold v' in H1, H2.
    specialize (H1 ltac:(vm_compute; reflexivity)).
    split; [|split].
    + apply (H1 m3);
        [left | | vm_compute; reflexivity | apply Hout; discriminate].
      eexists. repeat split.
    + apply (H1 m2);
        [right; left | | vm_compute; reflexivity | apply Hout; discriminate].
      eexists. repeat split.
    + apply H2; [|apply Hout; discriminate].
      intros msg Hin (key & Hkk & Hid & _).
      apply elem_of_cons in Hin as [->|Hin];
        [|apply elem_of_cons in Hin as [->|Hin];
          [|apply elem_of_cons in Hin as [->|Hin]; [|inversion Hin]]].
      * injection Hkk as <-. discriminate.
      * injection Hkk as <-. discriminate.
      * vm_compute. reflexivity.
Defined.

(** ** Where the store departs from the specification *)

(** C2: the same delivery processed twice. After the first pass the message
    is stored and both cursors are set; the second pass, which finds the
    conversation known and no message newer than the last sync, leaves no
    message row and no baseline cursor: [database.saveChat] replaces the row
    of the conversation, which resets the cursors and cascades to its
    messages. *)
Lemma second_pass_loses_history :
  let d := Sample.delivery
             [Sample.chat "A" [Sample.text "A" "m1" 1690000000 "hello"]] in
  let s1 := Sample.after (handleHistorySet d) empty_store 1700000000000 in
  let s2 := Sample.after (handleHistorySet d) s1 1700000100000 in
  (dom (tbl_messages s1) = {["m1"]}
   ∧ baseline s1 "A" = Some 1690000000000%Z
   ∧ last_sync s1 "A" = Some 1700000000000%Z)
  ∧ (dom (tbl_messages s2) = ∅
     ∧ baseline s2 "A" = None
     ∧ last_sync s2 "A" = Some 1700000100000%Z).
Proof. (vm_compute; repeat split). Qed.

(** C3: a later delivery for a conversation whose baseline is set clears
    the baseline, and a plain [database.saveChat], as [handleSendMessage]
    issues it, clears the last-sync cursor as well. *)
Lemma later_delivery_clears_baseline :
  let first := Sample.delivery
                 [Sample.chat "A" [Sample.text "A" "m1" 1690000000 "hello"]] in
  let later := Sample.delivery
                 [Sample.chat "A" [Sample.text "A" "m2" 1700000050 "again";
                                   Sample.text "A" "m1" 1690000000 "hello"]] in
  let s1 := Sample.after (handleHistorySet first) empty_store 1700000000000 in
  let s2 := Sample.after (handleHistorySet later) s1 1700000100000 in
  let s3 := Sample.after
              (database.saveChat "A" None (Some "m9") (Js.Num 1700000200000)
                 None "text" (Some "me")) s2 1700000200000 in
  baseline s1 "A" = Some 1690000000000%Z
  ∧ baseline s2 "A" = None
  ∧ last_sync s2 "A" = Some 1700000100000%Z
  ∧ last_sync s3 "A" = None.
Proof. (vm_compute; repeat split). Qed.

(** C5: [database.saveChat] on a stored conversation removes the message
    rows of that conversation. *)
Lemma saveChat_removes_messages :
  let d := Sample.delivery
             [Sample.chat "A" [Sample.text "A" "m1" 1690000000 "hello"]] in
  let s1 := Sample.after (handleHistorySet d) empty_store 1700000000000 in
  let s2 := Sample.after
              (database.saveChat "A" None (Some "m9") (Js.Num 1700000200000)
                 None "text" (Some "me")) s1 1700000200000 in
  is_Some (tbl_messages s1 !! "m1") ∧ tbl_messages s2 !! "m1" = None.
Proof. (vm_compute; split; [eexists; reflexivity | reflexivity]). Qed.

(** C7: a conversation delivers m2 (200 s), the most recent, before m1
    (100 s); the stored summary is that of m1, the last message saved. *)
Lemma summary_is_of_the_last_saved :
  let m2 := Sample.message "A" "m2" true (Some (TsNumber 200)) Sample.image_content in
  let m1 := Sample.text "A" "m1" 100 "older" in
  let d := Sample.delivery [Sample.chat "A" [m2; m1]] in
  let s := Sample.after (handleHistorySet d) empty_store 1700000000000 in
  (tbl_chats s !! "A" ≫= chats.last_message_id) = Some "m1"
  ∧ (tbl_chats s !! "A" ≫= chats.last_message_timestamp) = Some 100000%Z
  ∧ (tbl_chats s !! "A" ≫= chats.last_message_type) = Some "text"
  ∧ (tbl_chats s !! "A" ≫= chats.last_message_from) = Some "A"
  ∧ getMessageTimestamp 1700000000000 m2 = Js.Num 200000
  ∧ getMessageType m2 = "image".
Proof. (vm_compute; repeat split). Qed.

(** ** The key of a message row *)

(** C4, counterexample: the message m1 is saved for conversation A, then a
    message with the same id for conversation B; the table holds one row
    under m1, and it belongs to B. *)
Lemma same_id_one_row :
  let both :=
    database.saveChat "A" None None Js.NaN None "text" None;;
    database.saveChat "B" None None Js.NaN None "text" None;;
    database.saveMessage (Some "m1") (Some "A") false "for A"
      (Js.Num 1700000000000) "text" "received" None (Some "real-time");;
    database.saveMessage (Some "m1") (Some "B") false "for B"
      (Js.Num 1700000000001) "text" "received" None (Some "real-time") in
  let s := Sample.after both empty_store 1700000000002 in
  size (tbl_messages s) = 1%nat
  ∧ stored_for s "B" "m1"
  ∧ ¬ stored_for s "A" "m1".
Proof.
  vm_compute. split; [reflexivity|]. split.
  - eexists. split; reflexivity.
  - intros (r & Hr & Hj). injection Hr as <-. discriminate.
Qed.

(** C4, amended: message rows are keyed by the message id alone; when two
    messages with the same id are saved for two conversations, the row under
    that id is the one of the later write, the rows under other ids are as
    before, and none is left under that id for the other conversation. *)
Theorem message_key_is_id i jidA jidB fromA fromB contentA contentB tA tB
    typeA typeB statusA statusB senderA senderB sessionA sessionB w :
  faults w = [] →
  is_Some (tbl_chats (db w) !! jidA) → is_Some (tbl_chats (db w) !! jidB) →
  let w2 :=
    snd ((database.saveMessage (Some i) (Some jidA) fromA contentA (Js.Num tA)
            typeA statusA senderA (Some sessionA);;
          database.saveMessage (Some i) (Some jidB) fromB contentB (Js.Num tB)
            typeB statusB senderB (Some sessionB)) w) in
  tbl_messages (db w2) !! i
  = Some {| messages.chat_jid := jidB;
            messages.from_me := fromB;
            messages.message_type := Some typeB;
            messages.content := Some contentB;
            messages.timestamp := tB;
            messages.status := Some statusB;
            messages.collection_session := Some sessionB |}
  ∧ (∀ i', i' ≠ i → tbl_messages (db w2) !! i' = tbl_messages (db w) !! i')
  ∧ (jidA ≠ jidB → ¬ stored_for (db w2) jidA i).
Proof.
  intros Hf HA HB w2.
  destruct (saveMessage_succeeds i jidA fromA contentA tA typeA statusA senderA
              sessionA w Hf HA) as (w1 & E1 & _).
  pose proof (fault_free_saveMessage (Some i) (Some jidA) fromA contentA
                (Js.Num tA) typeA statusA senderA (Some sessionA) w) as [_ Hf1].
  pose proof (saveMessage_saves jidA sessionA [i] (Some i) fromA contentA
                (Js.Num tA) typeA statusA senderA) as K1.
  specialize (K1 ltac:(intros ? [= <-]; apply list_elem_of_here) w)
    as (_ & Hstay & _ & _ & Hsame1 & _).
  rewrite E1 in Hf1, Hstay, Hsame1. simpl in Hf1, Hstay, Hsame1.
  destruct (saveMessage_succeeds i jidB fromB contentB tB typeB statusB senderB
              sessionB w1 (Hf1 Hf) (Hstay _ HB)) as (w2' & E2 & Hrow & _).
  pose proof (saveMessage_saves jidB sessionB [i] (Some i) fromB contentB
                (Js.Num tB) typeB statusB senderB) as K2.
  specialize (K2 ltac:(intros ? [= <-]; apply list_elem_of_here) w1)
    as (_ & _ & _ & _ & Hsame2 & _).
  rewrite E2 in Hsame2. simpl in Hsame2.
  assert (Ew : w2 = w2').
  { subst w2. rewrite (seq_ok _ _ w tt w1 E1), E2. reflexivity. }
  rewrite Ew. split; [exact Hrow|]. split.
  - intros i' Hne. rewrite Hsame2, Hsame1; [reflexivity| |];
      intros Hin; apply list_elem_of_singleton in Hin; congruence.
  - intros Hne (r & Hr & Hj). rewrite Hrow in Hr. injection Hr as <-.
    simpl in Hj. congruence.
Qed.

(** The id m1 saved for the conversation A, then for B. *)
Lemma message_key_is_id_witness :
  let chats :=
    database.saveChat "A" None None Js.NaN None "text" None;;
    database.saveChat "B" None None Js.NaN None "text" None in
  let w := snd (chats (Sample.world empty_store 1700000000000)) in
  let w2 :=
    snd ((database.saveMessage (Some "m1") (Some "A") false "for A"
            (Js.Num 1700000000000) "text" "received" None (Some "real-time");;
          database.saveMessage (Some "m1") (Some "B") false "for B"
            (Js.Num 1700000000001) "text" "received" None (Some "real-time")) w) in
  (messages.content <$> tbl_messages (db w2) !! "m1") = Some (Some "for B")
  ∧ ¬ stored_for (db w2) "A" "m1".
Proof.
  intros chats w w2.
  destruct (message_key_is_id "m1" "A" "B" false false "for A" "for B"
              1700000000000 1700000000001 "text" "text" "received" "received"
              None None "real-time" "real-time" w)
    as (H1 & _ & H3).
  - vm_compute. reflexivity.
  - vm_compute. eexists. reflexivity.
  - vm_compute. eexists. reflexivity.
  - split.
    + fold w2 in H1. rewrite H1. reflexivity.
    + apply H3. discriminate.
Defined.

(** ** Live messages *)

#[global] Instance quiet_po : PreOrder quiet.
Proof.
  split.
  - intros w. split; reflexivity.
  - intros a b c [A1 A2] [B1 B2]. split; congruence.
Qed.

Lemma quiet_run {A} (stmt : Store → outcome A) : keeps quiet (run stmt).
Proof.
  intros w. unfold run.
  destruct (faults w) as [|[] rest]; simpl;
    try (split; reflexivity); destruct (stmt (db w)); split; reflexivity.
Qed.

Lemma quiet_saveMessage id jid fromMe content ts type status sender session :
  keeps quiet
        (database.saveMessage id jid fromMe content ts type status sender session).
Proof.
  unfold database.saveMessage. cbv zeta.
  apply keeps_db_method; [typeclasses eauto|].
  apply keeps_seq; [typeclasses eauto|apply quiet_run|].
  apply keeps_seq; [typeclasses eauto| |].
  - apply keeps_if; [|apply keeps_ret; typeclasses eauto].
    destruct jid; [|apply keeps_ret; typeclasses eauto].
    apply keeps_db_method; [typeclasses eauto|apply quiet_run].
  - apply keeps_seq; [typeclasses eauto|apply quiet_run|].
    apply keeps_ret; typeclasses eauto.
Qed.

Lemma getContact_ok jid w :
  faults w = [] →
  database.getContact jid w = (Ok (jid ≫= λ j, tbl_contacts (db w) !! j), w).
Proof.
  intros Hf. unfold database.getContact.
  rewrite (db_method_run_ok "getContact" (Sql.select_contact jid) w
             (jid ≫= λ j, tbl_contacts (db w) !! j) (db w) Hf eq_refl).
  rewrite set_db_same. reflexivity.
Qed.

(** C9: an inbound, notified live text message of a conversation that the
    store does not hold is neither stored nor announced to the connected
    consumer, and the conversation is not created: the write of the message
    fails on the foreign key, and the handler catches the exception. A live
    picture of a stored conversation is stored with the kind [text], while
    its notification bears the kind [image]. And the name in the
    notification is the one carried by the event, here none, although the
    Contact table has a name for the sender. *)
Lemma live_message_of_stranger_is_lost :
  let live (jid : string) (content : MessageObj) :=
    {| upsert_messages :=
         [Sample.message jid "m1" false (Some (TsNumber 1700000000)) content];
       upsert_type := "notify" |} in
  let w :=
    snd ((database.saveChat "A" (Some "Ann") None Js.NaN None "text" None;;
          database.saveContact "A" (Some "Ann") None None)
           (Sample.world empty_store 1700000000000)) in
  let stranger :=
    snd (handleMessagesUpsert (live "B" (Sample.text_content "hello")) w) in
  let picture := snd (handleMessagesUpsert (live "A" Sample.image_content) w) in
  let known :=
    snd (handleMessagesUpsert (live "A" (Sample.text_content "hello")) w) in
  (tbl_messages (db stranger) = ∅ ∧ tbl_messages_null (db stranger) = []
   ∧ tbl_chats (db stranger) !! "B" = None ∧ sent stranger = [])
  ∧ ((tbl_messages (db picture) !! "m1" ≫= messages.message_type) = Some "text"
     ∧ (env_data <$> sent picture)
       = [NewMessage
            {| nm_id := Some "m1"; nm_content := Some "[Image]";
               nm_timestamp := Js.Num 1700000000000; nm_type := "image";
               nm_from := Some "A"; nm_fromMe := false;
               nm_chatJid := Some "A"; nm_contactName := None;
               nm_avatarBase64 := None; nm_senderName := None |}])
  ∧ ((tbl_contacts (db known) !! "A" ≫= contacts.name) = Some "Ann"
     ∧ (env_data <$> sent known)
       = [NewMessage
            {| nm_id := Some "m1"; nm_content := Some "hello";
               nm_timestamp := Js.Num 1700000000000; nm_type := "text";
               nm_from := Some "A"; nm_fromMe := false;
               nm_chatJid := Some "A"; nm_contactName := None;
               nm_avatarBase64 := None; nm_senderName := None |}]).
Proof. vm_compute. repeat split. Qed.

(** What the processor does for a live event whose first message is inbound
    and notified, has a display text, an id, a timestamp in seconds whose
    milliseconds are below 2^56 and the jid of a stored conversation, when no
    store call fails: it stores the message with the timestamp in
    milliseconds, the display text, the kind [text] and the real-time tag,
    sets the last-message fields of the conversation, and writes to the
    connected consumer one [newMessage] envelope with the sender name
    carried by the event and the avatar that the Contact table holds for
    the conversation at that moment. *)
Lemma live_message_of_stored_conversation event msg key i jid n text w :
  faults w = [] → clientSocket w = Some OPEN →
  head (upsert_messages event) = Some msg → upsert_type event = "notify" →
  msg_key msg = Some key → key_fromMe key = false →
  key_id key = Some i → key_remoteJid key = Some jid →
  is_Some (tbl_chats (db w) !! jid) →
  msg_messageTimestamp msg = Some (TsNumber n) →
  (Z.abs (n * 1000) < 2 ^ 56)%Z →
  getDisplayMessage msg = Some text → text ≠ "" →
  let w' := snd (handleMessagesUpsert event w) in
  let name := Js.or_null (Js.or_opt (msg_pushName msg) (msg_notify msg)) in
  (∃ r, tbl_messages (db w') !! i = Some r
        ∧ messages.chat_jid r = jid
        ∧ messages.from_me r = false
        ∧ messages.content r = Some text
        ∧ messages.message_type r = Some "text"
        ∧ messages.timestamp r = (n * 1000)%Z
        ∧ messages.collection_session r = Some "real-time")
  ∧ (∃ c, tbl_chats (db w') !! jid = Some c
          ∧ chats.last_message_id c = Some i
          ∧ chats.last_message_timestamp c = Some (n * 1000)%Z
          ∧ chats.last_message_from c = Some jid)
  ∧ sent w'
    = sent w
      ++ [{| env_type := "newMessage";
             env_data :=
               NewMessage
                 {| nm_id := Some i;
                    nm_content := Some text;
                    nm_timestamp := Js.Num (n * 1000);
                    nm_type := getMessageType msg;
                    nm_from := Some jid;
                    nm_fromMe := false;
                    nm_chatJid := Some jid;
                    nm_contactName := name;
                    nm_avatarBase64 :=
                      tbl_contacts (db w') !! jid ≫= contacts.avatar_base64;
                    nm_senderName := name |} |}].
Proof.
  intros Hf Hopen Hhead Htype Hkey Hfrom Hid Hjid Hchat Hts Hrange Htext Hne
    w' name.
  assert (Htruthy : Js.truthy_str (Some text) = true).
  { destruct text; [contradiction | reflexivity]. }
  pose proof (mul_1000_exact n Hrange) as Hmul.
  destruct (saveMessage_succeeds i jid false text (n * 1000) "text" "received"
              name "real-time" w Hf Hchat) as (w1 & E1 & Hrow & Hc).
  pose proof (fault_free_saveMessage (Some i) (Some jid) false text
                (Js.Num (n * 1000)) "text" "received" name (Some "real-time") w)
    as [_ Hf1].
  pose proof (quiet_saveMessage (Some i) (Some jid) false text
                (Js.Num (n * 1000)) "text" "received" name (Some "real-time") w)
    as [Hsock Hsent].
  rewrite E1 in Hf1, Hsock, Hsent. simpl in Hf1, Hsock, Hsent.
  specialize (Hf1 Hf). rewrite Hopen in Hsock.
  assert (E : handleMessagesUpsert event w
              = sendToFrontend "newMessage"
                  (NewMessage
                     {| nm_id := Some i;
                        nm_content := Some text;
                        nm_timestamp := Js.Num (n * 1000);
                        nm_type := getMessageType msg;
                        nm_from := Some jid;
                        nm_fromMe := false;
                        nm_chatJid := Some jid;
                        nm_contactName := name;
                        nm_avatarBase64 :=
                          tbl_contacts (db w1) !! jid ≫= contacts.avatar_base64;
                        nm_senderName := name |}) w1).
  { unfold handleMessagesUpsert, try_catch.
    rewrite Hhead, Hkey, Hfrom, Htype, Htext, Htruthy, Hid, Hjid, Hts.
    cbn [negb andb String.eqb Ascii.eqb Bool.eqb timestamp_to_number].
    change (default "" (Some text)) with text. rewrite Hmul.
    fold name. unfold mbind, M_bind, bind. rewrite E1.
    rewrite (getContact_ok (Some jid) w1 Hf1). simpl.
    rewrite (sendToFrontend_open _ _ w1 Hsock). reflexivity. }
  subst w'. rewrite E, (sendToFrontend_open _ _ w1 Hsock). simpl.
  split; [|split].
  - eexists. split; [exact Hrow|]. repeat split.
  - destruct Hchat as [c Hcr]. rewrite Hcr in Hc. eexists.
    split; [exact Hc|]. repeat split.
  - rewrite Hsent. reflexivity.
Qed.

(** ** Rows that are never deleted *)

#[global] Instance rows_kept_po b : PreOrder (rows_kept b).
Proof.
  split.
  - intros s. repeat split; auto.
  - intros x y z (A1 & A2 & A3) (B1 & B2 & B3). repeat split; auto.
Qed.

Lemma replace_chat_rows jid name avatar last_id ts type from s a s' :
  Sql.replace_chat jid name avatar last_id ts type from s = Done a s' →
  rows_kept false s s'.
Proof.
  intros H. apply replace_chat_done in H as ((r & Hr & _) & H2 & H3 & _).
  repeat split; [|rewrite H3; auto|discriminate].
  intros j Hj. destruct (decide (j = jid)) as [->|Hne].
  - rewrite Hr. eauto.
  - rewrite H2 by exact Hne. exact Hj.
Qed.

Lemma update_chat_rows f jid s a s' :
  Sql.update_chat f jid s = Done a s' → rows_kept true s s'.
Proof.
  intros H. apply update_chat_done in H as (Hm & Hc & Hrow).
  repeat split; [|rewrite Hc; auto|rewrite Hm; auto].
  intros j Hj. rewrite Hrow. case_bool_decide; [apply fmap_is_Some|]; exact Hj.
Qed.

Lemma replace_message_rows id jid from_me type content ts status session s a s' :
  Sql.replace_message id jid from_me type content ts status session s = Done a s' →
  rows_kept true s s'.
Proof.
  intros H. apply replace_message_done in H as (Hc & Hk & j & t & _ & _ & _ & Hm).
  repeat split; [rewrite Hc; auto|rewrite Hk; auto|].
  intros _ i Hi. rewrite Hm. case_bool_decide; [eauto | exact Hi].
Qed.

Lemma replace_contact_rows jid name phone avatar s a s' :
  Sql.replace_contact jid name phone avatar s = Done a s' → rows_kept true s s'.
Proof.
  intros H. apply replace_contact_done in H as (Hc & Hm & Hk).
  repeat split; [rewrite Hc; auto|exact Hk|rewrite Hm; auto].
Qed.

Lemma update_contact_rows f jid s a s' :
  Sql.update_contact f jid s = Done a s' → rows_kept true s s'.
Proof.
  unfold Sql.update_contact. intros H. injection H as _ <-.
  repeat split; simpl; auto. intros j Hj.
  destruct (decide (jid = j)) as [->|Hne].
  - rewrite lookup_alter_eq. apply fmap_is_Some, Hj.
  - rewrite lookup_alter_ne by exact Hne. exact Hj.
Qed.

Lemma update_message_status_rows id status s a s' :
  Sql.update_message_status id status s = Done a s' → rows_kept true s s'.
Proof.
  unfold Sql.update_message_status. intros H. injection H as _ <-.
  repeat split; simpl; auto. intros _ i Hi.
  destruct (decide (id = i)) as [->|Hne].
  - rewrite lookup_alter_eq. apply fmap_is_Some, Hi.
  - rewrite lookup_alter_ne by exact Hne. exact Hi.
Qed.

Lemma rows_kept_weaken b s s' : rows_kept true s s' → rows_kept b s s'.
Proof. intros (H1 & H2 & H3). repeat split; auto. Qed.

Lemma saveMessage_rows id jid fromMe content ts type status sender session :
  keeps (on_db (rows_kept true))
        (database.saveMessage id jid fromMe content ts type status sender session).
Proof.
  unfold database.saveMessage. cbv zeta.
  apply keeps_db_method; [typeclasses eauto|].
  apply keeps_seq; [typeclasses eauto| |apply keeps_seq; [typeclasses eauto| |
    apply keeps_seq; [typeclasses eauto| |apply keeps_ret; typeclasses eauto]]].
  - apply keeps_run; [typeclasses eauto|]. intros ? ? ?.
    apply replace_message_rows.
  - apply keeps_if; [|apply keeps_ret; typeclasses eauto].
    destruct jid; [|apply keeps_ret; typeclasses eauto].
    apply keeps_db_method; [typeclasses eauto|].
    apply keeps_run; [typeclasses eauto|]. intros ? ? ?.
    apply replace_contact_rows.
  - apply keeps_run; [typeclasses eauto|]. intros ? ? ?. apply update_chat_rows.
Qed.

(** No method of [Database] deletes the row of a conversation or of a
    contact, and none but [saveChat] and [cleanup] deletes the row of a
    message, whether the method returns or throws. *)
Lemma rows_never_deleted (c : Write) :
  keeps (on_db (rows_kept (negb (may_remove_messages c)))) (perform c).
Proof.
  destruct c; simpl;
    repeat first
      [ apply keeps_ret; typeclasses eauto
      | apply saveMessage_rows
      | apply keeps_seq; [typeclasses eauto| |]
      | apply keeps_db_method; [typeclasses eauto|]
      | apply keeps_bind; [typeclasses eauto|apply keeps_Date_now; typeclasses eauto|
                           intros ?]
      | apply keeps_run; [typeclasses eauto|]; intros ? ? ? ];
    first
      [ apply replace_chat_rows
      | apply update_chat_rows
      | apply replace_contact_rows
      | apply update_contact_rows
      | apply update_message_status_rows
      | intros H; apply no_change_same in H as ->; reflexivity
      | idtac ].
  unfold Sql.delete_messages_before. intros H. injection H as _ <-.
  repeat split; simpl; auto. discriminate.
Qed.

(** ** The retention sweep *)

Lemma snd_db_method {A} op (m : M A) w : snd (db_method op m w) = snd (m w).
Proof.
  unfold db_method, try_catch, throw. destruct (m w) as [[a|e] w1]; reflexivity.
Qed.

(** [database.cleanup] leaves the conversations and the contacts alone,
    adds no message and keeps every message that is not older than the
    retention horizon, whether it returns or throws. *)
Lemma cleanup_keeps_recent w :
  let w' := snd (database.cleanup w) in
  tbl_chats (db w') = tbl_chats (db w)
  ∧ tbl_contacts (db w') = tbl_contacts (db w)
  ∧ (∀ i r, tbl_messages (db w') !! i = Some r →
            tbl_messages (db w) !! i = Some r)
  ∧ (∀ i r, tbl_messages (db w) !! i = Some r →
            (clock w - database.retention <= messages.timestamp r)%Z →
            tbl_messages (db w') !! i = Some r).
Proof.
  set (R := λ s s' : Store,
         tbl_chats s' = tbl_chats s
         ∧ tbl_contacts s' = tbl_contacts s
         ∧ (∀ i r, tbl_messages s' !! i = Some r → tbl_messages s !! i = Some r)
         ∧ (∀ i r, tbl_messages s !! i = Some r →
                   (clock w - database.retention <= messages.timestamp r)%Z →
                   tbl_messages s' !! i = Some r)).
  assert (HR : PreOrder R).
  { split.
    - intros s. repeat split; auto.
    - intros a b c (A1 & A2 & A3 & A4) (B1 & B2 & B3 & B4).
      repeat split; [congruence | congruence | auto | auto]. }
  assert (K : keeps (on_db R)
                (run (Sql.delete_messages_before (clock w - database.retention));;
                 run Sql.no_change)).
  { apply keeps_seq; [typeclasses eauto| |].
    - apply keeps_run; [exact HR|]. intros s a s' H.
      unfold Sql.delete_messages_before in H. injection H as _ <-.
      repeat split; simpl.
      + intros i r Hi. apply map_lookup_filter_Some in Hi as [Hi _]. exact Hi.
      + intros i r Hi Ht. apply map_lookup_filter_Some.
        split; [exact Hi | simpl; lia].
    - apply keeps_run; [exact HR|]. intros s a s' H.
      apply no_change_same in H as ->. reflexivity. }
  intros w'. subst w'. unfold database.cleanup. rewrite snd_db_method.
  exact (K w).
Qed.

(** ** The cursors of a known conversation *)

Lemma saveHistoryChat_ok_reset chat data w w' :
  cd_jid data = chat_id chat →
  saveHistoryChat chat data w = (Ok tt, w') →
  baseline (db w') (chat_id chat) = None.
Proof.
  intros Hjid H. unfold saveHistoryChat in H. rewrite Hjid in H.
  apply seq_ok_inv in H as ([] & w1 & H1 & H2).
  apply db_method_ok_inv, run_ok_inv, replace_chat_done in H1
    as ((r & Hr & Hb & _) & _).
  assert (Hs : baseline (db w1) (chat_id chat) = None).
  { unfold baseline. rewrite Hr. exact Hb. }
  destruct (Js.truthy_str (chat_name chat) && _).
  - pose proof (saveContact_saves (chat_id chat) "" [] (chat_id chat)
                  (chat_name chat) None None w1) as (_ & _ & Hbase & _).
    rewrite H2 in Hbase. simpl in Hbase. rewrite Hbase. exact Hs.
  - injection H2 as <-. exact Hs.
Qed.

(** Whenever the turn of a conversation with a baseline runs with no
    failing store call, the conversation is left without baseline: the row
    is replaced, and nothing sets the cursor again. *)
Lemma known_turn_clears_baseline T chat acc w :
  faults w = [] →
  (∀ m, head (chat_messages chat) = Some m → is_Some (msg_key m)) →
  isNewChat (tbl_chats (db w) !! chat_id chat) = false →
  baseline (db (snd (processHistoryChat T chat acc w))) (chat_id chat) = None.
Proof.
  intros Hf Hkey Hknown.
  destruct (historyChatData_ok (clock w) chat Hkey) as [data Hd].
  pose proof (turn_after_stages T chat acc data w Hf Hd) as Hst.
  cbv zeta in Hst. rewrite Hknown in Hst. destruct Hst as [_ Hb].
  rewrite Hb. clear Hb.
  set (info := tbl_chats (db w) !! chat_id chat).
  set (w1 := snd (saveHistoryChat chat data w)).
  destruct (saveHistoryChat_stage chat data w Hf (historyChatData_jid _ _ _ Hd))
    as (Hf1 & _ & Hs1 & _). fold w1 in Hf1, Hs1.
  destruct (saveProgressiveHistory_stage T chat info w1 Hf1 Hs1)
    as (_ & _ & Hbase).
  rewrite Hbase.
  destruct (succeeds_saveHistoryChat chat data w Hf) as [[] H1].
  apply pair_eta in H1. fold w1 in H1.
  apply saveHistoryChat_ok_reset in H1; [exact H1|].
  eapply historyChatData_jid, Hd.
Qed.

(** * Further properties of the store, the queries and the maintenance
      functions *)

(** ** Display text, kind and timestamp of a message *)

(** X1: whenever the kind of a message is not [text], its display text is
    a non-empty string: a message without display text is of kind [text]. *)
Theorem media_has_display_text msg :
  getMessageType msg ≠ "text" →
  Js.truthy_str (getDisplayMessage msg) = true.
Proof.
  unfold getMessageType, getDisplayMessage.
  destruct (messageObj msg) as [o|]; [|congruence].
  destruct (Js.truthy_str (conversation o)); [congruence|].
  destruct (extendedTextMessage o) as [text|]; [simpl; congruence|].
  intros _.
  destruct (imageMessage o) as [[[|c s]|]|]; [reflexivity..|].
  destruct (videoMessage o) as [[[|c s]|]|]; [reflexivity..|].
  destruct (audioMessage o); [reflexivity|].
  destruct (documentMessage o) as [[[|c s]|]|]; [reflexivity..|].
  destruct (stickerMessage o); [reflexivity|].
  destruct (locationMessage o); [reflexivity|].
  destruct (contactMessage o); reflexivity.
Qed.

(** An image without caption. *)
Lemma media_has_display_text_witness :
  Js.truthy_str
    (getDisplayMessage
       (Sample.message "A" "m1" false (Some (TsNumber 1700000000))
          Sample.image_content)) = true.
Proof. apply media_has_display_text. discriminate. Defined.

Lemma non_digit_no_value c :
  Reference.is_decimal_digit c = false → Js.digit_value 10 c = None.
Proof.
  destruct c as [[] [] [] [] [] [] [] []]; try reflexivity; discriminate.
Qed.

Lemma digits_prefix_stops s c rest acc :
  Reference.all_decimal s = true →
  Reference.is_decimal_digit c = false →
  Js.digits_prefix 10 (Some acc) (s +:+ String c rest)
  = Some (acc * 10 ^ Z.of_nat (String.length s) + Reference.integer_value s)%Z.
Proof.
  intros Hs Hc. revert acc Hs. induction s as [|d r IH]; intros acc Hs; simpl in *.
  - rewrite (non_digit_no_value c Hc). f_equal. lia.
  - apply andb_true_iff in Hs as [Hd Hr].
    rewrite (decimal_digit_value d Hd), (IH _ Hr). f_equal.
    rewrite Nat2Z.inj_succ, Z.pow_succ_r by lia. lia.
Qed.

Lemma parseInt_prefix s c rest :
  Reference.numeric_string s = true →
  Reference.is_decimal_digit c = false →
  c ≠ "x"%char → c ≠ "X"%char →
  Js.parseInt (s +:+ String c rest)
  = Js.Num (Js.round (Reference.integer_value s)).
Proof.
  destruct s as [|d r]; [discriminate|]. simpl. intros H Hc Hx HX.
  apply andb_true_iff in H as [Hd Hr].
  unfold Js.parseInt. simpl.
  rewrite (decimal_digit_not_whitespace d Hd).
  assert (Hsign : Js.strip_sign (String d (r +:+ String c rest))
                  = (1%Z, String d (r +:+ String c rest))).
  { unfold Js.strip_sign.
    destruct d as [[] [] [] [] [] [] [] []]; try reflexivity; discriminate. }
  rewrite Hsign.
  assert (Hradix :
    match String d (r +:+ String c rest) with
    | String "0" (String "x" r0) | String "0" (String "X" r0) => (16%Z, r0)
    | _ => (10%Z, String d (r +:+ String c rest))
    end = (10%Z, String d (r +:+ String c rest))).
  { destruct r as [|e r']; simpl.
    - destruct d as [[] [] [] [] [] [] [] []]; try reflexivity;
        destruct c as [[] [] [] [] [] [] [] []]; try reflexivity; congruence.
    - simpl in Hr. apply andb_true_iff in Hr as [He _].
      destruct d as [[] [] [] [] [] [] [] []]; try reflexivity;
        destruct e as [[] [] [] [] [] [] [] []]; try reflexivity; discriminate. }
  rewrite Hradix. simpl.
  rewrite (decimal_digit_value d Hd).
  rewrite (digits_prefix_stops r c rest _ Hr Hc). do 2 f_equal. lia.
Qed.

(** X2: a string timestamp is read up to its first character that is no
    decimal digit: what follows a run of digits is ignored, unless it makes
    a hexadecimal literal of it. The result is the integer value of the
    digits times 1000, as long as that is below 2^56. *)
Theorem timestamp_string_prefix now msg s c rest :
  rawTimestamp msg = Some (TsString (s +:+ String c rest)) →
  Reference.numeric_string s = true →
  Reference.is_decimal_digit c = false →
  c ≠ "x"%char → c ≠ "X"%char →
  (Reference.integer_value s * 1000 < 2 ^ 56)%Z →
  getMessageTimestamp now msg = Js.Num (Reference.integer_value s * 1000).
Proof.
  intros Hraw Hs Hc Hx HX Hrange. unfold getMessageTimestamp. rewrite Hraw.
  assert (Hpos : (0 <= Reference.integer_value s)%Z).
  { clear -Hs. destruct s as [|d r]; [discriminate|].
    unfold Reference.numeric_string in Hs.
    induction (String d r) as [|e t IH]; simpl in *; [lia|].
    apply andb_true_iff in Hs as [He Ht]. specialize (IH Ht).
    unfold Reference.is_decimal_digit in He.
    apply andb_true_iff in He as [He _]. apply Nat.leb_le in He.
    assert (0 <= 10 ^ Z.of_nat (String.length t))%Z by (apply Z.pow_nonneg; lia).
    nia. }
  destruct s as [|d r]; [discriminate|]. cbn [truthy_ts Js.truthy_str negb].
  change (String d r +:+ String c rest)
    with (String d (r +:+ String c rest)).
  cbn [truthy_ts Js.truthy_str negb append].
  change (String d (r +:+ String c rest))
    with (String d r +:+ String c rest).
  rewrite (parseInt_prefix (String d r) c rest Hs Hc Hx HX).
  rewrite round_exact by lia. apply mul_1000_exact. lia.
Qed.

(** A timestamp with a fraction of a second. *)
Lemma timestamp_string_prefix_witness :
  getMessageTimestamp 5
    (Sample.message "A" "m1" false (Some (TsString "1700000000.75"))
       (Sample.text_content "hi"))
  = Js.Num 1700000000000.
Proof.
  apply (timestamp_string_prefix 5 _ "1700000000" "."%char "75");
    [reflexivity | reflexivity | reflexivity | discriminate | discriminate
    | vm_compute; reflexivity].
Defined.

(** ** Reading and writing single rows *)

(** A statement that only reads returns its result and leaves the state as
    it is, when no engine fault is pending. *)
Lemma read_ok {A} op (stmt : Store → outcome A) (f : Store → A) w :
  (∀ s, stmt s = Done (f s) s) → faults w = [] →
  db_method op (run stmt) w = (Ok (f (db w)), w).
Proof.
  intros Hs Hf.
  rewrite (db_method_run_ok op stmt w (f (db w)) (db w) Hf (Hs (db w))).
  rewrite set_db_same. reflexivity.
Qed.

Lemma getMessage_ok id w :
  faults w = [] →
  Database.getMessage id w = (Ok (id ≫= λ i, tbl_messages (db w) !! i), w).
Proof.
  intros Hf.
  exact (read_ok "getMessage" (Query.select_message id)
           (λ s, id ≫= λ i, tbl_messages s !! i) w (λ s, eq_refl) Hf).
Qed.

(** What a call of [saveMessage] that returns has done, statement by
    statement. *)
Lemma saveMessage_ok_inv id jid fromMe content ts type status sender session w w' :
  database.saveMessage id jid fromMe content ts type status sender session w
  = (Ok tt, w') →
  ∃ j t s1 s2 b,
    jid = Some j ∧ ts = Js.Num t
    ∧ Sql.replace_message id (Some j) fromMe type content (Some t) status
        session (db w) = Done tt s1
    ∧ (if negb fromMe && Js.truthy_str sender
       then Sql.replace_contact j sender None None s1
       else Done tt s1) = Done tt s2
    ∧ Sql.update_chat
        (database.with_last_message id (Some t) type
           (if fromMe then Some "me" else Some j)
           (if Js.truthy_str sender && negb fromMe then sender else None))
        (Some j) s2 = Done b (db w').
Proof.
  intros H. apply db_method_ok_inv in H.
  apply seq_ok_inv in H as ([] & w1 & H1 & H).
  apply seq_ok_inv in H as ([] & w2 & H2 & H).
  apply seq_ok_inv in H as (b & w3 & H3 & H). injection H as <-.
  apply run_ok_inv in H1. apply run_ok_inv in H3.
  destruct jid as [j|]; [|discriminate].
  destruct ts as [t|]; [|destruct (tbl_chats (db w) !! j); discriminate].
  exists j, t, (db w1), (db w2), b. repeat split; try assumption.
  destruct (negb fromMe && Js.truthy_str sender).
  - apply db_method_ok_inv, run_ok_inv in H2. exact H2.
  - injection H2 as <-. reflexivity.
Qed.

Lemma saveMessage_ok_row i jid fromMe content ts type status sender session w w' :
  database.saveMessage (Some i) jid fromMe content ts type status sender
    session w = (Ok tt, w') →
  ∃ j t, jid = Some j ∧ ts = Js.Num t
         ∧ is_Some (tbl_chats (db w) !! j)
         ∧ tbl_messages (db w') !! i
           = Some (message_row j fromMe content t type status session)
         ∧ ∀ i', i' ≠ i → tbl_messages (db w') !! i' = tbl_messages (db w) !! i'.
Proof.
  intros H.
  apply saveMessage_ok_inv in H as (j & t & s1 & s2 & b & -> & -> & H1 & H2 & H3).
  apply replace_message_done in H1 as (_ & _ & j' & t' & Hj & Ht & Hc & Hm).
  injection Hj as <-. injection Ht as <-.
  apply update_chat_done in H3 as (Hm3 & _).
  assert (Hm2 : tbl_messages s2 = tbl_messages s1).
  { destruct (negb fromMe && Js.truthy_str sender).
    - apply replace_contact_done in H2 as (_ & Hm2 & _). exact Hm2.
    - injection H2 as <-. reflexivity. }
  exists j, t. repeat split; [exact Hc| |].
  - rewrite Hm3, Hm2, Hm, bool_decide_eq_true_2 by reflexivity. reflexivity.
  - intros i' Hne. rewrite Hm3, Hm2, Hm, bool_decide_eq_false_2 by congruence.
    reflexivity.
Qed.

(** X3: a message that [saveMessage] has saved is read back by [getMessage]
    under its id, with the values that were passed. *)
Theorem saved_message_is_read_back i jid fromMe content t type status sender
    session w w' :
  database.saveMessage (Some i) (Some jid) fromMe content (Js.Num t) type
    status sender session w = (Ok tt, w') →
  faults w' = [] →
  Database.getMessage (Some i) w'
  = (Ok (Some (message_row jid fromMe content t type status session)), w').
Proof.
  intros H Hf. rewrite (getMessage_ok (Some i) w' Hf). simpl.
  apply saveMessage_ok_row in H as (j & t' & Hj & Ht & _ & Hrow & _).
  injection Hj as <-. injection Ht as <-. rewrite Hrow. reflexivity.
Qed.

(** An inbound message of the stored conversation A. *)
Lemma saved_message_is_read_back_witness :
  let w := snd (database.saveChat "A" (Some "Ann") None Js.NaN None "text" None
                  (Sample.world empty_store 1700000000000)) in
  let w' := snd (database.saveMessage (Some "m1") (Some "A") false "hello"
                   (Js.Num 1700000000000) "text" "received" (Some "Ann")
                   (Some "real-time") w) in
  fst (Database.getMessage (Some "m1") w')
  = Ok (Some (message_row "A" false "hello" 1700000000000 "text" "received"
                (Some "real-time"))).
Proof.
  intros w w'.
  rewrite (saved_message_is_read_back "m1" "A" false "hello" 1700000000000
             "text" "received" (Some "Ann") (Some "real-time") w w');
    reflexivity.
Defined.

(** When the INSERT of [saveMessage] fails, the method throws its error and
    every table is as it was; the state differs by the engine fault that the
    call has consumed, if one was pending. *)
Lemma saveMessage_first_fails id jid fromMe content ts type status sender
    session w reason :
  Sql.replace_message id jid fromMe type content (bind_num ts) status session
    (db w) = Failed reason →
  database.saveMessage id jid fromMe content ts type status sender session w
  = (Throw (DatabaseError "saveMessage"), set_faults (tail (faults w)) w).
Proof.
  intros E.
  unfold database.saveMessage, db_method, try_catch, mbind, M_bind, bind, run.
  destruct (faults w) as [|[] rest] eqn:Ef; simpl;
    [rewrite E; reflexivity | reflexivity | rewrite E; reflexivity].
Qed.

(** X4: [saveMessage] for a conversation that is not stored, or with a
    timestamp that is no number, throws the error of the method and leaves
    every table as it was; the state differs by the engine fault that the
    call has consumed, if one was pending. *)
Theorem rejected_message_writes_nothing id jid fromMe content ts type status
    sender session w :
  (jid ≫= λ j, tbl_chats (db w) !! j) = None ∨ ts = Js.NaN →
  database.saveMessage id jid fromMe content ts type status sender session w
  = (Throw (DatabaseError "saveMessage"), set_faults (tail (faults w)) w).
Proof.
  intros H.
  assert (E : ∃ reason,
    Sql.replace_message id jid fromMe type content (bind_num ts) status session
      (db w) = Failed reason).
  { unfold Sql.replace_message.
    destruct jid as [j|]; [|eauto]. simpl in H.
    destruct (bind_num ts) as [t|] eqn:Et; [|eauto].
    destruct H as [H|H]; [rewrite H; eauto|].
    subst ts. discriminate. }
  destruct E as [reason E]. eapply saveMessage_first_fails, E.
Qed.

(** A message for a conversation that the empty store does not hold. *)
Lemma rejected_message_writes_nothing_witness :
  database.saveMessage (Some "m1") (Some "B") false "hello"
    (Js.Num 1700000000000) "text" "received" None (Some "real-time")
    (Sample.world empty_store 1700000000000)
  = (Throw (DatabaseError "saveMessage"), Sample.world empty_store 1700000000000).
Proof.
  rewrite rejected_message_writes_nothing; [reflexivity|].
  left. reflexivity.
Defined.

Lemma with_last_message_twice id ts type from sender r :
  database.with_last_message id ts type from sender
    (database.with_last_message id ts type from sender r)
  = database.with_last_message id ts type from sender r.
Proof. unfold database.with_last_message. simpl. destruct sender; reflexivity. Qed.

Lemma alter_twice {A} (f : A → A) (j : string) (m : gmap string A) :
  (∀ x, f (f x) = f x) → alter f j (alter f j m) = alter f j m.
Proof.
  intros Hf. rewrite alter_alter_eq. apply alter_ext. intros x _. apply Hf.
Qed.

(** X5: saving a message under an id a second time, with the same values,
    leaves every table as the first call has left it. *)
Theorem saving_again_changes_nothing i jid fromMe content ts type status
    sender session w :
  faults w = [] →
  let save := database.saveMessage (Some i) jid fromMe content ts type status
                sender session in
  db (snd (save (snd (save w)))) = db (snd (save w)).
Proof.
  intros Hf save.
  destruct (save w) as [[[]|e] w1] eqn:E1; simpl.
  - pose proof (fault_free_saveMessage (Some i) jid fromMe content ts type
                  status sender session w) as [_ Hf1].
    fold save in Hf1. rewrite E1 in Hf1. simpl in Hf1. specialize (Hf1 Hf).
    subst save.
    apply saveMessage_ok_inv in E1
      as (j & t & s1 & s2 & b & -> & -> & H1 & H2 & H3).
    unfold Sql.replace_message in H1.
    destruct (tbl_chats (db w) !! j) as [c|] eqn:Ec; [|discriminate].
    injection H1 as <-.
    unfold Sql.update_chat in H3. injection H3 as _ H3.
    destruct w1 as [d1 c1 f1 cs1 p1 wt1 st1]. simpl in *. subst f1 d1.
    unfold database.saveMessage, database.saveContact, db_method, try_catch,
      mbind, M_bind, bind, run, ret. simpl.
    destruct (negb fromMe && Js.truthy_str sender) eqn:Ecnd; simpl in *;
      injection H2 as <-; simpl;
      unfold Sql.replace_message; simpl;
      rewrite lookup_alter_eq, Ec; simpl;
      rewrite alter_twice by apply with_last_message_twice;
      rewrite ?insert_insert_eq; reflexivity.
  - subst save.
    assert (Hbad : ∃ reason,
      Sql.replace_message (Some i) jid fromMe type content (bind_num ts) status
        session (db w) = Failed reason).
    { destruct (Sql.replace_message (Some i) jid fromMe type content
                  (bind_num ts) status session (db w)) as [[] s1|reason] eqn:Er;
        [|eauto].
      exfalso. revert E1.
      unfold database.saveMessage, database.saveContact, db_method, try_catch,
        mbind, M_bind, bind, run, ret, throw.
      rewrite Hf. simpl. rewrite Er. simpl.
      destruct (negb fromMe && Js.truthy_str sender); simpl;
        [destruct jid as [j|]; simpl|];
        unfold Sql.update_chat; try destruct jid; simpl; discriminate. }
    destruct Hbad as [reason Hbad].
    rewrite (saveMessage_first_fails _ _ _ _ _ _ _ _ _ _ _ Hbad) in E1.
    injection E1 as _ <-.
    rewrite (saveMessage_first_fails _ _ _ _ _ _ _ _ _ _ reason);
      [reflexivity | exact Hbad].
Qed.

(** An inbound message of the stored conversation A, saved twice. *)
Lemma saving_again_changes_nothing_witness :
  let w := snd (database.saveChat "A" (Some "Ann") None Js.NaN None "text" None
                  (Sample.world empty_store 1700000000000)) in
  let save := database.saveMessage (Some "m1") (Some "A") false "hello"
                (Js.Num 1700000000000) "text" "received" (Some "Ann")
                (Some "real-time") in
  db (snd (save (snd (save w)))) = db (snd (save w)).
Proof.
  intros w save.
  apply (saving_again_changes_nothing "m1" (Some "A") false "hello"
           (Js.Num 1700000000000) "text" "received" (Some "Ann")
           (Some "real-time") w).
  reflexivity.
Defined.

(** X6: [saveMessage] runs its statements one after the other, with nothing to
    undo them: when the engine rejects the last one, the update of the
    conversation, the method throws, and the message is stored all the same,
    next to a conversation that does not show it. *)
Theorem failed_summary_keeps_message i jid fromMe content t type status sender
    session w :
  is_Some (tbl_chats (db w) !! jid) →
  faults w
  = replicate (if negb fromMe && Js.truthy_str sender then 2 else 1) false
    ++ [true] →
  let w' := snd (database.saveMessage (Some i) (Some jid) fromMe content
                   (Js.Num t) type status sender session w) in
  fst (database.saveMessage (Some i) (Some jid) fromMe content (Js.Num t) type
         status sender session w)
  = Throw (DatabaseError "saveMessage")
  ∧ tbl_messages (db w') !! i
    = Some (message_row jid fromMe content t type status session)
  ∧ tbl_chats (db w') = tbl_chats (db w).
Proof.
  intros [c Hc] Hf.
  destruct w as [d ck f cs p wt st]. simpl in *. subst f.
  unfold database.saveMessage, database.saveContact, db_method, try_catch,
    mbind, M_bind, bind, run, ret, throw.
  destruct (negb fromMe && Js.truthy_str sender); simpl;
    unfold Sql.replace_message; rewrite Hc; simpl;
    (split; [reflexivity|split; [apply lookup_insert_eq|reflexivity]]).
Qed.

(** An outbound message whose second statement the engine rejects. *)
Lemma failed_summary_keeps_message_witness :
  let w := snd (database.saveChat "A" (Some "Ann") None Js.NaN None "text" None
                  (Sample.world empty_store 1700000000000)) in
  let save := database.saveMessage (Some "m1") (Some "A") true "hello"
                (Js.Num 1700000000000) "text" "sent" None None in
  fst (save (set_faults [false; true] w)) = Throw (DatabaseError "saveMessage")
  ∧ is_Some (tbl_messages (db (snd (save (set_faults [false; true] w)))) !! "m1")
  ∧ (tbl_chats (db (snd (save (set_faults [false; true] w)))) !! "A"
     ≫= chats.last_message_id) = None.
Proof.
  intros w save.
  destruct (failed_summary_keeps_message "m1" "A" true "hello" 1700000000000
              "text" "sent" None None (set_faults [false; true] w))
    as (H1 & H2 & H3).
  - vm_compute. eauto.
  - reflexivity.
  - split; [exact H1|]. split.
    + unfold save. rewrite H2. eauto.
    + unfold save. rewrite H3. reflexivity.
Defined.

(** The contact that an inbound message with a sender name leaves. *)
Lemma saveMessage_named_contact id jid content ts type status sender session
    w w' :
  Js.truthy_str sender = true →
  database.saveMessage id (Some jid) false content ts type status sender
    session w = (Ok tt, w') →
  tbl_contacts (db w') !! jid
  = Some {| contacts.name := sender; contacts.phone_number := None;
            contacts.avatar_base64 := None; contacts.is_blocked := false |}.
Proof.
  intros Hs H.
  apply saveMessage_ok_inv in H as (j & t & s1 & s2 & b & Hj & -> & H1 & H2 & H3).
  injection Hj as <-. rewrite Hs in H2. cbn [negb andb] in H2.
  unfold Sql.replace_contact in H2. injection H2 as <-.
  apply update_chat_done in H3 as (_ & Hk & _). simpl in Hk.
  rewrite Hk. apply lookup_insert_eq.
Qed.

(** X7: an inbound message that is saved with a sender name rewrites the
    contact of its conversation from scratch: the contact has that name and
    neither phone number nor avatar afterwards, whatever it had before, and
    the conversation bears the name too. *)
Theorem sender_name_rewrites_contact id jid content ts type status sender
    session w w' :
  Js.truthy_str sender = true →
  database.saveMessage id (Some jid) false content ts type status sender
    session w = (Ok tt, w') →
  tbl_contacts (db w') !! jid
  = Some {| contacts.name := sender; contacts.phone_number := None;
            contacts.avatar_base64 := None; contacts.is_blocked := false |}
  ∧ (tbl_chats (db w') !! jid ≫= chats.name) = sender.
Proof.
  intros Hs H. split; [eapply saveMessage_named_contact; eassumption|].
  apply saveMessage_ok_inv in H as (j & t & s1 & s2 & b & Hj & -> & H1 & H2 & H3).
  injection Hj as <-. rewrite Hs in H2, H3. cbn [negb andb] in H2, H3.
  apply replace_message_done in H1 as (Hc1 & _ & j' & t' & Hj & _ & Hchat & _).
  injection Hj as <-.
  unfold Sql.replace_contact in H2. injection H2 as <-.
  apply update_chat_done in H3 as (_ & _ & Hc). simpl in Hc.
  rewrite Hc, bool_decide_eq_true_2 by reflexivity. rewrite Hc1.
  destruct Hchat as [c Hc0]. rewrite Hc0. simpl.
  destruct sender; [reflexivity | discriminate].
Qed.

(** A contact with a phone number and an avatar, then a message of it. *)
Lemma sender_name_rewrites_contact_witness :
  let w :=
    snd ((database.saveChat "A" (Some "A") None Js.NaN None "text" None;;
          database.saveContact "A" (Some "Ann") (Some "+1 555") (Some "avatar"))
           (Sample.world empty_store 1700000000000)) in
  let w' := snd (database.saveMessage (Some "m1") (Some "A") false "hello"
                   (Js.Num 1700000000000) "text" "received" (Some "Annie")
                   (Some "real-time") w) in
  (tbl_contacts (db w) !! "A" ≫= contacts.avatar_base64) = Some "avatar"
  ∧ (tbl_contacts (db w') !! "A" ≫= contacts.avatar_base64) = None
  ∧ (tbl_chats (db w') !! "A" ≫= chats.name) = Some "Annie".
Proof.
  intros w w'.
  destruct (sender_name_rewrites_contact (Some "m1") "A" "hello"
              (Js.Num 1700000000000) "text" "received" (Some "Annie")
              (Some "real-time") w w') as [H1 H2];
    [reflexivity | reflexivity |].
  rewrite H1, H2. repeat split.
Defined.

Lemma getContact_inv jid w a w' :
  database.getContact jid w = (Ok a, w') →
  a = (jid ≫= λ j, tbl_contacts (db w) !! j)
  ∧ db w' = db w ∧ clientSocket w' = clientSocket w ∧ sent w' = sent w.
Proof.
  intros H.
  pose proof (quiet_run (Sql.select_contact jid) w) as [Hq1 Hq2].
  apply db_method_ok_inv in H. rewrite H in Hq1, Hq2. simpl in Hq1, Hq2.
  apply run_ok_inv in H. unfold Sql.select_contact in H.
  injection H as <- <-. auto.
Qed.

(** X8: when the first message of a live event carries a sender name, the
    [newMessage] envelope that announces it, if one is written, has no
    avatar: the contact has just been rewritten by [saveMessage]. *)
Theorem named_live_message_has_no_avatar event msg w :
  head (upsert_messages event) = Some msg →
  Js.truthy_str (Js.or_opt (msg_pushName msg) (msg_notify msg)) = true →
  let w' := snd (handleMessagesUpsert event w) in
  sent w' = sent w
  ∨ ∃ d, sent w' = sent w ++ [{| env_type := "newMessage";
                                 env_data := NewMessage d |}]
         ∧ nm_avatarBase64 d = None.
Proof.
  intros Hhead Hname. unfold handleMessagesUpsert, try_catch.
  rewrite Hhead.
  destruct (msg_key msg) as [key|]; [|left; reflexivity].
  destruct (negb (key_fromMe key) && String.eqb (upsert_type event) "notify");
    [|left; reflexivity].
  destruct (Js.truthy_str (getDisplayMessage msg)); [|left; reflexivity].
  assert (Hnull : Js.or_null (Js.or_opt (msg_pushName msg) (msg_notify msg))
                  = Js.or_opt (msg_pushName msg) (msg_notify msg)).
  { unfold Js.or_null. rewrite Hname. reflexivity. }
  rewrite Hnull. set (name := Js.or_opt (msg_pushName msg) (msg_notify msg)) in *.
  unfold mbind, M_bind, bind.
  match goal with
  | |- context [database.saveMessage ?a ?b ?c ?d ?e ?f ?g ?h ?i w] =>
      pose proof (quiet_saveMessage a b c d e f g h i w) as [_ Hq];
      destruct (database.saveMessage a b c d e f g h i w) as [[[]|e1] w1] eqn:E1
  end; simpl in Hq; [|left; exact Hq].
  destruct (key_remoteJid key) as [jid|] eqn:Ejid;
    [|apply saveMessage_ok_inv in E1 as (j & _ & _ & _ & _ & Hj & _);
      discriminate].
  apply saveMessage_named_contact in E1 as Hrow; [|exact Hname].
  destruct (database.getContact (Some jid) w1) as [[contact|e2] w2] eqn:E2;
    simpl; [|left].
  - apply getContact_inv in E2 as (-> & _ & Hs2 & Hq2). simpl.
    rewrite Hrow. simpl.
    unfold sendToFrontend. destruct (clientSocket w2) as [[]|]; simpl;
      try (left; congruence).
    right. eexists. split; [rewrite Hq2, Hq; reflexivity | reflexivity].
  - pose proof (quiet_run (Sql.select_contact (Some jid)) w1) as [_ Hq2].
    unfold database.getContact, db_method, try_catch, throw in E2.
    destruct (run _ w1) as [[a|e3] w3]; [discriminate|].
    injection E2 as _ <-. simpl in Hq2. congruence.
Qed.

(** A message with a push name, of a contact that has an avatar. *)
Lemma named_live_message_has_no_avatar_witness :
  let msg :=
    {| msg_key := Some {| key_id := Some "m1"; key_fromMe := false;
                          key_remoteJid := Some "A" |};
       msg_messageTimestamp := Some (TsNumber 1700000000);
       msg_message :=
         Some {| body_message := None; body_messageTimestamp := None;
                 body_key := None; body_fields := Sample.text_content "hello" |};
       msg_pushName := Some "Ann"; msg_participant := None;
       msg_notify := None |} in
  let event := {| upsert_messages := [msg]; upsert_type := "notify" |} in
  let w :=
    snd ((database.saveChat "A" (Some "Ann") None Js.NaN None "text" None;;
          database.saveContact "A" (Some "Ann") None (Some "avatar"))
           (Sample.world empty_store 1700000000000)) in
  let w' := snd (handleMessagesUpsert event w) in
  (tbl_contacts (db w) !! "A" ≫= contacts.avatar_base64) = Some "avatar"
  ∧ ∃ d, sent w' = [{| env_type := "newMessage"; env_data := NewMessage d |}]
         ∧ nm_avatarBase64 d = None.
Proof.
  intros msg event w w'. split; [reflexivity|].
  destruct (named_live_message_has_no_avatar event msg w) as [H|H];
    [reflexivity | reflexivity | vm_compute in H; discriminate | exact H].
Defined.

(** ** Updates in place *)

Lemma store_eta s :
  {| tbl_chats := tbl_chats s; tbl_messages := tbl_messages s;
     tbl_messages_null := tbl_messages_null s;
     tbl_contacts := tbl_contacts s |} = s.
Proof. destruct s. reflexivity. Qed.

Lemma update_chat_absent f jid s :
  tbl_chats s !! jid = None → Sql.update_chat f (Some jid) s = Done false s.
Proof.
  intros H. unfold Sql.update_chat.
  rewrite bool_decide_eq_false_2 by (rewrite H; apply is_Some_None).
  rewrite alter_id' by exact H. rewrite store_eta. reflexivity.
Qed.

Lemma update_contact_absent f jid s :
  tbl_contacts s !! jid = None → Sql.update_contact f jid s = Done false s.
Proof.
  intros H. unfold Sql.update_contact.
  rewrite bool_decide_eq_false_2 by (rewrite H; apply is_Some_None).
  rewrite alter_id' by exact H. rewrite store_eta. reflexivity.
Qed.

(** X9: the methods that update a row in place do not create it: for a
    conversation, or a contact, that is not stored they return [false] and
    leave the state as it is. *)
Theorem update_of_missing_row jid avatar name ts w :
  faults w = [] →
  (tbl_chats (db w) !! jid = None →
   database.updateChatAvatar jid avatar w = (Ok false, w)
   ∧ database.setChatHistoryBaseline jid ts w = (Ok false, w)
   ∧ database.updateChatSyncTimestamp jid ts w = (Ok false, w))
  ∧ (tbl_contacts (db w) !! jid = None →
     database.updateContactAvatar jid avatar w = (Ok false, w)
     ∧ database.updateContactName jid name w = (Ok false, w)).
Proof.
  intros Hf. split; intros Hn.
  - unfold database.updateChatAvatar, database.setChatHistoryBaseline,
      database.updateChatSyncTimestamp.
    repeat split;
      (erewrite db_method_run_ok;
       [rewrite set_db_same; reflexivity | exact Hf
       | apply update_chat_absent, Hn]).
  - unfold database.updateContactAvatar, database.updateContactName.
    repeat split;
      (erewrite db_method_run_ok;
       [rewrite set_db_same; reflexivity | exact Hf
       | apply update_contact_absent, Hn]).
Qed.

(** The empty store. *)
Lemma update_of_missing_row_witness :
  let w := Sample.world empty_store 1700000000000 in
  database.setChatHistoryBaseline "A" (Js.Num 5) w = (Ok false, w)
  ∧ database.updateContactName "A" (Some "Ann") w = (Ok false, w).
Proof.
  intros w.
  destruct (update_of_missing_row "A" None (Some "Ann") (Js.Num 5) w)
    as [H1 H2]; [reflexivity|].
  destruct H1 as (_ & H1 & _); [reflexivity|].
  destruct H2 as (_ & H2); [reflexivity|].
  split; assumption.
Defined.

(** X10: each of the two sync cursors of a stored conversation is written by
    its own method and read back by [getChatHistoryInfo]: the method
    returns [true], the row is the one before with that one column set, and
    no other row of the table changes. A timestamp that is no number clears
    the cursor. *)
Theorem cursor_is_read_back jid ts w r :
  faults w = [] → tbl_chats (db w) !! jid = Some r →
  let w1 := snd (database.setChatHistoryBaseline jid ts w) in
  let w2 := snd (database.updateChatSyncTimestamp jid ts w) in
  (fst (database.setChatHistoryBaseline jid ts w) = Ok true
   ∧ database.getChatHistoryInfo jid w1
     = (Ok (Some (database.with_baseline (bind_num ts) r)), w1)
   ∧ ∀ j, j ≠ jid → tbl_chats (db w1) !! j = tbl_chats (db w) !! j)
  ∧ (fst (database.updateChatSyncTimestamp jid ts w) = Ok true
     ∧ database.getChatHistoryInfo jid w2
       = (Ok (Some (database.with_last_sync (bind_num ts) r)), w2)
     ∧ ∀ j, j ≠ jid → tbl_chats (db w2) !! j = tbl_chats (db w) !! j).
Proof.
  intros Hf Hr.
  assert (H : ∀ op f,
    let w' := snd (db_method op (run (Sql.update_chat f (Some jid))) w) in
    fst (db_method op (run (Sql.update_chat f (Some jid))) w) = Ok true
    ∧ database.getChatHistoryInfo jid w' = (Ok (Some (f r)), w')
    ∧ ∀ j, j ≠ jid → tbl_chats (db w') !! j = tbl_chats (db w) !! j).
  { intros op f.
    rewrite (db_method_run_ok op (Sql.update_chat f (Some jid)) w true
               {| tbl_chats := alter f jid (tbl_chats (db w));
                  tbl_messages := tbl_messages (db w);
                  tbl_messages_null := tbl_messages_null (db w);
                  tbl_contacts := tbl_contacts (db w) |} Hf).
    - simpl. split; [reflexivity|]. split.
      + rewrite getChatHistoryInfo_ok by (destruct w; exact Hf). simpl.
        rewrite lookup_alter_eq, Hr. reflexivity.
      + intros j Hj. apply lookup_alter_ne. congruence.
    - unfold Sql.update_chat.
      rewrite bool_decide_eq_true_2 by (rewrite Hr; eauto). reflexivity. }
  split; apply H.
Qed.

(** A baseline that is set, and a last-sync cursor that is cleared. *)
Lemma cursor_is_read_back_witness :
  let w := snd (database.saveChat "A" (Some "Ann") None Js.NaN None "text" None
                  (Sample.world empty_store 1700000000000)) in
  let r := {| chats.name := Some "Ann"; chats.avatar_base64 := None;
              chats.last_message_id := None;
              chats.last_message_timestamp := None;
              chats.last_message_type := Some "text";
              chats.last_message_from := None; chats.unread_count := 0;
              chats.is_archived := false;
              chats.history_baseline_timestamp := None;
              chats.last_sync_timestamp := None;
              chats.history_complete := false |} in
  let w1 := snd (database.setChatHistoryBaseline "A" (Js.Num 100000) w) in
  let w2 := snd (database.updateChatSyncTimestamp "A" Js.NaN w) in
  fst (database.getChatHistoryInfo "A" w1)
  = Ok (Some (database.with_baseline (Some 100000%Z) r))
  ∧ fst (database.getChatHistoryInfo "A" w2)
    = Ok (Some (database.with_last_sync None r)).
Proof.
  intros w r w1 w2.
  destruct (cursor_is_read_back "A" (Js.Num 100000) w r)
    as ((_ & H1 & _) & _); [reflexivity | reflexivity |].
  destruct (cursor_is_read_back "A" Js.NaN w r)
    as (_ & _ & H2 & _); [reflexivity | reflexivity |].
  fold w1 in H1. fold w2 in H2. rewrite H1, H2. split; reflexivity.
Defined.

(** ** The retention sweep, when nothing fails *)

Lemma cleanup_ok w :
  faults w = [] →
  database.cleanup w
  = (Ok tt,
     set_db {| tbl_chats := tbl_chats (db w);
               tbl_messages :=
                 filter (λ kv : string * messages.row,
                           ¬ (messages.timestamp kv.2
                              < clock w - database.retention)%Z)
                        (tbl_messages (db w));
               tbl_messages_null :=
                 filter (λ r : messages.row,
                           ¬ (messages.timestamp r
                              < clock w - database.retention)%Z)
                        (tbl_messages_null (db w));
               tbl_contacts := tbl_contacts (db w) |} w).
Proof.
  intros Hf. destruct w as [d c f cs p wt st]. simpl in *. subst f.
  reflexivity.
Qed.

(** X11: with no failing call, [cleanup] returns, and afterwards the stored
    messages are those that were stored and are not older than the retention
    horizon, six months of thirty days before the reading of the clock; a
    message dated at the horizon itself is kept. The conversations, their
    last-message columns included, and the contacts are as before. *)
Theorem cleanup_removes_the_old w :
  faults w = [] →
  let w' := snd (database.cleanup w) in
  fst (database.cleanup w) = Ok tt
  ∧ (∀ i r, tbl_messages (db w') !! i = Some r
            ↔ tbl_messages (db w) !! i = Some r
              ∧ (clock w - database.retention <= messages.timestamp r)%Z)
  ∧ (∀ r, r ∈ tbl_messages_null (db w')
          ↔ r ∈ tbl_messages_null (db w)
            ∧ (clock w - database.retention <= messages.timestamp r)%Z)
  ∧ tbl_chats (db w') = tbl_chats (db w)
  ∧ tbl_contacts (db w') = tbl_contacts (db w).
Proof.
  intros Hf. rewrite (cleanup_ok w Hf). simpl.
  split; [reflexivity|]. split; [|split; [|split; reflexivity]].
  - intros i r. rewrite map_lookup_filter_Some. simpl. intuition lia.
  - intros r. rewrite list_elem_of_filter. intuition lia.
Qed.

(** A message dated one millisecond before the horizon and one dated at
    the horizon. *)
Lemma cleanup_removes_the_old_witness :
  let now := 1700000000000%Z in
  let w0 := snd (database.saveChat "A" (Some "Ann") None Js.NaN None "text" None
                   (Sample.world empty_store now)) in
  let save id t :=
    database.saveMessage (Some id) (Some "A") false "hello" (Js.Num t) "text"
      "received" None (Some "real-time") in
  let w := snd ((save "old" (now - database.retention - 1)%Z;;
                 save "edge" (now - database.retention)%Z) w0) in
  let w' := snd (database.cleanup w) in
  tbl_messages (db w') !! "old" = None
  ∧ is_Some (tbl_messages (db w') !! "edge")
  ∧ (tbl_chats (db w') !! "A" ≫= chats.last_message_id) = Some "edge".
Proof.
  intros now w0 save w w'.
  destruct (cleanup_removes_the_old w) as (_ & Hm & _ & Hc & _);
    [reflexivity|].
  fold w' in Hm, Hc. split; [|split].
  - destruct (tbl_messages (db w') !! "old") as [r|] eqn:E; [|reflexivity].
    apply Hm in E as [E Ht]. vm_compute in E. injection E as <-.
    vm_compute in Ht. contradiction Ht. reflexivity.
  - eexists. apply Hm. split; [vm_compute; reflexivity|].
    vm_compute. discriminate.
  - rewrite Hc. reflexivity.
Defined.

Lemma getChatWithContact_ok jid w :
  faults w = [] →
  Database.getChatWithContact jid w
  = (Ok (Query.join_chat (db w) jid <$> tbl_chats (db w) !! jid), w).
Proof.
  intros Hf.
  exact (read_ok "getChatWithContact" (Query.select_chat_with_contact jid)
           (λ s, Query.join_chat s jid <$> tbl_chats s !! jid) w
           (λ s, eq_refl) Hf).
Qed.

(** X12: a conversation keeps the id of a last message that the sweep has
    removed: it is then read without content of its last message, and a
    conversation whose last message was a text is listed with the text
    [No messages yet]. *)
Theorem swept_message_leaves_no_preview jid c i r w :
  faults w = [] →
  tbl_chats (db w) !! jid = Some c →
  chats.last_message_id c = Some i →
  chats.last_message_type c = Some "text" →
  tbl_messages (db w) !! i = Some r →
  (messages.timestamp r < clock w - database.retention)%Z →
  let w' := snd (database.cleanup w) in
  ∃ row, Database.getChatWithContact jid w' = (Ok (Some row), w')
         ∧ chat_list.chat row = c
         ∧ chat_list.last_message_content row = None
         ∧ cd_lastMessage (backend.chatListEntry row) = Some "No messages yet".
Proof.
  intros Hf Hc Hid Htype Hr Hold w'. subst w'.
  rewrite (cleanup_ok w Hf). simpl.
  rewrite getChatWithContact_ok by (destruct w; exact Hf). simpl.
  rewrite Hc. simpl. eexists. split; [reflexivity|].
  unfold backend.chatListEntry, Query.join_chat. simpl.
  rewrite Hid. simpl.
  assert (Hgone :
    filter (λ kv : string * messages.row,
              ¬ (messages.timestamp kv.2 < clock w - database.retention)%Z)
           (tbl_messages (db w)) !! i = None).
  { apply map_lookup_filter_None. right. intros r' Hr'.
    rewrite Hr in Hr'. injection Hr' as <-. simpl. lia. }
  rewrite Hgone, Htype. repeat split.
Qed.

(** A conversation whose only message is older than the horizon. *)
Lemma swept_message_leaves_no_preview_witness :
  let now := 1700000000000%Z in
  let w0 := snd (database.saveChat "A" (Some "Ann") None Js.NaN None "text" None
                   (Sample.world empty_store now)) in
  let w := snd (database.saveMessage (Some "old") (Some "A") false "hello"
                  (Js.Num 5) "text" "received" None (Some "real-time") w0) in
  let w' := snd (database.cleanup w) in
  (∃ row, fst (Database.getChatWithContact "A" w) = Ok (Some row)
          ∧ cd_lastMessage (backend.chatListEntry row) = Some "hello")
  ∧ ∃ row, fst (Database.getChatWithContact "A" w') = Ok (Some row)
           ∧ cd_lastMessage (backend.chatListEntry row)
             = Some "No messages yet".
Proof.
  intros now w0 w w'. split; [eexists; split; reflexivity|].
  destruct (swept_message_leaves_no_preview "A"
              {| chats.name := Some "Ann"; chats.avatar_base64 := None;
                 chats.last_message_id := Some "old";
                 chats.last_message_timestamp := Some 5%Z;
                 chats.last_message_type := Some "text";
                 chats.last_message_from := Some "A"; chats.unread_count := 0;
                 chats.is_archived := false;
                 chats.history_baseline_timestamp := None;
                 chats.last_sync_timestamp := None;
                 chats.history_complete := false |}
              "old"
              (message_row "A" false "hello" 5 "text" "received"
                 (Some "real-time")) w)
    as (row & H1 & _ & _ & H2); try reflexivity.
  exists row. fold w' in H1. rewrite H1. split; [reflexivity | exact H2].
Defined.

(** ** Counting and the oldest message *)

Lemma getMessageCount_ok jid w :
  faults w = [] →
  Database.getMessageCount jid w
  = (Ok (Z.of_nat (length (Query.messages_of jid (db w)))), w).
Proof.
  intros Hf.
  exact (read_ok "getMessageCount" (Query.count_messages jid)
           (λ s, Z.of_nat (length (Query.messages_of jid s))) w
           (λ s, eq_refl) Hf).
Qed.

(** The tables of messages after a call of [saveMessage] that returns. *)
Lemma saveMessage_ok_tables i jid fromMe content ts type status sender session
    w w' :
  database.saveMessage (Some i) jid fromMe content ts type status sender
    session w = (Ok tt, w') →
  ∃ j t, jid = Some j ∧ ts = Js.Num t
         ∧ tbl_messages (db w')
           = <[i := message_row j fromMe content t type status session]>
               (tbl_messages (db w))
         ∧ tbl_messages_null (db w') = tbl_messages_null (db w).
Proof.
  intros H.
  apply saveMessage_ok_inv in H as (j & t & s1 & s2 & b & -> & -> & H1 & H2 & H3).
  exists j, t. split; [reflexivity|]. split; [reflexivity|].
  unfold Sql.replace_message in H1.
  destruct (tbl_chats (db w) !! j); [|discriminate]. injection H1 as <-.
  unfold Sql.update_chat in H3. injection H3 as _ <-.
  destruct (negb fromMe && Js.truthy_str sender);
    injection H2 as <-; split; reflexivity.
Qed.

Lemma messages_of_insert i r jid s s' :
  tbl_messages s !! i = None →
  tbl_messages s' = <[i := r]> (tbl_messages s) →
  tbl_messages_null s' = tbl_messages_null s →
  Query.messages_of jid s'
  ≡ₚ (if bool_decide (messages.chat_jid r = jid) then [(Some i, r)] else [])
     ++ Query.messages_of jid s.
Proof.
  intros Hnew Hm Hn. unfold Query.messages_of, Query.all_messages.
  rewrite Hm, Hn. rewrite (map_to_list_insert _ _ _ Hnew).
  rewrite fmap_cons. simpl. rewrite filter_cons. simpl.
  case_bool_decide as E; [rewrite decide_True by exact E
                         |rewrite decide_False by exact E]; reflexivity.
Qed.

(** X13: a message saved under an id that was not in use adds one to the number
    of messages that [getMessageCount] reports for its conversation, and
    leaves the number of every other conversation as it was. *)
Theorem new_message_is_counted i jid fromMe content t type status sender
    session w w' j :
  faults w = [] →
  tbl_messages (db w) !! i = None →
  database.saveMessage (Some i) (Some jid) fromMe content (Js.Num t) type
    status sender session w = (Ok tt, w') →
  ∃ n, Database.getMessageCount j w = (Ok n, w)
       ∧ Database.getMessageCount j w'
         = (Ok (if bool_decide (j = jid) then n + 1 else n)%Z, w').
Proof.
  intros Hf Hnew H.
  assert (Hf' : faults w' = []).
  { pose proof (fault_free_saveMessage (Some i) (Some jid) fromMe content
                  (Js.Num t) type status sender session w) as [_ Hk].
    rewrite H in Hk. apply Hk, Hf. }
  apply saveMessage_ok_tables in H as (j' & t' & Hj & Ht & Hm & Hn).
  injection Hj as <-. injection Ht as <-.
  rewrite (getMessageCount_ok j w Hf), (getMessageCount_ok j w' Hf').
  eexists. split; [reflexivity|].
  rewrite (messages_of_insert i _ j (db w) (db w') Hnew Hm Hn).
  simpl. do 2 f_equal.
  destruct (decide (j = jid)) as [->|Hne].
  - rewrite !bool_decide_eq_true_2 by reflexivity. simpl. lia.
  - rewrite !bool_decide_eq_false_2 by congruence. reflexivity.
Qed.

(** The first message of the conversation A. *)
Lemma new_message_is_counted_witness :
  let w := snd (database.saveChat "A" (Some "Ann") None Js.NaN None "text" None
                  (Sample.world empty_store 1700000000000)) in
  let w' := snd (database.saveMessage (Some "m1") (Some "A") false "hello"
                   (Js.Num 1700000000000) "text" "received" None
                   (Some "real-time") w) in
  fst (Database.getMessageCount "A" w) = Ok 0%Z
  ∧ fst (Database.getMessageCount "A" w') = Ok 1%Z.
Proof.
  intros w w'.
  destruct (new_message_is_counted "m1" "A" false "hello" 1700000000000
              "text" "received" None (Some "real-time") w w' "A")
    as (n & E & E'); [reflexivity | reflexivity | reflexivity |].
  assert (Hn : n = 0%Z).
  { assert (H : fst (Database.getMessageCount "A" w) = Ok 0%Z)
      by (vm_compute; reflexivity).
    rewrite E in H. injection H as H. exact H. }
  subst n. rewrite E, E'. split; reflexivity.
Defined.

Lemma elem_of_all_messages s id r :
  (id, r) ∈ Query.all_messages s
  ↔ match id with
    | Some i => tbl_messages s !! i = Some r
    | None => r ∈ tbl_messages_null s
    end.
Proof.
  unfold Query.all_messages. rewrite elem_of_app, !list_elem_of_fmap. split.
  - intros [([i r'] & E & Hin)|(r' & E & Hin)]; injection E as -> ->.
    + apply elem_of_map_to_list in Hin. exact Hin.
    + exact Hin.
  - destruct id as [i|]; intros H.
    + left. exists (i, r). split; [reflexivity|].
      apply elem_of_map_to_list. exact H.
    + right. exists r. split; [reflexivity | exact H].
Qed.

Lemma elem_of_messages_of s jid r :
  r ∈ (snd <$> Query.messages_of jid s) ↔ message_of s jid r.
Proof.
  unfold Query.messages_of, message_of. rewrite list_elem_of_fmap. split.
  - intros ([id r'] & -> & Hin). apply list_elem_of_filter in Hin as [Hj Hin].
    simpl in *. apply elem_of_all_messages in Hin.
    split; [|exact Hj]. destruct id as [i|]; eauto.
  - intros [[[i Hi]|Hn] Hj].
    + exists (Some i, r). split; [reflexivity|].
      apply list_elem_of_filter. split; [exact Hj|].
      apply elem_of_all_messages. exact Hi.
    + exists (None, r). split; [reflexivity|].
      apply list_elem_of_filter. split; [exact Hj|].
      apply elem_of_all_messages. exact Hn.
Qed.

Lemma minimum_spec l :
  match Query.minimum l with
  | Some t => t ∈ l ∧ ∀ x, x ∈ l → (t <= x)%Z
  | None => l = []
  end.
Proof.
  induction l as [|x l IH]; simpl; [reflexivity|].
  destruct (Query.minimum l) as [a|].
  - destruct IH as [Hin Hle]. split.
    + destruct (Z.min_spec x a) as [[_ ->]|[_ ->]];
        [apply list_elem_of_here | apply list_elem_of_further, Hin].
    + intros y Hy. apply elem_of_cons in Hy as [->|Hy]; [lia|].
      specialize (Hle y Hy). lia.
  - subst l. split; [apply list_elem_of_here|].
    intros y Hy. apply list_elem_of_singleton in Hy as ->. lia.
Qed.

(** X14: with no failing call, [getOldestMessageTimestamp] returns the least
    timestamp among the messages of the conversation when that is not 0,
    and nothing when the conversation has no message or when its oldest
    message is dated 0. *)
Theorem oldest_timestamp_is_the_least jid w :
  faults w = [] →
  ∃ o, Database.getOldestMessageTimestamp jid w = (Ok o, w)
       ∧ match o with
         | Some t =>
             t ≠ 0%Z
             ∧ (∃ r, message_of (db w) jid r ∧ messages.timestamp r = t)
             ∧ ∀ r, message_of (db w) jid r → (t <= messages.timestamp r)%Z
         | None =>
             (∀ r, ¬ message_of (db w) jid r)
             ∨ (∃ r, message_of (db w) jid r ∧ messages.timestamp r = 0%Z)
               ∧ ∀ r, message_of (db w) jid r → (0 <= messages.timestamp r)%Z
         end.
Proof.
  intros Hf.
  unfold Database.getOldestMessageTimestamp, db_method, try_catch, bind.
  rewrite (run_ok (Query.oldest_timestamp jid) w _ (db w) Hf eq_refl).
  rewrite set_db_same. simpl.
  set (l := (λ kv : option string * messages.row, messages.timestamp kv.2)
            <$> Query.messages_of jid (db w)).
  assert (Hl : ∀ t, t ∈ l ↔ ∃ r, message_of (db w) jid r
                                 ∧ messages.timestamp r = t).
  { intros t. unfold l. rewrite list_elem_of_fmap. split.
    - intros ([id r] & -> & Hin). exists r. split; [|reflexivity].
      apply elem_of_messages_of, list_elem_of_fmap.
      exists (id, r). split; [reflexivity | exact Hin].
    - intros (r & Hr & <-).
      apply elem_of_messages_of, list_elem_of_fmap in Hr as ([id r'] & -> & Hin).
      exists (id, r'). split; [reflexivity | exact Hin]. }
  pose proof (minimum_spec l) as Hmin.
  destruct (Query.minimum l) as [t|] eqn:Em.
  - destruct Hmin as [Hin Hle]. unfold Js.truthy_num.
    destruct (Z.eqb_spec t 0) as [->|Hne]; simpl.
    + exists None. split; [reflexivity|]. right. split.
      * apply Hl, Hin.
      * intros r Hr. apply Hle, Hl. eauto.
    + exists (Some t). split; [reflexivity|]. split; [exact Hne|]. split.
      * apply Hl, Hin.
      * intros r Hr. apply Hle, Hl. eauto.
  - exists None. split; [reflexivity|]. left. intros r Hr.
    assert (Hin : messages.timestamp r ∈ l) by (apply Hl; eauto).
    rewrite Hmin in Hin. apply elem_of_nil in Hin. exact Hin.
Qed.

(** Two dated messages, then a third one dated 0. *)
Lemma oldest_timestamp_is_the_least_witness :
  let w0 := snd (database.saveChat "A" (Some "Ann") None Js.NaN None "text" None
                   (Sample.world empty_store 1700000000000)) in
  let save id t :=
    database.saveMessage (Some id) (Some "A") false "hello" (Js.Num t) "text"
      "received" None (Some "real-time") in
  let w := snd ((save "m1" 300%Z;; save "m2" 200%Z) w0) in
  let w' := snd (save "m0" 0%Z w) in
  fst (Database.getOldestMessageTimestamp "A" w) = Ok (Some 200%Z)
  ∧ fst (Database.getOldestMessageTimestamp "A" w') = Ok None.
Proof.
  intros w0 save w w'.
  destruct (oldest_timestamp_is_the_least "A" w) as (o & E & _);
    [reflexivity|].
  destruct (oldest_timestamp_is_the_least "A" w') as (o' & E' & _);
    [reflexivity|].
  rewrite E, E'. simpl. split.
  - assert (H : fst (Database.getOldestMessageTimestamp "A" w)
                = Ok (Some 200%Z)) by (vm_compute; reflexivity).
    rewrite E in H. exact H.
  - assert (H : fst (Database.getOldestMessageTimestamp "A" w') = Ok None)
      by (vm_compute; reflexivity).
    rewrite E' in H. exact H.
Defined.

(** ** Ordered queries *)

#[global] Instance null_le_total : Total Query.null_le.
Proof. intros [x|] [y|]; simpl; auto. lia. Qed.

#[global] Instance null_le_trans : Transitive Query.null_le.
Proof. intros [x|] [y|] [z|]; simpl; auto; try contradiction. lia. Qed.

#[global] Instance newest_first_total {A} (key : A → option Z) :
  Total (Query.newest_first key).
Proof. intros x y. unfold Query.newest_first. apply null_le_total. Qed.

#[global] Instance newest_first_trans {A} (key : A → option Z) :
  Transitive (Query.newest_first key).
Proof.
  intros x y z. unfold Query.newest_first. intros H1 H2.
  exact (transitivity H2 H1).
Qed.

(** What ORDER BY key DESC LIMIT ? OFFSET ? selects: the rows, put in an
    order in which no row comes before one with a greater key, split into
    those that the offset skips, those that are returned, and those that the
    limit cuts off. *)
Lemma limit_offset_order_by {A} (key : A → option Z) limit offset
    (rows : list A) :
  ∃ skipped cut,
    rows ≡ₚ skipped
            ++ Query.limit_offset limit offset (Query.order_by_desc key rows)
            ++ cut
    ∧ StronglySorted (Query.newest_first key)
        (skipped
         ++ Query.limit_offset limit offset (Query.order_by_desc key rows)
         ++ cut)
    ∧ length skipped = Z.to_nat offset `min` length rows
    ∧ (if (limit <? 0)%Z then cut = []
       else length (Query.limit_offset limit offset
                      (Query.order_by_desc key rows))
            = Z.to_nat limit `min` (length rows - length skipped)).
Proof.
  unfold Query.limit_offset, Query.order_by_desc.
  set (sorted := merge_sort (Query.newest_first key) rows).
  assert (Hlen : length sorted = length rows).
  { unfold sorted. rewrite merge_sort_Permutation. reflexivity. }
  exists (take (Z.to_nat offset) sorted).
  destruct (limit <? 0)%Z.
  - exists []. rewrite app_nil_r, take_drop.
    split; [unfold sorted; rewrite merge_sort_Permutation; reflexivity|].
    split; [apply StronglySorted_merge_sort; apply _|].
    split; [rewrite length_take, Hlen; reflexivity | reflexivity].
  - exists (drop (Z.to_nat limit) (drop (Z.to_nat offset) sorted)).
    rewrite !take_drop.
    split; [unfold sorted; rewrite merge_sort_Permutation; reflexivity|].
    split; [apply StronglySorted_merge_sort; apply _|].
    split; [rewrite length_take, Hlen; reflexivity|].
    rewrite !length_take, length_drop, Hlen. lia.
Qed.

Lemma getChats_ok limit w :
  faults w = [] →
  Database.getChats limit w
  = (Ok (Query.limit_offset limit 0
           (Query.order_by_desc (chats.last_message_timestamp ∘ chat_list.chat)
              (Query.open_chats (db w)))), w).
Proof.
  intros Hf.
  exact (read_ok "getChats" (Query.select_chats limit) _ w (λ s, eq_refl) Hf).
Qed.

Lemma elem_of_open_chats s row :
  row ∈ Query.open_chats s
  ↔ ∃ c, tbl_chats s !! chat_list.jid row = Some c
         ∧ chats.is_archived c = false
         ∧ row = Query.join_chat s (chat_list.jid row) c.
Proof.
  unfold Query.open_chats. rewrite list_elem_of_fmap. split.
  - intros ([j c] & -> & Hin). apply list_elem_of_filter in Hin as [Ha Hin].
    apply elem_of_map_to_list in Hin. simpl in *. eauto.
  - intros (c & Hc & Ha & Hrow). exists (chat_list.jid row, c).
    split; [exact Hrow|]. apply list_elem_of_filter.
    split; [exact Ha | apply elem_of_map_to_list, Hc].
Qed.

Lemma NoDup_open_chats s : NoDup (chat_list.jid <$> Query.open_chats s).
Proof.
  unfold Query.open_chats. rewrite <- list_fmap_compose.
  apply (NoDup_fmap_2_strong _).
  - intros [j1 c1] [j2 c2] H1 H2 E. simpl in E. subst j2.
    apply list_elem_of_filter in H1 as [_ H1].
    apply list_elem_of_filter in H2 as [_ H2].
    apply elem_of_map_to_list in H1, H2. congruence.
  - apply NoDup_filter, NoDup_map_to_list.
Qed.

(** X15: with no failing call, [getChats] returns conversations that are stored
    and not archived, each one once and with the columns of its last message
    and of its contact, the one with the greatest timestamp of the last
    message first and those without such a timestamp last; it returns as
    many as the limit allows, and none that it leaves out is newer than one
    that it returns. *)
Theorem chats_come_newest_first limit w :
  faults w = [] → (0 <= limit)%Z →
  ∃ rows rest,
    Database.getChats limit w = (Ok rows, w)
    ∧ (∀ row, row ∈ rows ++ rest
              ↔ ∃ c, tbl_chats (db w) !! chat_list.jid row = Some c
                     ∧ chats.is_archived c = false
                     ∧ row = Query.join_chat (db w) (chat_list.jid row) c)
    ∧ NoDup (chat_list.jid <$> rows ++ rest)
    ∧ StronglySorted
        (Query.newest_first (chats.last_message_timestamp ∘ chat_list.chat))
        (rows ++ rest)
    ∧ length rows = Z.to_nat limit `min` length (rows ++ rest).
Proof.
  intros Hf Hl. rewrite (getChats_ok limit w Hf).
  destruct (limit_offset_order_by
              (chats.last_message_timestamp ∘ chat_list.chat) limit 0
              (Query.open_chats (db w)))
    as (skipped & cut & Hperm & Hsorted & Hskip & Hlen).
  simpl in Hskip. apply nil_length_inv in Hskip. subst skipped.
  simpl in Hperm, Hsorted, Hlen.
  destruct (Z.ltb_spec limit 0) as [|_]; [lia|].
  eexists _, cut. split; [reflexivity|].
  split; [|split; [|split]].
  - intros row. rewrite <- Hperm. apply elem_of_open_chats.
  - rewrite <- Hperm. apply NoDup_open_chats.
  - exact Hsorted.
  - rewrite Hlen, <- Hperm. f_equal. lia.
Qed.

(** Three conversations, of which the two newest are asked for. *)
Lemma chats_come_newest_first_witness :
  let w :=
    snd ((database.saveChat "A" (Some "Ann") None (Js.Num 100) None "text" None;;
          database.saveChat "B" (Some "Bob") None (Js.Num 300) None "text" None;;
          database.saveChat "C" (Some "Cy") None (Js.Num 200) None "text" None)
           (Sample.world empty_store 1700000000000)) in
  (chat_list.jid <$> default [] (match fst (Database.getChats 2 w) with
                                 | Ok rows => Some rows
                                 | Throw _ => None
                                 end)) = ["B"; "C"].
Proof.
  intros w.
  destruct (chats_come_newest_first 2 w) as (rows & rest & E & _);
    [reflexivity | lia |].
  assert (H : fst (Database.getChats 2 w) = Ok rows) by (rewrite E; reflexivity).
  rewrite H. simpl. vm_compute in H. injection H as <-. reflexivity.
Defined.

Lemma getMessages_ok jid limit offset w :
  faults w = [] →
  Database.getMessages jid limit offset w
  = (Ok (reverse
           (Query.limit_offset limit offset
              (Query.order_by_desc Query.message_timestamp
                 (Query.join_message (db w) <$> Query.messages_of jid (db w))))),
     w).
Proof.
  intros Hf. unfold Database.getMessages, db_method, try_catch, bind.
  rewrite (run_ok (Query.select_messages jid limit offset) w _ (db w) Hf eq_refl).
  rewrite set_db_same. reflexivity.
Qed.

Lemma StronglySorted_reverse {A} (R : relation A) `{!Transitive R} l :
  StronglySorted R l → StronglySorted (flip R) (reverse l).
Proof.
  intros H. apply Sorted_StronglySorted.
  - intros x y z H1 H2. exact (transitivity (R := R) H2 H1).
  - apply Sorted_reverse, StronglySorted_Sorted, H.
Qed.

(** X16: with no failing call, [getMessages] returns messages of the
    conversation in chronological order: after skipping as many of the
    newest as the offset says, it returns as many as the limit allows, and
    every message that it leaves out is not newer than them when it is cut
    off by the limit, not older when it is skipped by the offset. *)
Theorem messages_come_in_order jid limit offset w :
  faults w = [] → (0 <= limit)%Z →
  ∃ rows older newer,
    Database.getMessages jid limit offset w = (Ok rows, w)
    ∧ Query.join_message (db w) <$> Query.messages_of jid (db w)
      ≡ₚ older ++ rows ++ newer
    ∧ StronglySorted
        (λ x y, (messages.timestamp (message_list.message x)
                 <= messages.timestamp (message_list.message y))%Z)
        (older ++ rows ++ newer)
    ∧ length newer
      = Z.to_nat offset `min` length (Query.messages_of jid (db w))
    ∧ length rows
      = Z.to_nat limit
        `min` (length (Query.messages_of jid (db w)) - length newer).
Proof.
  intros Hf Hl. rewrite (getMessages_ok jid limit offset w Hf).
  destruct (limit_offset_order_by Query.message_timestamp limit offset
              (Query.join_message (db w) <$> Query.messages_of jid (db w)))
    as (skipped & cut & Hperm & Hsorted & Hskip & Hlen).
  destruct (Z.ltb_spec limit 0) as [|_]; [lia|].
  rewrite length_fmap in Hskip, Hlen.
  eexists _, (reverse cut), (reverse skipped). split; [reflexivity|].
  split; [|split; [|split]].
  - rewrite Hperm at 1. rewrite <- !reverse_app, <- app_assoc.
    rewrite reverse_Permutation. reflexivity.
  - rewrite <- !reverse_app, <- app_assoc.
    apply (StronglySorted_reverse _) in Hsorted. exact Hsorted.
  - rewrite length_reverse. exact Hskip.
  - rewrite !length_reverse. exact Hlen.
Qed.

(** Three messages, of which the two newest are asked for. *)
Lemma messages_come_in_order_witness :
  let w0 := snd (database.saveChat "A" (Some "Ann") None Js.NaN None "text" None
                   (Sample.world empty_store 1700000000000)) in
  let save id t :=
    database.saveMessage (Some id) (Some "A") false "hello" (Js.Num t) "text"
      "received" None (Some "real-time") in
  let w := snd ((save "m1" 300%Z;; save "m2" 100%Z;; save "m3" 200%Z) w0) in
  (message_list.id <$> default [] (match fst (Database.getMessages "A" 2 0 w) with
                                   | Ok rows => Some rows
                                   | Throw _ => None
                                   end)) = [Some "m3"; Some "m1"].
Proof.
  intros w0 save w.
  destruct (messages_come_in_order "A" 2 0 w) as (rows & older & newer & E & _);
    [reflexivity | lia |].
  assert (H : fst (Database.getMessages "A" 2 0 w) = Ok rows)
    by (rewrite E; reflexivity).
  rewrite H. simpl. vm_compute in H. injection H as <-. reflexivity.
Defined.

(** ** The conversation list *)

(** X17: a contact that is saved with a name for a stored conversation shows in
    the entry of the conversation in the list: the entry bears the name of
    the contact, whatever the name of the conversation, and the contact's
    avatar and phone number, next to the avatar of the conversation. *)
Theorem saved_contact_names_the_chat jid name phone avatar c w :
  faults w = [] → tbl_chats (db w) !! jid = Some c →
  Js.truthy_str name = true →
  let w' := snd (database.saveContact jid name phone avatar w) in
  ∃ row,
    Database.getChatWithContact jid w' = (Ok (Some row), w')
    ∧ chat_list.chat row = c
    ∧ Some (cd_name (backend.chatListEntry row)) = name
    ∧ cd_avatarBase64 (backend.chatListEntry row) = avatar
    ∧ cd_phoneNumber (backend.chatListEntry row) = phone
    ∧ cd_chatAvatarBase64 (backend.chatListEntry row) = chats.avatar_base64 c.
Proof.
  intros Hf Hc Hname w'.
  assert (E : database.saveContact jid name phone avatar w
              = (Ok tt,
                 set_db {| tbl_chats := tbl_chats (db w);
                           tbl_messages := tbl_messages (db w);
                           tbl_messages_null := tbl_messages_null (db w);
                           tbl_contacts :=
                             <[jid := {| contacts.name := name;
                                         contacts.phone_number := phone;
                                         contacts.avatar_base64 := avatar;
                                         contacts.is_blocked := false |}]>
                               (tbl_contacts (db w)) |} w)).
  { unfold database.saveContact.
    apply db_method_run_ok; [exact Hf | reflexivity]. }
  subst w'. rewrite E. simpl.
  rewrite getChatWithContact_ok by (destruct w; exact Hf). simpl.
  rewrite Hc. simpl. eexists. split; [reflexivity|].
  unfold backend.chatListEntry, Query.join_chat. simpl.
  rewrite lookup_insert_eq. simpl. repeat split.
  unfold Js.or_opt. rewrite Hname.
  destruct name as [[|ch s]|]; try discriminate. reflexivity.
Qed.

(** A conversation named by its id, and a contact for it. *)
Lemma saved_contact_names_the_chat_witness :
  let w := snd (database.saveChat "A" (Some "A") None Js.NaN None "text" None
                  (Sample.world empty_store 1700000000000)) in
  let w' := snd (database.saveContact "A" (Some "Ann") (Some "+1 555")
                   (Some "ann.png") w) in
  ∃ row, fst (Database.getChatWithContact "A" w') = Ok (Some row)
         ∧ cd_name (backend.chatListEntry row) = "Ann".
Proof.
  intros w w'.
  destruct (saved_contact_names_the_chat "A" (Some "Ann") (Some "+1 555")
              (Some "ann.png")
              {| chats.name := Some "A"; chats.avatar_base64 := None;
                 chats.last_message_id := None;
                 chats.last_message_timestamp := None;
                 chats.last_message_type := Some "text";
                 chats.last_message_from := None; chats.unread_count := 0;
                 chats.is_archived := false;
                 chats.history_baseline_timestamp := None;
                 chats.last_sync_timestamp := None;
                 chats.history_complete := false |} w)
    as (row & E & _ & Hn & _); [reflexivity | reflexivity | reflexivity |].
  exists row. fold w' in E. rewrite E. split; [reflexivity|].
  injection Hn as Hn. exact Hn.
Defined.

Lemma run_fault {A} (stmt : Store → outcome A) w rest :
  faults w = true :: rest →
  run stmt w = (Throw (SqliteError "SQLITE_IOERR"), set_faults rest w).
Proof. intros Hf. unfold run. rewrite Hf. reflexivity. Qed.

Lemma getChats_fault limit w rest :
  faults w = true :: rest →
  Database.getChats limit w
  = (Throw (DatabaseError "getChats"), set_faults rest w).
Proof.
  intros Hf. unfold Database.getChats, db_method, try_catch.
  rewrite (run_fault _ w rest Hf). reflexivity.
Qed.

Lemma getChats_length limit w rows :
  faults w = [] → (0 <= limit)%Z →
  Database.getChats limit w = (Ok rows, w) →
  length rows = Z.to_nat limit `min` length (Query.open_chats (db w)).
Proof.
  intros Hf Hl. rewrite (getChats_ok limit w Hf). intros H. injection H as <-.
  unfold Query.limit_offset, Query.order_by_desc.
  destruct (Z.ltb_spec limit 0) as [|_]; [lia|].
  rewrite length_take, drop_0, merge_sort_Permutation. reflexivity.
Qed.

Lemma open_chats_nil s : Query.open_chats s = [] ↔ ∀ jid, ¬ listed s jid.
Proof.
  split.
  - intros H jid (c & Hc & Ha).
    assert (Hin : Query.join_chat s jid c ∈ Query.open_chats s).
    { apply elem_of_open_chats. exists c. simpl. auto. }
    rewrite H in Hin. apply elem_of_nil in Hin. exact Hin.
  - intros H. destruct (Query.open_chats s) as [|row rest] eqn:E; [reflexivity|].
    assert (Hin : row ∈ Query.open_chats s) by (rewrite E; apply list_elem_of_here).
    apply elem_of_open_chats in Hin as (c & Hc & Ha & _).
    exfalso. apply (H (chat_list.jid row)). exists c. auto.
Qed.

Lemma getChats_nil limit w rows :
  faults w = [] → (0 < limit)%Z →
  Database.getChats limit w = (Ok rows, w) →
  rows = [] ↔ ∀ jid, ¬ listed (db w) jid.
Proof.
  intros Hf Hl H. apply getChats_length in H; [|exact Hf|lia].
  rewrite <- open_chats_nil.
  destruct rows, (Query.open_chats (db w)); simpl in *;
    split; intros; try reflexivity; try discriminate; lia.
Qed.

(** X18: when no list is cached and the store answers, [handleGetInitialChats]
    reads the fifty newest conversations: if there is none, it writes
    nothing and sets the flag that the consumer waits for the list;
    otherwise it writes one [initial_chats] envelope with an entry for each
    of them, and neither sets the flag nor caches the list. *)
Theorem initial_chats_from_store err w :
  initialChatsPayload w = None → faults w = [] → clientSocket w = Some OPEN →
  ∃ rows,
    Database.getChats 50 w = (Ok rows, w)
    ∧ (rows = [] ↔ ∀ jid, ¬ listed (db w) jid)
    ∧ backend.handleGetInitialChats err w
      = (Ok tt,
         match rows with
         | [] => set_clientIsWaitingForChats true w
         | _ :: _ =>
             set_sent (sent w ++ [{| env_type := "initial_chats";
                                     env_data :=
                                       InitialChats
                                         (backend.chatListEntry <$> rows) |}])
                      w
         end).
Proof.
  intros Hp Hf Hopen.
  pose proof (getChats_ok 50 w Hf) as E.
  eexists. split; [exact E|]. split; [exact (getChats_nil 50 w _ Hf ltac:(lia) E)|].
  unfold backend.handleGetInitialChats, try_catch, bind at 1, gets.
  rewrite Hp. unfold bind. rewrite E.
  destruct (Query.limit_offset _ _ _) as [|row rows]; [reflexivity|].
  rewrite (sendToFrontend_open _ _ w Hopen). reflexivity.
Qed.

(** The empty store, and a store with two conversations. *)
Lemma initial_chats_from_store_witness :
  let err := λ (_ : Exn) (_ : string), ErrorInfo "database" "failed" in
  let w0 := Sample.world empty_store 1700000000000 in
  let w := snd ((database.saveChat "A" (Some "Ann") None (Js.Num 100) None
                   "text" None;;
                 database.saveChat "B" (Some "Bob") None (Js.Num 300) None
                   "text" None) w0) in
  backend.handleGetInitialChats err w0
  = (Ok tt, set_clientIsWaitingForChats true w0)
  ∧ ∃ e, sent (snd (backend.handleGetInitialChats err w)) = [e]
         ∧ env_type e = "initial_chats".
Proof.
  intros err w0 w.
  destruct (initial_chats_from_store err w0) as (rows0 & E0 & _ & H0);
    [reflexivity | reflexivity | reflexivity |].
  destruct (initial_chats_from_store err w) as (rows & E & _ & H);
    [reflexivity | reflexivity | reflexivity |].
  vm_compute in E0. injection E0 as <-.
  vm_compute in E. injection E as <-.
  split; [exact H0|]. rewrite H. eexists. split; reflexivity.
Defined.

(** X19: when no list is cached and the store fails, the consumer is answered
    with one [error] envelope that carries what the error handler makes of
    the failure; the flag is not set, so that the next history delivery is
    not forwarded. *)
Theorem initial_chats_store_failure err w rest :
  initialChatsPayload w = None → faults w = true :: rest →
  clientSocket w = Some OPEN →
  backend.handleGetInitialChats err w
  = (Ok tt,
     set_sent (sent w ++ [{| env_type := "error";
                             env_data := err (DatabaseError "getChats")
                                             "get initial chats" |}])
              (set_faults rest w)).
Proof.
  intros Hp Hf Hopen.
  unfold backend.handleGetInitialChats, try_catch, bind at 1, gets.
  rewrite Hp. unfold bind. rewrite (getChats_fault 50 w rest Hf).
  rewrite sendToFrontend_open by exact Hopen. reflexivity.
Qed.

(** A store whose next call fails. *)
Lemma initial_chats_store_failure_witness :
  let err := λ (_ : Exn) (_ : string), ErrorInfo "database" "failed" in
  let w := set_faults [true] (Sample.world empty_store 1700000000000) in
  (env_data <$> sent (snd (backend.handleGetInitialChats err w)))
  = [ErrorInfo "database" "failed"]
  ∧ clientIsWaitingForChats (snd (backend.handleGetInitialChats err w)) = false.
Proof.
  intros err w.
  rewrite (initial_chats_store_failure err w []); [|reflexivity..].
  split; reflexivity.
Defined.

#[global] Instance unheard_po : PreOrder unheard.
Proof.
  split.
  - intros w. repeat split.
  - intros a b c (A1 & A2 & A3 & A4) (B1 & B2 & B3 & B4).
    repeat split; congruence.
Qed.

#[global] Instance same_tables_po : PreOrder same_tables.
Proof.
  split.
  - intros w. reflexivity.
  - intros a b c. unfold same_tables. congruence.
Qed.

Lemma unheard_run {A} (stmt : Store → outcome A) : keeps unheard (run stmt).
Proof.
  intros w. unfold run.
  destruct (faults w) as [|[] rest]; simpl;
    try (repeat split; reflexivity); destruct (stmt (db w)); repeat split.
Qed.

Ltac unheard_going :=
  repeat first
    [ apply keeps_ret | apply keeps_throw | apply keeps_Date_now
    | apply keeps_Date_toISOString
    | apply keeps_gets | apply unheard_run
    | apply keeps_db_method | apply keeps_try_catch | apply keeps_seq
    | apply keeps_bind | apply keeps_if
    | match goal with |- ∀ _, keeps _ _ => intro end ];
  try typeclasses eauto.

Lemma unheard_saveMessage id jid fromMe content ts type status sender session :
  keeps unheard
        (database.saveMessage id jid fromMe content ts type status sender session).
Proof.
  unfold database.saveMessage. cbv zeta. unheard_going.
  destruct jid; [unfold database.saveContact|]; unheard_going.
Qed.

Lemma unheard_saveHistoryMessage chat session msg saved skipped :
  keeps unheard (saveHistoryMessage chat session msg saved skipped).
Proof.
  unfold saveHistoryMessage.
  apply keeps_try_catch; [typeclasses eauto| |unheard_going].
  apply keeps_bind; [typeclasses eauto|unheard_going|]. intros now.
  destruct (getMessageKey msg) as [key|]; [|unheard_going].
  destruct (Js.truthy_str (key_id key)); [|unheard_going].
  apply keeps_seq; [typeclasses eauto|apply unheard_saveMessage|unheard_going].
Qed.

Lemma unheard_loop chat msgs session saved skipped :
  keeps unheard (saveMessagesFromHistory_loop chat msgs session saved skipped).
Proof.
  revert saved skipped. induction msgs as [|msg rest IH]; intros saved skipped.
  - simpl. unheard_going.
  - simpl. apply keeps_bind; [typeclasses eauto| |intros counts; apply IH].
    apply unheard_saveHistoryMessage.
Qed.

Lemma unheard_reconcileChat T chat info data :
  keeps unheard (reconcileChat T chat info data).
Proof.
  unfold reconcileChat, saveHistoryChat, saveInitialHistory,
    saveProgressiveHistory, saveMessagesFromHistory, database.saveChat,
    database.saveContact, database.setChatHistoryBaseline,
    database.updateChatSyncTimestamp.
  apply keeps_seq; [typeclasses eauto|unheard_going|].
  apply keeps_seq; [typeclasses eauto| |unheard_going].
  destruct (isNewChat info).
  - destruct (last (chat_messages chat)); [|unheard_going].
    apply keeps_bind; [typeclasses eauto|unheard_going|]. intros now.
    apply keeps_seq; [typeclasses eauto|unheard_going|].
    apply keeps_seq; [typeclasses eauto|unheard_going|].
    apply keeps_seq; [typeclasses eauto|apply unheard_loop|unheard_going].
  - apply keeps_bind; [typeclasses eauto|unheard_going|]. intros now.
    destruct (newMessages _ _ _); [unheard_going|].
    apply keeps_seq; [typeclasses eauto|unheard_going|].
    apply keeps_seq; [typeclasses eauto|apply unheard_loop|unheard_going].
Qed.

(** One turn of the reconciler leaves the consumer's side alone, and adds
    at most the entry of its conversation to the list. *)
Lemma processHistoryChat_entry T chat acc w :
  ∃ r w', processHistoryChat T chat acc w = (Ok r, w')
          ∧ unheard w w'
          ∧ (r = acc ∨ ∃ data, r = acc ++ [data] ∧ cd_jid data = chat_id chat).
Proof.
  unfold processHistoryChat, try_catch at 1, bind at 1.
  pose proof (unheard_run (Sql.select_chat (chat_id chat)) w) as Hq.
  unfold database.getChatHistoryInfo, db_method, try_catch at 1, throw.
  destruct (run (Sql.select_chat (chat_id chat)) w) as [[info|e] w1];
    simpl in Hq; [|do 2 eexists; split; [reflexivity|]; auto].
  unfold bind, Date_now.
  destruct (historyChatData (clock w1) chat) as [data|e] eqn:Ed;
    [|do 2 eexists; split; [reflexivity|]; auto].
  pose proof (unheard_reconcileChat T chat info data w1) as Hr.
  unfold try_catch, mbind, M_bind, bind.
  destruct (reconcileChat T chat info data w1) as [[[]|e] w2]; simpl in *;
    (do 2 eexists; split; [reflexivity|]);
    (split; [etransitivity; eassumption|]);
    right; exists data; (split; [reflexivity|]);
    eapply historyChatData_jid, Ed.
Qed.

Lemma handleHistorySet_loop_entries T cs acc w :
  ∃ new w', handleHistorySet_loop T cs acc w = (Ok (acc ++ new), w')
            ∧ unheard w w'
            ∧ (cd_jid <$> new) `sublist_of` (chat_id <$> cs).
Proof.
  revert acc w. induction cs as [|chat rest IH]; intros acc w; simpl.
  - exists [], w. rewrite app_nil_r.
    split; [reflexivity|]. split; [reflexivity | constructor].
  - unfold bind.
    destruct (processHistoryChat_entry T chat acc w) as (r & w1 & -> & Hq & Hacc).
    destruct Hacc as [->|(data & -> & Hjid)].
    + destruct (IH acc w1) as (new & w2 & E & Hq' & Hsub).
      exists new, w2. split; [exact E|].
      split; [etransitivity; eassumption|]. apply sublist_cons, Hsub.
    + destruct (IH (acc ++ [data]) w1) as (new & w2 & E & Hq' & Hsub).
      exists (data :: new), w2. rewrite E, <- app_assoc.
      split; [reflexivity|]. split; [etransitivity; eassumption|].
      simpl. rewrite Hjid. apply sublist_skip, Hsub.
Qed.

(** [handleHistorySet] for a delivery with conversations: the state after
    the loop, then the cache, the envelope and the flag. *)
Lemma handleHistorySet_chats item cs w :
  item_chats item = Some cs →
  ∃ chats w0,
    unheard w w0
    ∧ (cd_jid <$> chats) `sublist_of` (chat_id <$> cs)
    ∧ handleHistorySet item w
      = (Ok tt,
         let w1 := set_initialChatsPayload (Some chats) w0 in
         if clientIsWaitingForChats w
         then set_clientIsWaitingForChats false
                match clientSocket w with
                | Some OPEN =>
                    set_sent (sent w ++ [{| env_type := "initial_chats";
                                            env_data := InitialChats chats |}])
                             w1
                | _ => w1
                end
         else w1).
Proof.
  intros Ei.
  destruct (handleHistorySet_loop_entries (clock w) cs [] w)
    as (chats & w0 & E & (Hs & Hq & Hp & Hflag) & Hsub).
  exists chats, w0. split; [repeat split; assumption|]. split; [exact Hsub|].
  unfold handleHistorySet, try_catch, bind at 1, Date_now. rewrite Ei.
  unfold bind at 1. rewrite E. simpl.
  unfold mbind, M_bind, bind, modify, gets. simpl.
  rewrite Hflag. destruct (clientIsWaitingForChats w); [|reflexivity].
  unfold sendToFrontend. simpl. rewrite Hs, Hq.
  destruct (clientSocket w) as [[]|]; reflexivity.
Qed.

(** X20: a consumer that waits for the conversation list is served by the next
    history delivery: the handler returns, caches the list, a subsequence
    of the delivered conversations, writes it to the open socket in one
    [initial_chats] envelope and clears the flag, whatever writes fail on
    the way. A delivery without conversations changes nothing, and the
    consumer keeps waiting. *)
Theorem waiting_consumer_is_served item w :
  clientIsWaitingForChats w = true → clientSocket w = Some OPEN →
  let w' := snd (handleHistorySet item w) in
  match item_chats item with
  | Some cs =>
      ∃ chats,
        (cd_jid <$> chats) `sublist_of` (chat_id <$> cs)
        ∧ initialChatsPayload w' = Some chats
        ∧ sent w' = sent w ++ [{| env_type := "initial_chats";
                                  env_data := InitialChats chats |}]
        ∧ clientIsWaitingForChats w' = false
  | None => w' = w
  end.
Proof.
  intros Hwait Hopen w'. subst w'.
  destruct (item_chats item) as [cs|] eqn:Ei.
  - destruct (handleHistorySet_chats item cs w Ei)
      as (chats & w0 & (Hs & Hq & Hp & Hflag) & Hsub & H).
    rewrite H, Hwait, Hopen. simpl. exists chats. repeat split. exact Hsub.
  - unfold handleHistorySet, try_catch, bind, Date_now. rewrite Ei. reflexivity.
Qed.

(** A waiting consumer and a delivery of one conversation. *)
Lemma waiting_consumer_is_served_witness :
  let w0 := Sample.world empty_store 1700000000000 in
  let w := set_clientIsWaitingForChats true w0 in
  let item := Sample.delivery [Sample.chat "A" [Sample.text "A" "m1" 100 "hi"]] in
  let w' := snd (handleHistorySet item w) in
  (env_type <$> sent w') = ["initial_chats"]
  ∧ clientIsWaitingForChats w' = false.
Proof.
  intros w0 w item w'.
  destruct (waiting_consumer_is_served item w) as (chats & _ & _ & Hs & Hf);
    [reflexivity | reflexivity |].
  fold w' in Hs, Hf. rewrite Hs, Hf. split; reflexivity.
Defined.

(** X21: once a history delivery with conversations has been handled, the
    request for the conversation list is answered with the list that the
    delivery has cached, be it empty, and the store is not read: the
    handler returns, writes that list to the open socket in one
    [initial_chats] envelope and changes nothing else. *)
Theorem history_delivery_fills_the_cache err item cs w :
  item_chats item = Some cs → clientSocket w = Some OPEN →
  let w1 := snd (handleHistorySet item w) in
  let r := backend.handleGetInitialChats err w1 in
  ∃ chats,
    initialChatsPayload w1 = Some chats
    ∧ (cd_jid <$> chats) `sublist_of` (chat_id <$> cs)
    ∧ fst r = Ok tt
    ∧ sent (snd r) = sent w1 ++ [{| env_type := "initial_chats";
                                    env_data := InitialChats chats |}]
    ∧ db (snd r) = db w1
    ∧ faults (snd r) = faults w1
    ∧ clientSocket (snd r) = Some OPEN
    ∧ initialChatsPayload (snd r) = Some chats
    ∧ clientIsWaitingForChats (snd r) = clientIsWaitingForChats w1.
Proof.
  intros Ei Hopen w1 r.
  destruct (handleHistorySet_chats item cs w Ei)
    as (chats & w0 & (Hs & Hq & Hp & Hflag) & Hsub & H).
  assert (Hc : initialChatsPayload w1 = Some chats ∧ clientSocket w1 = Some OPEN).
  { subst w1. rewrite H, Hopen. simpl.
    destruct (clientIsWaitingForChats w); simpl; rewrite ?Hs; auto. }
  destruct Hc as [Hc Ho]. exists chats. split; [exact Hc|]. split; [exact Hsub|].
  subst r. unfold backend.handleGetInitialChats, try_catch, bind, gets.
  rewrite Hc. unfold sendToFrontend. rewrite Ho.
  cbn [fst snd sent set_sent clientSocket db faults initialChatsPayload
       clientIsWaitingForChats].
  repeat split; assumption.
Qed.

(** A delivery of two conversations, the first of which throws in its
    turn, on a store that holds a third one. *)
Lemma history_delivery_fills_the_cache_witness :
  let err := λ (_ : Exn) (_ : string), ErrorInfo "database" "failed" in
  let w0 := snd (database.saveChat "Z" (Some "Zoe") None (Js.Num 100) None
                   "text" None (Sample.world empty_store 1700000000000)) in
  let item :=
    Sample.delivery [Sample.chat "B" [Sample.nested "B" "b1" 200 "hidden key"];
                     Sample.chat "A" [Sample.text "A" "m1" 100 "hi"]] in
  let w1 := snd (handleHistorySet item w0) in
  (env_data <$> sent (snd (backend.handleGetInitialChats err w1)))
  = [InitialChats
       [{| cd_jid := "A"; cd_name := "A"; cd_lastMessage := Some "hi";
           cd_timestamp := Js.Num 100000; cd_lastMessageType := "text";
           cd_lastMessageFrom := Some "A"; cd_unreadCount := 0;
           cd_avatarBase64 := None; cd_chatAvatarBase64 := None;
           cd_phoneNumber := None |}]]
  ∧ sent w1 = [].
Proof.
  intros err w0 item w1.
  destruct (history_delivery_fills_the_cache err item
              [Sample.chat "B" [Sample.nested "B" "b1" 200 "hidden key"];
               Sample.chat "A" [Sample.text "A" "m1" 100 "hi"]] w0)
    as (chats & Hc & _ & _ & Hsent & _); [reflexivity | reflexivity |].
  fold w1 in Hc, Hsent. rewrite Hsent.
  assert (Hw : sent w1 = []) by (vm_compute; reflexivity).
  rewrite Hw. split; [|reflexivity].
  assert (Hp : initialChatsPayload w1
               = Some [{| cd_jid := "A"; cd_name := "A";
                          cd_lastMessage := Some "hi";
                          cd_timestamp := Js.Num 100000;
                          cd_lastMessageType := "text";
                          cd_lastMessageFrom := Some "A"; cd_unreadCount := 0;
                          cd_avatarBase64 := None; cd_chatAvatarBase64 := None;
                          cd_phoneNumber := None |}])
    by (vm_compute; reflexivity).
  rewrite Hp in Hc. injection Hc as <-. reflexivity.
Defined.

(** X22: [refreshChatList] reads the fifty newest conversations, caches the list
    of their entries and writes it to the consumer in one [chats_updated]
    envelope; the request for the conversation list is answered with that
    very list afterwards. When the store fails it returns all the same, and
    leaves the cache and the socket as they were. *)
Theorem refreshed_list_is_cached err w :
  clientSocket w = Some OPEN →
  (faults w = [] →
   ∃ rows,
     Database.getChats 50 w = (Ok rows, w)
     ∧ let chats := backend.chatListEntry <$> rows in
       let w1 := set_sent (sent w ++ [{| env_type := "chats_updated";
                                         env_data := InitialChats chats |}])
                   (set_initialChatsPayload (Some chats) w) in
       backend.refreshChatList w = (Ok tt, w1)
       ∧ backend.handleGetInitialChats err w1
         = (Ok tt,
            set_sent (sent w1 ++ [{| env_type := "initial_chats";
                                     env_data := InitialChats chats |}]) w1))
  ∧ (∀ rest, faults w = true :: rest →
             backend.refreshChatList w = (Ok tt, set_faults rest w)).
Proof.
  intros Hopen. split.
  - intros Hf. pose proof (getChats_ok 50 w Hf) as E.
    eexists. split; [exact E|]. cbv zeta. split.
    + unfold backend.refreshChatList, try_catch, bind. rewrite E.
      unfold mbind, M_bind, bind, modify. simpl.
      unfold sendToFrontend. simpl. rewrite Hopen. reflexivity.
    + unfold backend.handleGetInitialChats, try_catch, bind, gets. simpl.
      unfold sendToFrontend. simpl. rewrite Hopen. reflexivity.
  - intros rest Hf. unfold backend.refreshChatList, try_catch, bind.
    rewrite (getChats_fault 50 w rest Hf). reflexivity.
Qed.

(** A store with one conversation, answering and failing. *)
Lemma refreshed_list_is_cached_witness :
  let err := λ (_ : Exn) (_ : string), ErrorInfo "database" "failed" in
  let w := snd (database.saveChat "A" (Some "Ann") None (Js.Num 100) None
                  "text" None (Sample.world empty_store 1700000000000)) in
  (env_type <$> sent (snd (backend.refreshChatList w))) = ["chats_updated"]
  ∧ backend.refreshChatList (set_faults [true] w) = (Ok tt, w).
Proof.
  intros err w.
  destruct (refreshed_list_is_cached err w) as [H1 _]; [reflexivity|].
  destruct (refreshed_list_is_cached err (set_faults [true] w)) as [_ H2];
    [reflexivity|].
  destruct H1 as (rows & _ & H1 & _); [reflexivity|].
  rewrite H1. split; [reflexivity|]. apply (H2 []). reflexivity.
Defined.

(** X23: with no failing call, [isFirstTimeLogin] answers [true] exactly when
    the store holds no conversation that is not archived; when the store
    fails it answers [false]. *)
Theorem first_login_is_an_empty_store w :
  (faults w = [] →
   ∃ b, backend.isFirstTimeLogin w = (Ok b, w)
        ∧ (b = true ↔ ∀ jid, ¬ listed (db w) jid))
  ∧ (∀ rest, faults w = true :: rest →
             backend.isFirstTimeLogin w = (Ok false, set_faults rest w)).
Proof.
  split.
  - intros Hf. pose proof (getChats_ok 1 w Hf) as E.
    pose proof (getChats_nil 1 w _ Hf ltac:(lia) E) as Hnil.
    unfold backend.isFirstTimeLogin, try_catch, bind. rewrite E.
    destruct (Query.limit_offset _ _ _) as [|row rows].
    + exists true. split; [reflexivity|]. split; [intros _; apply Hnil; reflexivity|auto].
    + exists false. split; [reflexivity|].
      split; [discriminate|]. intros H. apply Hnil in H. discriminate.
  - intros rest Hf. unfold backend.isFirstTimeLogin, try_catch, bind.
    rewrite (getChats_fault 1 w rest Hf). reflexivity.
Qed.

(** The empty store, a store with one conversation, a failing store. *)
Lemma first_login_is_an_empty_store_witness :
  let w0 := Sample.world empty_store 1700000000000 in
  let w := snd (database.saveChat "A" (Some "Ann") None (Js.Num 100) None
                  "text" None w0) in
  fst (backend.isFirstTimeLogin w0) = Ok true
  ∧ fst (backend.isFirstTimeLogin w) = Ok false
  ∧ fst (backend.isFirstTimeLogin (set_faults [true] w0)) = Ok false.
Proof.
  intros w0 w.
  destruct (first_login_is_an_empty_store w0) as [H0 _].
  destruct (first_login_is_an_empty_store w) as [H1 _].
  destruct (first_login_is_an_empty_store (set_faults [true] w0)) as [_ H2].
  destruct H0 as (b0 & E0 & Hb0); [reflexivity|].
  destruct H1 as (b1 & E1 & Hb1); [reflexivity|].
  rewrite E0, E1, (H2 [] eq_refl). simpl.
  split; [|split; [|reflexivity]].
  - f_equal. apply Hb0. intros jid (c & Hc & _). vm_compute in Hc. discriminate.
  - f_equal. destruct b1; [|reflexivity]. exfalso.
    destruct Hb1 as [Hb1 _]. apply (Hb1 eq_refl "A").
    eexists. split; [vm_compute; reflexivity | reflexivity].
Defined.

(** ** Maintenance functions *)

Lemma same_tables_run_read {A} (stmt : Store → outcome A) :
  (∀ s a s', stmt s = Done a s' → s' = s) → keeps same_tables (run stmt).
Proof.
  intros Hs w. unfold run, same_tables.
  destruct (faults w) as [|[] rest]; simpl; try reflexivity;
    destruct (stmt (db w)) as [a s'|reason] eqn:E; simpl; try reflexivity;
    eapply Hs, E.
Qed.

Lemma getMessages_inv jid limit offset w rows w' :
  Database.getMessages jid limit offset w = (Ok rows, w') →
  rows = reverse
           (Query.limit_offset limit offset
              (Query.order_by_desc Query.message_timestamp
                 (Query.join_message (db w) <$> Query.messages_of jid (db w))))
  ∧ db w' = db w ∧ clock w' = clock w.
Proof.
  intros H. apply db_method_ok_inv, bind_ok_inv in H as (l & w1 & H1 & H2).
  injection H2 as <- <-.
  pose proof (fault_free_run (Query.select_messages jid limit offset) w)
    as [Hc _].
  rewrite H1 in Hc. simpl in Hc.
  apply run_ok_inv in H1. unfold Query.select_messages in H1.
  injection H1 as <- Hd. auto.
Qed.

Lemma getMessages_same_tables jid limit offset :
  keeps same_tables (Database.getMessages jid limit offset).
Proof.
  unfold Database.getMessages.
  apply keeps_db_method; [typeclasses eauto|].
  apply keeps_bind; [typeclasses eauto| |intros; apply keeps_ret; typeclasses eauto].
  apply same_tables_run_read. unfold Query.select_messages.
  intros s a s' H. injection H as _ <-. reflexivity.
Qed.

Lemma filter_none {A} (P : A → bool) l :
  (∀ x, x ∈ l → P x = false) → List.filter P l = [].
Proof.
  induction l as [|x l IH]; intros H; simpl; [reflexivity|].
  rewrite (H x) by apply list_elem_of_here.
  apply IH. intros y Hy. apply H, list_elem_of_further, Hy.
Qed.

(** No row of the sorted list is newer than the first. *)
Lemma newest_is_first {A} (key : A → option Z) rows first rest :
  Query.order_by_desc key rows = first :: rest →
  ∀ x, x ∈ Query.order_by_desc key rows → Query.null_le (key x) (key first).
Proof.
  intros E x Hx.
  pose proof (StronglySorted_merge_sort (Query.newest_first key) rows) as Hs.
  unfold Query.order_by_desc in *. rewrite E in Hs, Hx.
  apply StronglySorted_inv in Hs as [_ Hall].
  apply elem_of_cons in Hx as [->|Hx].
  - destruct (key first); simpl; [lia | exact I].
  - rewrite Forall_forall in Hall. apply Hall, Hx.
Qed.

(** X24: [syncChatMessages] reports no new message, whatever the store
    holds and whether its calls fail or not, and leaves the tables as they
    are: the messages that it counts are those newer than the newest message
    of the conversation. *)
Theorem sync_of_chat_messages_finds_none connected jid lastSyncTime w :
  ∃ w', backend.syncChatMessages connected jid lastSyncTime w = (Ok 0%Z, w')
        ∧ db w' = db w.
Proof.
  unfold backend.syncChatMessages, try_catch.
  destruct connected; simpl; [|eauto].
  unfold bind at 1.
  pose proof (getMessages_same_tables jid 1 0 w) as Hs1.
  destruct (Database.getMessages jid 1 0 w) as [[recent|e] w1] eqn:E1;
    [|eauto].
  apply getMessages_inv in E1 as (Hrecent & Hd1 & Hc1).
  unfold bind at 1, Date_now.
  set (sorted := Query.order_by_desc Query.message_timestamp
                   (Query.join_message (db w) <$> Query.messages_of jid (db w)))
    in *.
  match goal with
  | |- context [if ?c then _ else _] => destruct c
  end; [eauto|].
  unfold mbind at 1, M_bind at 1, bind at 1, Date_toISOString.
  match goal with
  | |- context [Js.valid_time ?t] => destruct (Js.valid_time t)
  end; [|eexists; split; [reflexivity | exact Hd1]].
  cbn [ret]. unfold bind.
  pose proof (getMessages_same_tables jid 50 0 w1) as Hs2.
  destruct (Database.getMessages jid 50 0 w1) as [[all|e] w2] eqn:E2;
    [|eexists; split; [reflexivity | unfold same_tables in Hs2; simpl in Hs2;
                                     idtac]].
  2: { rewrite Hs2. exact Hd1. }
  apply getMessages_inv in E2 as (Hall & Hd2 & _). rewrite Hd1 in Hall.
  fold sorted in Hall. simpl. eexists. split; [|rewrite Hd2; exact Hd1].
  rewrite filter_none; [reflexivity|].
  intros x Hx. subst all. rewrite elem_of_reverse in Hx.
  unfold Query.limit_offset in Hx, Hrecent. simpl in Hx, Hrecent.
  rewrite drop_0 in Hx, Hrecent. apply elem_of_take in Hx as (k & Hx & _).
  apply list_elem_of_lookup_2 in Hx.
  destruct sorted as [|first rest] eqn:Es.
  - apply elem_of_nil in Hx. contradiction.
  - simpl in Hrecent. subst recent. simpl.
    pose proof (newest_is_first Query.message_timestamp _ first rest Es x) as Hle.
    fold sorted in Hle. rewrite Es in Hle. specialize (Hle Hx). simpl in Hle.
    apply Z.ltb_ge. exact Hle.
Qed.

Lemma elem_of_contacts_with_avatars s l s' jid avatar :
  Query.contacts_with_avatars s = Done l s' →
  (jid, avatar) ∈ l ↔ avatar_to_copy s jid = Some avatar.
Proof.
  unfold Query.contacts_with_avatars, avatar_to_copy. intros H.
  injection H as <- _. rewrite list_elem_of_omap. split.
  - intros ([j c] & Hin & Hsome). apply elem_of_map_to_list in Hin.
    simpl in Hsome.
    destruct (contacts.avatar_base64 c) as [a|] eqn:Ea; [|discriminate].
    destruct (tbl_chats s !! j) as [ch|] eqn:Ech; [|discriminate].
    destruct (chats.avatar_base64 ch) eqn:Eav; [discriminate|].
    injection Hsome as -> ->. rewrite Hin, Ech. simpl. rewrite Ea, Eav.
    reflexivity.
  - intros H.
    destruct (tbl_contacts s !! jid) as [c|] eqn:Ec; [|discriminate]. simpl in H.
    destruct (contacts.avatar_base64 c) as [a|] eqn:Ea; [|discriminate].
    destruct (tbl_chats s !! jid) as [ch|] eqn:Ech; [|discriminate].
    destruct (chats.avatar_base64 ch) eqn:Eav; [discriminate|].
    injection H as <-. exists (jid, c). split.
    + apply elem_of_map_to_list, Ec.
    + simpl. rewrite Ea, Ech, Eav. reflexivity.
Qed.

Lemma NoDup_contacts_with_avatars s l s' :
  Query.contacts_with_avatars s = Done l s' → NoDup l.*1.
Proof.
  unfold Query.contacts_with_avatars. intros H. injection H as <- _.
  pose proof (NoDup_fst_map_to_list (tbl_contacts s)) as Hnd.
  induction (map_to_list (tbl_contacts s)) as [|[j c] rest IH]; simpl.
  - constructor.
  - apply NoDup_cons in Hnd as [Hj Hnd]. specialize (IH Hnd).
    match goal with |- NoDup (match ?o with _ => _ end).*1 => destruct o as [[j' a]|] eqn:E end;
      [|exact IH].
    simpl. apply NoDup_cons. split; [|exact IH].
    assert (j' = j) as ->.
    { simpl in E. destruct (contacts.avatar_base64 c); [|discriminate].
      destruct (tbl_chats s !! j) as [ch|]; [|discriminate].
      destruct (chats.avatar_base64 ch); [discriminate|].
      injection E as <- _. reflexivity. }
    intros Hin. apply Hj. apply list_elem_of_fmap in Hin as ([j2 a2] & -> & Hin).
    apply list_elem_of_omap in Hin as ([j3 c3] & Hin3 & E3).
    apply list_elem_of_fmap. exists (j3, c3). split; [|exact Hin3].
    simpl in E3. destruct (contacts.avatar_base64 c3); [|discriminate].
    destruct (tbl_chats s !! j3) as [ch|]; [|discriminate].
    destruct (chats.avatar_base64 ch); [discriminate|].
    injection E3 as <- _. reflexivity.
Qed.

(** The loop of [syncContactAvatarsToChats] when nothing fails. *)
Lemma syncContactAvatars_loop_ok l n w :
  faults w = [] →
  ∃ w', backend.syncContactAvatars_loop l n w = (Ok (n + length l)%nat, w')
        ∧ faults w' = []
        ∧ tbl_chats (db w')
          = foldl (λ m (kv : string * string), alter (with_avatar (Some kv.2)) kv.1 m)
                  (tbl_chats (db w)) l
        ∧ tbl_messages (db w') = tbl_messages (db w)
        ∧ tbl_messages_null (db w') = tbl_messages_null (db w)
        ∧ tbl_contacts (db w') = tbl_contacts (db w).
Proof.
  revert n w. induction l as [|[j a] rest IH]; intros n w Hf; simpl.
  - exists w. rewrite Nat.add_0_r. repeat split. exact Hf.
  - unfold bind, backend.syncContactAvatar, try_catch, mbind, M_bind, bind.
    unfold database.updateChatAvatar. simpl.
    erewrite db_method_run_ok; [|exact Hf|reflexivity]. simpl.
    match goal with
    | |- context [backend.syncContactAvatars_loop rest (S n) ?w1] =>
        destruct (IH (S n) w1) as (w' & E & Hf' & Hc & Hm & Hn & Hk);
          [destruct w; exact Hf|]
    end.
    exists w'. rewrite E. simpl in *.
    split; [f_equal; f_equal; lia|]. repeat split; assumption.
Qed.

Lemma foldl_alter_lookup (l : list (string * string)) (m : gmap string chats.row) j :
  NoDup l.*1 →
  foldl (λ m (kv : string * string), alter (with_avatar (Some kv.2)) kv.1 m) m l
  !! j
  = match list_find (λ kv : string * string, kv.1 = j) l with
    | Some (_, kv) => with_avatar (Some kv.2) <$> m !! j
    | None => m !! j
    end.
Proof.
  revert m. induction l as [|[j' a] rest IH]; intros m Hnd; simpl; [reflexivity|].
  apply NoDup_cons in Hnd as [Hj Hnd]. rewrite (IH _ Hnd).
  destruct (decide (j' = j)) as [->|Hne]; simpl.
  - assert (Hnone : list_find (λ kv : string * string, kv.1 = j) rest = None).
    { apply list_find_None, Forall_forall. intros [j2 a2] Hin E. simpl in E.
      subst j2. apply Hj, list_elem_of_fmap. exists (j, a2). auto. }
    rewrite Hnone. simpl. apply lookup_alter_eq.
  - rewrite lookup_alter_ne by exact Hne.
    destruct (list_find _ rest) as [[k kv]|]; reflexivity.
Qed.

(** X25: with no failing call, [syncContactAvatarsToChats] gives every
    conversation that has no avatar the avatar of its contact, if that has
    one, and changes nothing else: no avatar of a conversation is
    overwritten, no row is added or removed. It returns the number of
    conversations it has changed. *)
Theorem contact_avatars_reach_chats w :
  faults w = [] →
  ∃ n w',
    backend.syncContactAvatarsToChats w = (Ok n, w')
    ∧ (∀ jid, tbl_chats (db w') !! jid
              = with_copied_avatar (db w) jid <$> tbl_chats (db w) !! jid)
    ∧ tbl_messages (db w') = tbl_messages (db w)
    ∧ tbl_messages_null (db w') = tbl_messages_null (db w)
    ∧ tbl_contacts (db w') = tbl_contacts (db w)
    ∧ n = length (filter (λ kv : string * chats.row,
                            is_Some (avatar_to_copy (db w) kv.1))
                         (map_to_list (tbl_chats (db w)))).
Proof.
  intros Hf.
  destruct (Query.contacts_with_avatars (db w)) as [l s'|] eqn:Eq;
    [|discriminate].
  assert (Hs' : s' = db w).
  { unfold Query.contacts_with_avatars in Eq. injection Eq as _ <-. reflexivity. }
  subst s'.
  pose proof (NoDup_contacts_with_avatars _ _ _ Eq) as Hnd.
  pose proof (λ j a, elem_of_contacts_with_avatars _ _ _ j a Eq) as Hin.
  destruct (syncContactAvatars_loop_ok l 0 w Hf)
    as (w' & E & _ & Hc & Hm & Hn & Hk).
  exists (length l), w'.
  split; [|split; [|split; [|split; [|split]]]]; try assumption.
  - unfold backend.syncContactAvatarsToChats, try_catch, bind, Database.all.
    rewrite (run_ok _ w l (db w) Hf Eq), set_db_same, E. reflexivity.
  - intros jid. rewrite Hc, (foldl_alter_lookup l _ jid Hnd).
    unfold with_copied_avatar.
    destruct (list_find _ l) as [[k [j a]]|] eqn:Ef.
    + apply list_find_Some in Ef as (Hk' & Hj & _). simpl in Hj. subst j.
      apply list_elem_of_lookup_2 in Hk'. apply Hin in Hk'. rewrite Hk'.
      reflexivity.
    + destruct (avatar_to_copy (db w) jid) as [a|] eqn:Ea; [|
        destruct (tbl_chats (db w) !! jid); reflexivity].
      apply Hin in Ea. apply list_find_None in Ef. rewrite Forall_forall in Ef.
      exfalso. apply (Ef _ Ea). reflexivity.
  - rewrite <- (length_fmap fst l), <- (length_fmap fst (filter _ _)).
    apply Permutation_length, NoDup_Permutation.
    + exact Hnd.
    + apply (NoDup_fmap_2_strong _).
      * intros [j1 c1] [j2 c2] H1 H2 Ej. simpl in Ej. subst j2.
        apply list_elem_of_filter in H1 as [_ H1].
        apply list_elem_of_filter in H2 as [_ H2].
        apply elem_of_map_to_list in H1, H2. congruence.
      * apply NoDup_filter, NoDup_map_to_list.
    + intros j. rewrite !list_elem_of_fmap. split.
      * intros ([j' a] & -> & Hl). simpl. apply Hin in Hl.
        assert (Hch : is_Some (tbl_chats (db w) !! j')).
        { unfold avatar_to_copy in Hl.
          destruct (tbl_chats (db w) !! j'); [eauto|].
          destruct (_ ≫= contacts.avatar_base64); discriminate. }
        destruct Hch as [c Hch]. exists (j', c). split; [reflexivity|].
        apply list_elem_of_filter. simpl. split; [rewrite Hl; eauto|].
        apply elem_of_map_to_list, Hch.
      * intros ([j' c] & -> & Hl). apply list_elem_of_filter in Hl as [[a Ha] _].
        simpl in *. exists (j', a). split; [reflexivity|]. apply Hin, Ha.
Qed.

(** A conversation without avatar and one with an avatar of its own. *)
Lemma contact_avatars_reach_chats_witness :
  let w :=
    snd ((database.saveChat "A" (Some "Ann") None Js.NaN None "text" None;;
          database.saveChat "B" (Some "Bob") None Js.NaN (Some "own") "text" None;;
          database.saveContact "A" (Some "Ann") None (Some "ann.png");;
          database.saveContact "B" (Some "Bob") None (Some "bob.png"))
           (Sample.world empty_store 1700000000000)) in
  ∃ w', backend.syncContactAvatarsToChats w = (Ok 1%nat, w')
        ∧ (tbl_chats (db w') !! "A" ≫= chats.avatar_base64) = Some "ann.png"
        ∧ (tbl_chats (db w') !! "B" ≫= chats.avatar_base64) = Some "own".
Proof.
  intros w.
  destruct (contact_avatars_reach_chats w) as (n & w' & E & Hc & _ & _ & _ & Hn);
    [reflexivity|].
  exists w'. vm_compute in Hn. subst n. split; [exact E|].
  rewrite !Hc. split; reflexivity.
Defined.

Lemma long_is_truthy s : (100 <? String.length s)%nat = true →
  Js.truthy_str (Some s) = true.
Proof. destruct s; [discriminate | reflexivity]. Qed.

(** X26: with no failing call, [downloadChatAvatar] returns [false] and leaves
    the state as it is when the backend is not connected, when the
    conversation has an avatar, or when no usable picture is downloaded. *)
Theorem chat_avatar_is_downloaded_once connected picture jid w :
  faults w = [] →
  connected = false
  ∨ Js.truthy_str (chat_avatar (db w) jid) = true
  ∨ usable picture = false →
  backend.downloadChatAvatar connected picture jid w = (Ok false, w).
Proof.
  intros Hf H. unfold backend.downloadChatAvatar, try_catch at 1.
  destruct connected; simpl; [|reflexivity].
  unfold bind. rewrite (getChatWithContact_ok jid w Hf).
  assert (Hav : (Query.join_chat (db w) jid <$> tbl_chats (db w) !! jid)
                ≫= (λ c, chats.avatar_base64 (chat_list.chat c))
                = chat_avatar (db w) jid).
  { unfold chat_avatar. destruct (tbl_chats (db w) !! jid); reflexivity. }
  rewrite Hav.
  destruct (Js.truthy_str (chat_avatar (db w) jid)); [reflexivity|].
  destruct H as [H|[H|H]]; try discriminate.
  unfold try_catch.
  destruct picture as [[p|]|e]; simpl in *; try reflexivity.
  rewrite H, andb_false_r. reflexivity.
Qed.

(** A conversation that has an avatar. *)
Lemma chat_avatar_is_downloaded_once_witness :
  let w := snd (database.saveChat "G" (Some "Group") None Js.NaN (Some "own")
                  "text" None (Sample.world empty_store 1700000000000)) in
  backend.downloadChatAvatar true (Ok (Some (String.concat "" (replicate 50 "abc")))) "G" w
  = (Ok false, w).
Proof.
  intros w. apply chat_avatar_is_downloaded_once; [reflexivity|].
  right. left. reflexivity.
Defined.

(** X27: when [downloadChatAvatar] saves a picture, it replaces the row of the
    conversation: with no failing call it returns [true], and afterwards the
    conversation has its former name and the picture, but neither last
    message nor sync cursors, and no message of a conversation that was
    stored is left, be it stored under an id or without one; the other
    conversations, their messages and the contacts are as before. *)
Theorem downloaded_avatar_replaces_the_chat picture jid w :
  faults w = [] →
  Js.truthy_str (chat_avatar (db w) jid) = false →
  (100 <? String.length picture)%nat = true →
  let w' := snd (backend.downloadChatAvatar true (Ok (Some picture)) jid w) in
  fst (backend.downloadChatAvatar true (Ok (Some picture)) jid w) = Ok true
  ∧ tbl_chats (db w') !! jid
    = Some {| chats.name := Js.or_null (tbl_chats (db w) !! jid ≫= chats.name);
              chats.avatar_base64 := Some picture;
              chats.last_message_id := None;
              chats.last_message_timestamp := None;
              chats.last_message_type := Some "text";
              chats.last_message_from := None;
              chats.unread_count := 0;
              chats.is_archived := false;
              chats.history_baseline_timestamp := None;
              chats.last_sync_timestamp := None;
              chats.history_complete := false |}
  ∧ (is_Some (tbl_chats (db w) !! jid) → ∀ r, ¬ message_of (db w') jid r)
  ∧ (∀ j, j ≠ jid → tbl_chats (db w') !! j = tbl_chats (db w) !! j)
  ∧ (∀ j r, j ≠ jid → message_of (db w') j r ↔ message_of (db w) j r)
  ∧ tbl_contacts (db w') = tbl_contacts (db w).
Proof.
  intros Hf Hav Hlong.
  assert (E : backend.downloadChatAvatar true (Ok (Some picture)) jid w
    = (Ok true,
       match Sql.replace_chat jid
               (Js.or_null (tbl_chats (db w) !! jid ≫= chats.name))
               (Some picture) None None "text" None (db w) with
       | Done _ s' => set_db s' w
       | Failed _ => w
       end)).
  { unfold backend.downloadChatAvatar, try_catch at 1.
    cbn [negb]. unfold bind. rewrite (getChatWithContact_ok jid w Hf).
    assert (Hav' : (Query.join_chat (db w) jid <$> tbl_chats (db w) !! jid)
                   ≫= (λ c, chats.avatar_base64 (chat_list.chat c))
                   = chat_avatar (db w) jid).
    { unfold chat_avatar. destruct (tbl_chats (db w) !! jid); reflexivity. }
    assert (Hname : (Query.join_chat (db w) jid <$> tbl_chats (db w) !! jid)
                    ≫= (λ c, chats.name (chat_list.chat c))
                    = tbl_chats (db w) !! jid ≫= chats.name).
    { destruct (tbl_chats (db w) !! jid); reflexivity. }
    rewrite Hav', Hav, Hname, Hlong, (long_is_truthy _ Hlong).
    cbn [andb]. unfold try_catch, mbind, M_bind, bind, database.saveChat.
    erewrite db_method_run_ok; [reflexivity | exact Hf | reflexivity]. }
  rewrite E. unfold Sql.replace_chat. simpl.
  split; [reflexivity|].
  split; [apply lookup_insert_eq|].
  split; [|split; [|split]].
  - intros [c Hc] r. rewrite Hc. simpl. intros [[[i Hi]|Hi] Hj].
    + apply map_lookup_filter_Some in Hi as [_ Hi]. exact (Hi Hj).
    + apply list_elem_of_filter in Hi as [Hi _]. exact (Hi Hj).
  - intros j Hj. rewrite lookup_insert_ne by congruence.
    destruct (tbl_chats (db w) !! jid); simpl;
      [apply lookup_delete_ne; congruence | reflexivity].
  - intros j r Hj. unfold message_of.
    destruct (tbl_chats (db w) !! jid); simpl; [|reflexivity].
    split.
    + intros [[[i Hi]|Hi] Hr]; (split; [|exact Hr]).
      * left. exists i. apply map_lookup_filter_Some in Hi as [Hi _]. exact Hi.
      * right. apply list_elem_of_filter in Hi as [_ Hi]. exact Hi.
    + intros [[[i Hi]|Hi] Hr]; (split; [|exact Hr]).
      * left. exists i. apply map_lookup_filter_Some.
        split; [exact Hi | simpl; congruence].
      * right. apply list_elem_of_filter. split; [congruence | exact Hi].
  - destruct (tbl_chats (db w) !! jid); reflexivity.
Qed.

(** A conversation with a baseline, a message under an id and a message
    without id. *)
Lemma downloaded_avatar_replaces_the_chat_witness :
  let picture := String.concat "" (replicate 50 "abc") in
  let w :=
    snd ((database.saveChat "G" (Some "Group") None Js.NaN None "text" None;;
          database.setChatHistoryBaseline "G" (Js.Num 100000);;
          database.saveMessage (Some "m1") (Some "G") false "hello"
            (Js.Num 100000) "text" "received" None (Some "real-time");;
          database.saveMessage None (Some "G") false "anonymous"
            (Js.Num 100001) "text" "received" None (Some "real-time"))
           (Sample.world empty_store 1700000000000)) in
  let w' := snd (backend.downloadChatAvatar true (Ok (Some picture)) "G" w) in
  (baseline (db w) "G" = Some 100000%Z ∧ is_Some (tbl_messages (db w) !! "m1")
   ∧ length (tbl_messages_null (db w)) = 1%nat)
  ∧ (baseline (db w') "G" = None ∧ tbl_messages (db w') !! "m1" = None
     ∧ tbl_messages_null (db w') = []).
Proof.
  intros picture w w'.
  split; [split; [reflexivity | split; [vm_compute; eauto | reflexivity]]|].
  destruct (downloaded_avatar_replaces_the_chat picture "G" w)
    as (_ & Hrow & Hgone & _); [reflexivity | reflexivity | reflexivity |].
  fold w' in Hrow, Hgone.
  specialize (Hgone ltac:(vm_compute; eauto)).
  split; [|split].
  - unfold baseline. rewrite Hrow. reflexivity.
  - destruct (tbl_messages (db w') !! "m1") as [r|] eqn:Er; [|reflexivity].
    exfalso. assert (Hj : messages.chat_jid r = "G").
    { vm_compute in Er. discriminate. }
    apply (Hgone r). split; [left; eauto | exact Hj].
  - vm_compute. reflexivity.
Defined.
